(** * Danbooru scraper: the resumable ID-range scraping engine

    A shallow embedding of [scraper.py] (class [DanbooruScraper]) and the
    statements of its specification that are settled against it.

    Layout of the development:
    - [Text]      : helpers on [string] (files and JSON text are strings of bytes);
    - [Json]      : JSON values as Python's [json] module sees them, the encoder
                    behind [json.dumps] / [json.dump], and the JSON grammar;
    - [Scraper]   : the scraper object: progress state, the HTTP capability,
                    the two files, and the methods of [DanbooruScraper];
    - [Decoder]   : [json.loads];
    - [Resume]    : [_load_state] and the scraper of a new run;
    - [Analysis]  : the readers of [analyze_posts.py];
    - [Observed]  : what a reader of the two files finds, over runs;
    - theorems, one block per statement of the specification, and the
      properties of the code beyond them. *)

From Stdlib Require Import ZArith List String Ascii Bool Lia Arith Sorted.
From Stdlib Require Import DecimalString DecimalZ DecimalPos DecimalN DecimalFacts.
Import ListNotations.

Local Open Scope string_scope.
Local Open Scope Z_scope.

(* ================================================================== *)
(** ** Text: strings of bytes *)
(* ================================================================== *)

Module Text.

(** The double quote, the backslash and the line feed, by code. *)
Definition dquote : ascii := ascii_of_nat 34.
Definition backslash : ascii := ascii_of_nat 92.
Definition newline : ascii := ascii_of_nat 10.

Definition str1 (c : ascii) : string := String c EmptyString.

Definition nl : string := str1 newline.

(** [sep.join(parts)] *)
Fixpoint join (sep : string) (parts : list string) : string :=
  match parts with
  | [] => EmptyString
  | [p] => p
  | p :: rest => p ++ sep ++ join sep rest
  end.

(** Concatenation of a list of chunks, in order. *)
Fixpoint concat_all (chunks : list string) : string :=
  match chunks with
  | [] => EmptyString
  | c :: rest => c ++ concat_all rest
  end.

(** [occurs c s]: the byte [c] occurs in [s]. *)
Fixpoint occurs (c : ascii) (s : string) : bool :=
  match s with
  | EmptyString => false
  | String d s' => Ascii.eqb c d || occurs c s'
  end.

(** Number of occurrences of [c] in [s]. *)
Fixpoint count_char (c : ascii) (s : string) : nat :=
  match s with
  | EmptyString => O
  | String d s' => (if Ascii.eqb c d then 1 else 0) + count_char c s'
  end.

(** The lines of a text file: [split_lines s] is the list of the lines that
    are terminated by a line feed (without the line feed) and the
    unterminated rest. *)
Fixpoint split_lines_aux (cur : string) (s : string) : list string * string :=
  match s with
  | EmptyString => ([], cur)
  | String d s' =>
      if Ascii.eqb d newline
      then let (ls, rest) := split_lines_aux EmptyString s' in (cur :: ls, rest)
      else split_lines_aux (cur ++ str1 d) s'
  end.

Definition split_lines (s : string) : list string * string :=
  split_lines_aux EmptyString s.

(** The first [k] characters of [s], or all of it. *)
Fixpoint first_chars (k : nat) (s : string) : string :=
  match k, s with
  | S k', String c s' => String c (first_chars k' s')
  | _, _ => EmptyString
  end.

(** [is_prefix p s]: [s] starts with [p]. *)
Definition is_prefix (p s : string) : Prop := exists rest, s = p ++ rest.

End Text.

Import Text.

(* ================================================================== *)
(** ** Json: values, the encoder of Python's json module, the grammar *)
(* ================================================================== *)

Module Json.

(** A float, by what [json.dumps] writes for it. A float that is not
    finite is written [NaN], [Infinity] or [-Infinity] ([allow_nan] is on
    unless it is turned off). A finite float is written by
    [float.__repr__]: a sign, the digits of the integer part, a point and
    the digits of the fraction, the letter [e] and an exponent with its
    sign and two digits or more; it is given here by these parts, with
    [Nil] for no fraction and [None] for no exponent. Every text that
    Python writes for a float is the text of one of these. *)
Inductive pyfloat : Type :=
| FNaN
| FInfinity (negative : bool)
| FFinite (negative : bool) (int_part : N) (frac : Decimal.uint) (exp : option Z).

(** What [response.json()] and [json.load] build: [None], [bool], [int],
    [float], [str], [list] and [dict] (a dict keeps its insertion order,
    so it is an association list). *)
#[local] Unset Elimination Schemes.
Inductive json : Type :=
| JNull
| JBool (b : bool)
| JInt (n : Z)
| JFloat (f : pyfloat)
| JStr (s : string)
| JArr (items : list json)
| JObj (members : list (string * json)).
#[local] Set Elimination Schemes.

(** Induction on a JSON value, with the hypothesis for every item of a
    list and every member of a dict. *)
Section JsonInduction.

Variable P : json -> Prop.
Hypothesis P_null : P JNull.
Hypothesis P_bool : forall b, P (JBool b).
Hypothesis P_int : forall n, P (JInt n).
Hypothesis P_float : forall f, P (JFloat f).
Hypothesis P_str : forall s, P (JStr s).
Hypothesis P_arr : forall items, Forall P items -> P (JArr items).
Hypothesis P_obj :
  forall members, Forall (fun kv => P (snd kv)) members -> P (JObj members).

Fixpoint json_ind (v : json) : P v :=
  match v with
  | JNull => P_null
  | JBool b => P_bool b
  | JInt n => P_int n
  | JFloat f => P_float f
  | JStr s => P_str s
  | JArr items =>
      P_arr items
        ((fix all (l : list json) : Forall P l :=
            match l with
            | [] => Forall_nil P
            | x :: l' => Forall_cons x (json_ind x) (all l')
            end) items)
  | JObj members =>
      P_obj members
        ((fix all (l : list (string * json)) : Forall (fun kv => P (snd kv)) l :=
            match l with
            | [] => Forall_nil _
            | kv :: l' => Forall_cons kv (json_ind (snd kv)) (all l')
            end) members)
  end.

End JsonInduction.

(** [int.__repr__]: decimal digits, a minus sign for negatives. *)
Definition int_str (n : Z) : string := NilZero.string_of_int (Z.to_int n).

(** A decimal number without a leading zero, or zero itself. *)
Definition trimmed (u : Decimal.uint) : Prop :=
  u <> Decimal.Nil /\ (forall u', u = Decimal.D0 u' -> u' = Decimal.Nil).

Definition hex_digit (n : nat) : ascii :=
  if (n <? 10)%nat then ascii_of_nat (48 + n) else ascii_of_nat (87 + n).

(** [json.encoder.ESCAPE_DCT]: the replacement of one character by
    [py_encode_basestring] (the encoder used when [ensure_ascii] is false,
    and by [json.dump] for the keys and the timestamp of the state, which
    are printable ASCII). Characters from 0x20 on, other than the quote
    and the backslash, are written as they are. *)
Definition escape_char (c : ascii) : string :=
  let n := nat_of_ascii c in
  if (n =? 34)%nat then String backslash (str1 dquote)
  else if (n =? 92)%nat then String backslash (str1 backslash)
  else if (n =? 10)%nat then String backslash "n"
  else if (n =? 13)%nat then String backslash "r"
  else if (n =? 9)%nat then String backslash "t"
  else if (n =? 8)%nat then String backslash "b"
  else if (n =? 12)%nat then String backslash "f"
  else if (n <? 32)%nat
       then String backslash
              ("u00" ++ String (hex_digit (n / 16)) (str1 (hex_digit (n mod 16))))
  else str1 c.

Fixpoint escape (s : string) : string :=
  match s with
  | EmptyString => EmptyString
  | String c s' => escape_char c ++ escape s'
  end.

(** [py_encode_basestring(s)] *)
Definition encode_basestring (s : string) : string :=
  String dquote (escape s ++ str1 dquote).

(** The exponent of a float: its sign, and two digits at least. *)
Definition exp_str (e : Z) : string :=
  "e" ++ (if e <? 0 then "-" else "+")
      ++ (if Z.abs e <? 10 then "0" else EmptyString) ++ int_str (Z.abs e).

(** [float.__repr__], and the three names of the floats that are not
    finite. *)
Definition float_str (f : pyfloat) : string :=
  match f with
  | FNaN => "NaN"
  | FInfinity false => "Infinity"
  | FInfinity true => "-Infinity"
  | FFinite negative int_part frac exp =>
      (if negative then "-" else EmptyString)
      ++ int_str (Z.of_N int_part)
      ++ match frac with
         | Decimal.Nil => EmptyString
         | _ => "." ++ NilEmpty.string_of_uint frac
         end
      ++ match exp with
         | Some e => exp_str e
         | None => EmptyString
         end
  end.

(** [json.dumps(v, ensure_ascii=False)]: the default separators are
    [", "] and [": "], and there is no indentation. *)
Fixpoint dumps (v : json) : string :=
  match v with
  | JNull => "null"
  | JBool true => "true"
  | JBool false => "false"
  | JInt n => int_str n
  | JFloat f => float_str f
  | JStr s => encode_basestring s
  | JArr items => "[" ++ join ", " (map dumps items) ++ "]"
  | JObj members =>
      "{" ++ join ", "
               (map (fun kv : string * json =>
                       let (k, x) := kv in
                       encode_basestring k ++ ": " ++ dumps x) members)
          ++ "}"
  end.


End Json.

Import Json.

(* ================================================================== *)
(** ** The JSON grammar (RFC 8259), over strings of bytes *)
(* ================================================================== *)

Module Grammar.

Definition code (c : ascii) : nat := nat_of_ascii c.

Definition is_ws (c : ascii) : bool :=
  ((code c =? 32) || (code c =? 9) || (code c =? 10) || (code c =? 13))%nat.

Definition is_digit (c : ascii) : bool := ((48 <=? code c) && (code c <=? 57))%nat.

Definition is_digit19 (c : ascii) : bool := ((49 <=? code c) && (code c <=? 57))%nat.

Definition is_hex (c : ascii) : bool :=
  (is_digit c || ((65 <=? code c) && (code c <=? 70))
   || ((97 <=? code c) && (code c <=? 102)))%nat.

(** A character that may stand for itself inside a string: anything from
    0x20 on but the quote and the backslash. *)
Definition is_unescaped (c : ascii) : bool :=
  ((32 <=? code c) && negb (code c =? 34) && negb (code c =? 92))%nat.

(** The character after a backslash in a two-character escape. *)
Definition is_escape_letter (c : ascii) : bool :=
  ((code c =? 34) || (code c =? 92) || (code c =? 47) || (code c =? 98)
   || (code c =? 102) || (code c =? 110) || (code c =? 114) || (code c =? 116))%nat.

Inductive ws : string -> Prop :=
| ws_nil : ws EmptyString
| ws_cons c s : is_ws c = true -> ws s -> ws (String c s).

(** Zero or more digits. *)
Inductive digits : string -> Prop :=
| digits_nil : digits EmptyString
| digits_cons c s : is_digit c = true -> digits s -> digits (String c s).

(** int = zero / ( digit1-9 *DIGIT ) *)
Inductive json_int : string -> Prop :=
| int_zero : json_int "0"
| int_nonzero c s : is_digit19 c = true -> digits s -> json_int (String c s).

(** frac = decimal-point 1*DIGIT, or nothing *)
Inductive opt_frac : string -> Prop :=
| frac_none : opt_frac EmptyString
| frac_some c s : is_digit c = true -> digits s -> opt_frac ("." ++ String c s).

(** exp = e [ minus / plus ] 1*DIGIT, or nothing *)
Inductive opt_exp : string -> Prop :=
| exp_none : opt_exp EmptyString
| exp_some e sign c s :
    (e = "e" \/ e = "E") ->
    (sign = EmptyString \/ sign = "-" \/ sign = "+") ->
    is_digit c = true -> digits s ->
    opt_exp (e ++ sign ++ String c s).

(** number = [ minus ] int [ frac ] [ exp ] *)
Inductive json_number : string -> Prop :=
| number_intro minus i f e :
    (minus = EmptyString \/ minus = "-") ->
    json_int i -> opt_frac f -> opt_exp e ->
    json_number (minus ++ i ++ f ++ e).

(** The characters between the quotes of a string. *)
Inductive json_chars : string -> Prop :=
| chars_nil : json_chars EmptyString
| chars_plain c s :
    is_unescaped c = true -> json_chars s -> json_chars (String c s)
| chars_escape c s :
    is_escape_letter c = true -> json_chars s ->
    json_chars (String backslash (String c s))
| chars_unicode h1 h2 h3 h4 s :
    is_hex h1 = true -> is_hex h2 = true -> is_hex h3 = true -> is_hex h4 = true ->
    json_chars s ->
    json_chars (String backslash ("u" ++ String h1 (String h2 (String h3 (String h4 s))))).

Inductive json_string : string -> Prop :=
| string_intro body :
    json_chars body -> json_string (String dquote (body ++ str1 dquote)).

(** value = false / null / true / object / array / number / string, with
    insignificant whitespace around the six structural characters. *)
Inductive json_value : string -> Prop :=
| value_null : json_value "null"
| value_true : json_value "true"
| value_false : json_value "false"
| value_number s : json_number s -> json_value s
| value_string s : json_string s -> json_value s
| value_array_empty w : ws w -> json_value ("[" ++ w ++ "]")
| value_array elems : json_elements elems -> json_value ("[" ++ elems ++ "]")
| value_object_empty w : ws w -> json_value ("{" ++ w ++ "}")
| value_object membs : json_members membs -> json_value ("{" ++ membs ++ "}")
with json_elements : string -> Prop :=
| elements_last w1 v w2 :
    ws w1 -> json_value v -> ws w2 -> json_elements (w1 ++ v ++ w2)
| elements_more w1 v w2 rest :
    ws w1 -> json_value v -> ws w2 -> json_elements rest ->
    json_elements (w1 ++ v ++ w2 ++ "," ++ rest)
with json_members : string -> Prop :=
| members_last w1 k w2 w3 v w4 :
    ws w1 -> json_string k -> ws w2 -> ws w3 -> json_value v -> ws w4 ->
    json_members (w1 ++ k ++ w2 ++ ":" ++ w3 ++ v ++ w4)
| members_more w1 k w2 w3 v w4 rest :
    ws w1 -> json_string k -> ws w2 -> ws w3 -> json_value v -> ws w4 ->
    json_members rest ->
    json_members (w1 ++ k ++ w2 ++ ":" ++ w3 ++ v ++ w4 ++ "," ++ rest).


(** Induction on the derivation of a value, of the items of an array and
    of the members of an object, together. *)
Scheme json_value_mut := Minimality for json_value Sort Prop
  with json_elements_mut := Minimality for json_elements Sort Prop
  with json_members_mut := Minimality for json_members Sort Prop.

Combined Scheme json_derivation_ind
  from json_value_mut, json_elements_mut, json_members_mut.

End Grammar.

Import Grammar.

(* ================================================================== *)
(** ** Scraper: the class DanbooruScraper *)
(* ================================================================== *)

Module Scraper.

(** *** Records and progress state *)

(** A post as the engine reads it: a JSON object whose [id] is an integer
    (the docstring of [_fetch_posts_by_id_range]: a list of post
    dictionaries); every other member passes through to the output. The
    dict keeps the order of its keys: [post_before] are the members that
    come before [id], [post_fields] those that come after. A dict has
    every key once; where a statement depends on it, it says so
    ([is_value]). *)
Record post : Type := Post {
  post_before : list (string * json);
  post_id : Z;
  post_fields : list (string * json)
}.

(** A post whose first key is [id]. *)
Definition mk_post (id : Z) (fields : list (string * json)) : post :=
  {| post_before := []; post_id := id; post_fields := fields |}.

Definition post_json (p : post) : json :=
  JObj (post_before p ++ ("id", JInt (post_id p)) :: post_fields p).

(** [self.state]. [current_batch_start] is read with
    [self.state.get('current_batch_start', 1)], so the key may be absent. *)
Record scraper_state : Type := mk_state {
  last_processed_id : Z;
  total_posts_scraped : Z;
  last_update : option string;
  current_batch_start : option Z
}.

(** The default state of [_load_state]. *)
Definition default_state : scraper_state :=
  {| last_processed_id := 0;
     total_posts_scraped := 0;
     last_update := None;
     current_batch_start := Some 1 |}.

(** [self.state.get('current_batch_start', 1)] *)
Definition checkpoint (st : scraper_state) : Z :=
  match current_batch_start st with
  | Some n => n
  | None => 1
  end.

Definition set_last_update (st : scraper_state) (t : string) : scraper_state :=
  {| last_processed_id := last_processed_id st;
     total_posts_scraped := total_posts_scraped st;
     last_update := Some t;
     current_batch_start := current_batch_start st |}.

Definition set_last_processed_id (st : scraper_state) (n : Z) : scraper_state :=
  {| last_processed_id := n;
     total_posts_scraped := total_posts_scraped st;
     last_update := last_update st;
     current_batch_start := current_batch_start st |}.

Definition add_total_posts_scraped (st : scraper_state) (n : Z) : scraper_state :=
  {| last_processed_id := last_processed_id st;
     total_posts_scraped := total_posts_scraped st + n;
     last_update := last_update st;
     current_batch_start := current_batch_start st |}.

Definition set_current_batch_start (st : scraper_state) (n : Z) : scraper_state :=
  {| last_processed_id := last_processed_id st;
     total_posts_scraped := total_posts_scraped st;
     last_update := last_update st;
     current_batch_start := Some n |}.

(** The members of the state dict, in insertion order. *)
Definition state_members (st : scraper_state) : list (string * json) :=
  [ ("last_processed_id", JInt (last_processed_id st));
    ("total_posts_scraped", JInt (total_posts_scraped st));
    ("last_update", match last_update st with
                    | Some t => JStr t
                    | None => JNull
                    end) ]
  ++ match current_batch_start st with
     | Some n => [("current_batch_start", JInt n)]
     | None => []
     end.

(** [json.dump(self.state, f, indent=2)] does not build one string: the
    encoder yields chunks and [json.dump] writes them to the file one by
    one. With [indent=2] the item separator is a comma, a line feed and
    two spaces. These are the chunks for a dict of scalars, in order. *)
Fixpoint member_chunks (first : bool) (ms : list (string * json)) : list string :=
  match ms with
  | [] => []
  | (k, v) :: rest =>
      (if first then [] else ["," ++ nl ++ "  "])
      ++ [encode_basestring k; ": "; dumps v]
      ++ member_chunks false rest
  end.

Definition dump_chunks (st : scraper_state) : list string :=
  ["{"; nl ++ "  "] ++ member_chunks true (state_members st) ++ [nl; "}"].

(** The text of a completely written state file. *)
Definition dump_state (st : scraper_state) : string := concat_all (dump_chunks st).

(** *** The scraper's settings *)

(** The settings of [__init__] that the engine's control flow reads (the
    paths, the base URL and the delay only name files, the server and the
    length of a pause). *)
Record config : Type := mk_config {
  posts_per_page : Z;
  batch_size : Z
}.

(** [__init__]: the page size is capped at Danbooru's maximum. *)
Definition init (posts_per_page_arg batch_size_arg : Z) : config :=
  {| posts_per_page := Z.min posts_per_page_arg 200;
     batch_size := batch_size_arg |}.

(** [max_pages = 1000  # Danbooru limit] *)
Definition max_pages : Z := 1000.

(** *** The outside world *)

(** The two GET requests the scraper sends to [posts.json]. *)
Inductive request : Type :=
| GetLatest                                     (* limit=1, page=1 *)
| GetRange (min_id max_id limit page : Z).      (* tags=id:min..max *)

(** Exceptions (subclasses of [Exception]) that the HTTP library and the
    JSON decoder raise. [RequestsJSONDecodeError] is the decode error of
    recent versions of the HTTP library, which is both a
    [RequestException] and a [json.JSONDecodeError]. *)
Inductive exn : Type :=
| ConnectionError
| Timeout
| HTTPError
| RequestsJSONDecodeError
| JSONDecodeError
| OtherError.

Inductive exn_class : Type :=
| RequestException
| JSONDecodeError_class
| Exception.

Definition isinstance (e : exn) (c : exn_class) : bool :=
  match c, e with
  | Exception, _ => true
  | RequestException, (ConnectionError | Timeout | HTTPError | RequestsJSONDecodeError) => true
  | RequestException, _ => false
  | JSONDecodeError_class, (RequestsJSONDecodeError | JSONDecodeError) => true
  | JSONDecodeError_class, _ => false
  end.

(** A response object, by what its two methods do when called:
    [raise_for_status()] returns or raises, [json()] returns the decoded
    body or raises. *)
Record response : Type := mk_response {
  raise_for_status : option exn;
  response_json : exn + list post
}.

(** What opening and writing a file does. When a write raises,
    [written] tells how much has reached the file: for the state file,
    the chunks of [json.dump]; for the output file, whose lines go
    through the buffer of the file object and reach the file at a flush,
    the characters of the text, so that the cut may fall inside a line. *)
Inductive write_outcome : Type :=
| WriteOk                          (* every write succeeds *)
| OpenFails                        (* [open] raises: the file is untouched *)
| WriteFails (written : nat).      (* a write raises: [written] has reached the file *)

(** The environment of a run. Each capability answers by the number of
    earlier calls of its kind, so any sequence of answers is an
    environment. *)
Record environment : Type := mk_environment {
  requests_get : nat -> request -> exn + response;
  now_isoformat : nat -> string;
  output_write : nat -> write_outcome;
  state_write : nat -> write_outcome
}.

(** What the scraper does to the outside, in order. *)
Inductive event : Type :=
| EvRequest (r : request)               (* [requests.get] *)
| EvAppend (posts : list post)          (* [_append_posts_to_file(posts)] *)
| EvSave (st : scraper_state)           (* [_save_state()] of this state *)
| EvBatch (lo hi : Z)                   (* the log line "Processing batch" *)
| EvSleep.                              (* [time.sleep(self.delay)] *)

(** The scraper object and the files it owns. *)
Record world : Type := mk_world {
  w_state : scraper_state;              (* [self.state] *)
  w_output : string;                    (* the output file *)
  w_state_file : option string;         (* the state file, if it exists *)
  w_trace : list event                  (* what happened so far *)
}.

Definition is_request (e : event) : bool :=
  match e with EvRequest _ => true | _ => false end.

Definition is_fetch (e : event) : bool :=
  match e with EvRequest (GetRange _ _ _ _) => true | _ => false end.

Definition is_append (e : event) : bool :=
  match e with EvAppend _ => true | _ => false end.

Definition is_save (e : event) : bool :=
  match e with EvSave _ => true | _ => false end.

Definition count (f : event -> bool) (tr : list event) : nat :=
  List.length (filter f tr).

(** Number of records handed to the sink in a trace. *)
Fixpoint appended_count (tr : list event) : Z :=
  match tr with
  | [] => 0
  | EvAppend posts :: tr' => Z.of_nat (List.length posts) + appended_count tr'
  | _ :: tr' => appended_count tr'
  end.

(** The states saved in a trace, in order. *)
Fixpoint saved_states (tr : list event) : list scraper_state :=
  match tr with
  | [] => []
  | EvSave st :: tr' => st :: saved_states tr'
  | _ :: tr' => saved_states tr'
  end.

(** The ids of the records handed to the sink in a trace, in order. *)
Fixpoint appended_ids (tr : list event) : list Z :=
  match tr with
  | [] => []
  | EvAppend posts :: tr' => (map post_id posts ++ appended_ids tr')%list
  | _ :: tr' => appended_ids tr'
  end.

(** [backed total last tr]: every state saved in [tr] counts exactly the
    records handed to the sink before that save, on top of [total], and
    its [last_processed_id] is the largest of [last] and their ids. *)
Fixpoint backed (total last : Z) (tr : list event) : Prop :=
  match tr with
  | [] => True
  | EvAppend posts :: tr' =>
      backed (total + Z.of_nat (List.length posts))
             (fold_left Z.max (map post_id posts) last) tr'
  | EvSave st :: tr' =>
      total_posts_scraped st = total /\ last_processed_id st = last /\
      backed total last tr'
  | _ :: tr' => backed total last tr'
  end.

(** [paged prev tr]: every save of [tr] comes right after the append of a
    page that is not empty ([prev] tells whether such an append comes
    right before [tr]). *)
Fixpoint paged (prev : bool) (tr : list event) : Prop :=
  match tr with
  | [] => True
  | EvAppend posts :: tr' => paged (negb (Nat.eqb (List.length posts) 0)) tr'
  | EvSave _ :: tr' => prev = true /\ paged false tr'
  | _ :: tr' => paged false tr'
  end.

(** The windows announced in a trace, in order. *)
Fixpoint windows_of (tr : list event) : list (Z * Z) :=
  match tr with
  | [] => []
  | EvBatch lo hi :: tr' => (lo, hi) :: windows_of tr'
  | _ :: tr' => windows_of tr'
  end.

(** *** The monad of the methods *)

(** A method takes the world to a result and a new world. [None] is not a
    result of the program: it marks a loop that was given too little fuel. *)
Definition M (A : Type) : Type := world -> option (A * world).

Definition ret {A : Type} (a : A) : M A := fun w => Some (a, w).

Definition bind {A B : Type} (m : M A) (k : A -> M B) : M B :=
  fun w => match m w with
           | Some (a, w') => k a w'
           | None => None
           end.

Definition out_of_fuel {A : Type} : M A := fun _ => None.

Definition get_state : M scraper_state := fun w => Some (w_state w, w).

Definition with_state (st : scraper_state) (w : world) : world :=
  {| w_state := st;
     w_output := w_output w;
     w_state_file := w_state_file w;
     w_trace := w_trace w |}.

Definition with_output (out : string) (w : world) : world :=
  {| w_state := w_state w;
     w_output := out;
     w_state_file := w_state_file w;
     w_trace := w_trace w |}.

Definition with_state_file (file : option string) (w : world) : world :=
  {| w_state := w_state w;
     w_output := w_output w;
     w_state_file := file;
     w_trace := w_trace w |}.

(** The event [e] happens. *)
Definition push (e : event) (w : world) : world :=
  {| w_state := w_state w;
     w_output := w_output w;
     w_state_file := w_state_file w;
     w_trace := (w_trace w ++ [e])%list |}.

Definition modify_state (f : scraper_state -> scraper_state) : M unit :=
  fun w => Some (tt, with_state (f (w_state w)) w).

Definition emit (e : event) : M unit :=
  fun w => Some (tt, push e w).

Definition sleep : M unit := emit EvSleep.

Declare Scope scraper_scope.
Delimit Scope scraper_scope with scraper.

Notation "x <- c1 ;; c2" := (bind c1 (fun x => c2))
  (at level 100, c1 at next level, right associativity) : scraper_scope.
Notation "c1 ;; c2" := (bind c1 (fun _ => c2))
  (at level 100, right associativity) : scraper_scope.

Local Open Scope scraper_scope.

(** *** The files *)

(** The text of a post in the output file:
    [json.dumps(post, ensure_ascii=False)] *)
Definition post_text (p : post) : string := dumps (post_json p).

(** One line of the output file: [json_line + '\n'] *)
Definition post_line (p : post) : string := post_text p ++ nl.

(** The lines written for a list of posts, in the order of the list. *)
Definition post_lines (posts : list post) : string :=
  concat_all (map post_line posts).

(** The digits and the minus sign: the characters of an integer. *)
Definition is_int_char (c : ascii) : bool :=
  is_digit c || Ascii.eqb c "-".

(** [s] without the prefix [p], when it starts with it. *)
Fixpoint strip_prefix (p s : string) : option string :=
  match p, s with
  | EmptyString, _ => Some s
  | String a p', String b s' => if Ascii.eqb a b then strip_prefix p' s' else None
  | String _ _, EmptyString => None
  end.

(** How far a call of [_save_state] has got when somebody looks at the
    state file: [open(self.state_file, 'w')] has not run yet, or it has
    (and has truncated the file) and [k] chunks were written since. *)
Inductive save_point : Type :=
| BeforeOpen
| Written (k : nat).

(** The state file that a reader finds at that point of saving [st] over
    the old file, which is also what is left behind when the save is cut
    short there. *)
Definition state_file_at (pt : save_point) (old : option string)
    (st : scraper_state) : option string :=
  match pt with
  | BeforeOpen => old
  | Written k => Some (concat_all (firstn k (dump_chunks st)))
  end.

(** The save has run to its end: every chunk is written. *)
Definition save_finished (st : scraper_state) : save_point :=
  Written (List.length (dump_chunks st)).

(** *** The methods *)

Section Methods.

Variable cfg : config.
Variable env : environment.

(** [_save_state]: stamp [last_update], then open the state file for
    writing and dump the state into it; an exception is logged and
    swallowed. *)
Definition _save_state : M unit := fun w =>
  let n := count is_save (w_trace w) in
  let st := set_last_update (w_state w) (now_isoformat env n) in
  let file :=
    match state_write env n with
    | WriteOk => state_file_at (save_finished st) (w_state_file w) st
    | OpenFails => state_file_at BeforeOpen (w_state_file w) st
    | WriteFails k => state_file_at (Written k) (w_state_file w) st
    end in
  Some (tt, push (EvSave st) (with_state_file file (with_state st w))).

(** The [try] block shared by the two HTTP methods: [requests.get],
    [raise_for_status], [json]. The first exception ends the block. *)
Definition try_get_json (answer : exn + response) : exn + list post :=
  match answer with
  | inl e => inl e
  | inr resp =>
      match raise_for_status resp with
      | Some e => inl e
      | None => response_json resp
      end
  end.

(** The three [except] clauses of [_fetch_posts_by_id_range], tried in
    order: each of them logs and returns the empty list. *)
Definition fetch_except (e : exn) : list post :=
  if isinstance e RequestException then []
  else if isinstance e JSONDecodeError_class then []
  else (* except Exception *) [].

(** What [_fetch_posts_by_id_range] returns for an answer of the HTTP
    capability. *)
Definition fetch_result (answer : exn + response) : list post :=
  match try_get_json answer with
  | inr posts => posts
  | inl e => fetch_except e
  end.

Definition range_request (min_id max_id page : Z) : request :=
  GetRange min_id max_id (posts_per_page cfg) page.

(** [_fetch_posts_by_id_range(min_id, max_id, page)] *)
Definition _fetch_posts_by_id_range (min_id max_id page : Z) : M (list post) :=
  fun w =>
    let n := count is_request (w_trace w) in
    let r := range_request min_id max_id page in
    Some (fetch_result (requests_get env n r), push (EvRequest r) w).

(** [_get_highest_post_id]: the id of the first post of the newest page,
    [None] when the list is empty or anything was raised. *)
Definition highest_result (answer : exn + response) : option Z :=
  match try_get_json answer with
  | inr (p :: _) => Some (post_id p)
  | inr [] => None
  | inl _ => None
  end.

Definition _get_highest_post_id : M (option Z) :=
  fun w =>
    let n := count is_request (w_trace w) in
    Some (highest_result (requests_get env n GetLatest), push (EvRequest GetLatest) w).

(** [_append_posts_to_file(posts)]: open the output file in append mode
    and write one line per post; an exception is logged and swallowed,
    and what has reached the file before it stays: a front part of the
    lines, which may end inside a line. *)
Definition _append_posts_to_file (posts : list post) : M unit := fun w =>
  let n := count is_append (w_trace w) in
  let out :=
    match output_write env n with
    | WriteOk => w_output w ++ post_lines posts
    | OpenFails => w_output w
    | WriteFails k => w_output w ++ first_chars k (post_lines posts)
    end in
  Some (tt, push (EvAppend posts) (with_output out w)).

(** [max(post['id'] for post in posts)], for a list that is not empty. *)
Definition max_post_id (posts : list post) : Z :=
  match posts with
  | [] => 0
  | p :: rest => fold_left Z.max (map post_id rest) (post_id p)
  end.

Definition len (posts : list post) : Z := Z.of_nat (List.length posts).

(** The counters of [self.state] after a page of [posts] (lines 179 to
    185): the total grows by the length of the page, and
    [last_processed_id] moves up to the largest id of the page if that is
    larger. *)
Definition page_state (posts : list post) (st : scraper_state) : scraper_state :=
  let st1 := add_total_posts_scraped st (len posts) in
  if max_post_id posts >? last_processed_id st1
  then set_last_processed_id st1 (max_post_id posts)
  else st1.

(** The state that [_save_state] stamps and writes after that page. *)
Definition saved_page_state (posts : list post) (w : world) : scraper_state :=
  set_last_update (page_state posts (w_state w))
    (now_isoformat env (count is_save (w_trace w))).

(** Lines 176 to 188 of [_scrape_id_range]: what is done with a page that
    is not empty. The posts go to the output file first; then the
    counters of [self.state] are updated; then the state is saved. *)
Definition record_page (posts : list post) : M unit :=
  _append_posts_to_file posts ;;
  modify_state (fun st => add_total_posts_scraped st (len posts)) ;;
  st <- get_state ;;
  (if max_post_id posts >? last_processed_id st
   then modify_state (fun st => set_last_processed_id st (max_post_id posts))
   else ret tt) ;;
  _save_state.

(** The [while page <= max_pages] loop of [_scrape_id_range]. The fuel
    counts the iterations that are left. *)
Fixpoint scrape_pages (fuel : nat) (min_id max_id page posts_scraped : Z) : M Z :=
  if page <=? max_pages then
    match fuel with
    | O => out_of_fuel
    | S fuel' =>
        posts <- _fetch_posts_by_id_range min_id max_id page ;;
        match posts with
        | [] => ret posts_scraped                              (* break *)
        | _ :: _ =>
            record_page posts ;;
            let posts_scraped := posts_scraped + len posts in
            if len posts <? posts_per_page cfg
            then ret posts_scraped                             (* break *)
            else
              let page := page + 1 in
              sleep ;;
              scrape_pages fuel' min_id max_id page posts_scraped
        end
    end
  else ret posts_scraped.

(** [_scrape_id_range(min_id, max_id)] *)
Definition _scrape_id_range (min_id max_id : Z) : M Z :=
  scrape_pages (Z.to_nat max_pages) min_id max_id 1 0.

(** The [while current_min_id <= highest_id] loop of [scrape_all]. *)
Fixpoint scrape_batches (fuel : nat) (highest_id current_min_id : Z) : M unit :=
  if current_min_id <=? highest_id then
    match fuel with
    | O => out_of_fuel
    | S fuel' =>
        let current_max_id := Z.min (current_min_id + batch_size cfg - 1) highest_id in
        emit (EvBatch current_min_id current_max_id) ;;
        batch_posts <- _scrape_id_range current_min_id current_max_id ;;
        let current_min_id := current_max_id + 1 in
        modify_state (fun st => set_current_batch_start st current_min_id) ;;
        _save_state ;;
        sleep ;;
        scrape_batches fuel' highest_id current_min_id
    end
  else ret tt.

(** [scrape_all()] *)
Definition scrape_all (fuel : nat) : M unit :=
  highest_id <- _get_highest_post_id ;;
  match highest_id with
  | None => ret tt                                             (* abort *)
  | Some highest_id =>
      st <- get_state ;;
      scrape_batches fuel highest_id (checkpoint st)
  end.

(** The runs of the two loops, as relations: one rule per way through
    the loop body. [scan min_id max_id page n w k w'] is a run of the
    pagination loop that starts at [page] with [n] posts counted and ends
    with [k]; [drive highest_id current_min_id w w'] is a run of the batch
    loop. Both are shown below to be what [scrape_pages] and
    [scrape_batches] compute. *)
Inductive scan (min_id max_id : Z) : Z -> Z -> world -> Z -> world -> Prop :=
| scan_ceiling page n w :
    page > max_pages ->
    scan min_id max_id page n w n w
| scan_empty page n w w1 :
    page <= max_pages ->
    _fetch_posts_by_id_range min_id max_id page w = Some ([], w1) ->
    scan min_id max_id page n w n w1
| scan_short page n w posts w1 w2 :
    page <= max_pages ->
    _fetch_posts_by_id_range min_id max_id page w = Some (posts, w1) ->
    posts <> [] ->
    record_page posts w1 = Some (tt, w2) ->
    len posts < posts_per_page cfg ->
    scan min_id max_id page n w (n + len posts) w2
| scan_full page n w posts w1 w2 k w' :
    page <= max_pages ->
    _fetch_posts_by_id_range min_id max_id page w = Some (posts, w1) ->
    posts <> [] ->
    record_page posts w1 = Some (tt, w2) ->
    posts_per_page cfg <= len posts ->
    scan min_id max_id (page + 1) (n + len posts) (push EvSleep w2) k w' ->
    scan min_id max_id page n w k w'.

Inductive drive (highest_id : Z) : Z -> world -> world -> Prop :=
| drive_done current_min_id w :
    current_min_id > highest_id ->
    drive highest_id current_min_id w w
| drive_batch current_min_id w n w1 w2 w' :
    current_min_id <= highest_id ->
    let current_max_id := Z.min (current_min_id + batch_size cfg - 1) highest_id in
    _scrape_id_range current_min_id current_max_id
      (push (EvBatch current_min_id current_max_id) w) = Some (n, w1) ->
    _save_state
      (with_state (set_current_batch_start (w_state w1) (current_max_id + 1)) w1)
      = Some (tt, w2) ->
    drive highest_id (current_max_id + 1) (push EvSleep w2) w' ->
    drive highest_id current_min_id w w'.



(** [scrape_all()] called again and again on the same scraper. *)
Fixpoint runs (fuels : list nat) : M unit :=
  match fuels with
  | [] => ret tt
  | fuel :: rest => scrape_all fuel ;; runs rest
  end.

End Methods.

End Scraper.

Import Scraper.

(* ================================================================== *)
(** ** The statements of the specification that need words of their own *)
(* ================================================================== *)

Module Spec.

(** The windows of the Batch Driver, in the words of the specification:
    while [window_start <= max_id], the window ends at
    [min(window_start + batch_size - 1, max_id)] and the next one starts
    right after it; the driver stops when [window_start > max_id].
    [windowing batch max_id start ws final]: from [start] the windows are
    [ws], and the cursor is left at [final]. *)
Inductive windowing (batch max_id : Z) : Z -> list (Z * Z) -> Z -> Prop :=
| windowing_stop window_start :
    window_start > max_id ->
    windowing batch max_id window_start [] window_start
| windowing_next window_start ws final :
    window_start <= max_id ->
    windowing batch max_id (Z.min (window_start + batch - 1) max_id + 1) ws final ->
    windowing batch max_id window_start
      ((window_start, Z.min (window_start + batch - 1) max_id) :: ws) final.

(** The three kinds of failure of a fetch, by the step of the [try]
    block that raises: the transport ([requests.get] raises: no
    connection, a timeout), the HTTP status ([raise_for_status] raises),
    the body ([json] raises: it does not decode). *)
Inductive fetch_failure : exn + response -> Prop :=
| TransportFailure e :
    fetch_failure (inl e)
| HttpStatusFailure e body :
    fetch_failure (inr {| raise_for_status := Some e; response_json := body |})
| DecodeFailure e :
    fetch_failure (inr {| raise_for_status := None; response_json := inl e |}).

(** The answer of an upstream that has no record for the request. *)
Definition zero_records : exn + response :=
  inr {| raise_for_status := None; response_json := inr [] |}.

(** An event of the Range Scanner at work on the window [lo .. hi]: a
    fetch is for that window, and no other request and no new window
    comes in between. *)
Definition scans_window (lo hi : Z) (e : event) : Prop :=
  match e with
  | EvRequest (GetRange min_id max_id _ _) => min_id = lo /\ max_id = hi
  | EvRequest GetLatest => False
  | EvBatch _ _ => False
  | _ => True
  end.

(** The same loop, told on the trace of a run: each round announces the
    window, runs the Range Scanner over it, then saves a state whose
    [next_window_start] is [window_end + 1], then pauses. *)
Inductive rounds (batch max_id : Z) : Z -> list event -> Z -> Prop :=
| rounds_stop window_start :
    window_start > max_id ->
    rounds batch max_id window_start [] window_start
| rounds_next window_start scanned st rest final :
    window_start <= max_id ->
    Forall (scans_window window_start (Z.min (window_start + batch - 1) max_id))
           scanned ->
    checkpoint st = Z.min (window_start + batch - 1) max_id + 1 ->
    rounds batch max_id (Z.min (window_start + batch - 1) max_id + 1) rest final ->
    rounds batch max_id window_start
      (EvBatch window_start (Z.min (window_start + batch - 1) max_id)
         :: scanned ++ EvSave st :: EvSleep :: rest)%list
      final.


(** The save of [st] over the file [old] is atomic for its readers: at
    whatever point of the save a reader looks (or the save is cut short),
    the state file is the old one or the complete new one. *)
Definition atomic_save (old : option string) (st : scraper_state) : Prop :=
  forall pt : save_point,
    state_file_at pt old st = old \/
    state_file_at pt old st = Some (dump_state st).

End Spec.

Import Spec.

(* ================================================================== *)
(** ** A simulated upstream, to run the methods on concrete inputs *)
(* ================================================================== *)

Module Simulated.

(** The server holds [db], sorted by id. A range query answers with the
    posts of the range in ascending order, one page at a time; the
    unfiltered query answers with the newest post. *)
Definition in_range (lo hi : Z) (p : post) : bool :=
  (lo <=? post_id p) && (post_id p <=? hi).

Definition page_slice (limit page : Z) (l : list post) : list post :=
  firstn (Z.to_nat limit) (skipn (Z.to_nat ((page - 1) * limit)) l).

Definition serve (db : list post) (r : request) : exn + response :=
  inr {| raise_for_status := None;
         response_json :=
           inr (match r with
                | GetLatest => firstn 1 (rev db)
                | GetRange lo hi limit page =>
                    page_slice limit page (filter (in_range lo hi) db)
                end) |}.

(** A server that answers every request, and files that can always be
    written. *)
Definition reliable (db : list post) : environment :=
  {| requests_get := fun _ r => serve db r;
     now_isoformat := fun _ => "2024-05-01T12:00:00.000000";
     output_write := fun _ => WriteOk;
     state_write := fun _ => WriteOk |}.

(** A server that cannot be reached. *)
Definition unreachable : environment :=
  {| requests_get := fun _ _ => inl Timeout;
     now_isoformat := fun _ => "2024-05-01T12:00:00.000000";
     output_write := fun _ => WriteOk;
     state_write := fun _ => WriteOk |}.

(** A scraper that has just been created where there is no state file. *)
Definition fresh : world :=
  {| w_state := default_state;
     w_output := EmptyString;
     w_state_file := None;
     w_trace := [] |}.

(** Posts with the ids [1 .. n] and one more member each. *)
Definition posts_upto (n : nat) : list post :=
  map (fun i => mk_post (Z.of_nat i) [("md5", JStr "d41d8cd9")]) (seq 1 n).

(** A server with one post, and the state the scraper saves after it. *)
Definition one_post : post := mk_post 7 [("md5", JStr "d41d8cd9")].

Definition one_post_saved : scraper_state :=
  {| last_processed_id := 7;
     total_posts_scraped := 1;
     last_update := Some "2024-05-01T12:00:00.000000";
     current_batch_start := Some 1 |}.

(** The state of a run that has seen every id below [batch_start]. *)
Definition saved_at (batch_start : Z) : scraper_state :=
  {| last_processed_id := batch_start - 1;
     total_posts_scraped := batch_start - 1;
     last_update := Some "2024-05-01T12:00:00.000000";
     current_batch_start := Some batch_start |}.

(** A server that answers every range request with a full page of one
    post, whatever the page. *)
Definition endless : environment :=
  {| requests_get := fun _ _ =>
       inr {| raise_for_status := None; response_json := inr [one_post] |};
     now_isoformat := fun _ => "2024-05-01T12:00:00.000000";
     output_write := fun _ => WriteOk;
     state_write := fun _ => WriteOk |}.

(** A string between double quotes. *)
Definition quoted (s : string) : string := String dquote (s ++ str1 dquote).

End Simulated.

Import Simulated.

Local Open Scope scraper_scope.

(* ================================================================== *)
(** ** What a run leaves behind: requests, records, windows *)
(* ================================================================== *)

Module Traces.

(** The records handed to the sink in a trace, in order. *)
Fixpoint appended_posts (tr : list event) : list post :=
  match tr with
  | [] => []
  | EvAppend posts :: tr' => (posts ++ appended_posts tr')%list
  | _ :: tr' => appended_posts tr'
  end.

(** The requests sent in a trace, in order. *)
Fixpoint requests_of (tr : list event) : list request :=
  match tr with
  | [] => []
  | EvRequest r :: tr' => r :: requests_of tr'
  | _ :: tr' => requests_of tr'
  end.

(** The requests for [k] pages of a window in a row, from [page] on. *)
Fixpoint page_run (min_id max_id limit page : Z) (k : nat) : list request :=
  match k with
  | O => []
  | S k' => GetRange min_id max_id limit page
              :: page_run min_id max_id limit (page + 1) k'
  end.

(** What reaches the output file of the lines of a page, by what opening
    and writing the file does. *)
Definition written (o : write_outcome) (posts : list post) : string :=
  match o with
  | WriteOk => post_lines posts
  | OpenFails => EmptyString
  | WriteFails k => first_chars k (post_lines posts)
  end.

(** [chain batch start ws final]: the windows [ws] follow one another
    without a gap and without an overlap from [start] on, none is empty,
    none holds more than [batch] ids, and [final] is the id right after
    the last one. *)
Fixpoint chain (batch start : Z) (ws : list (Z * Z)) (final : Z) : Prop :=
  match ws with
  | [] => final = start
  | (lo, hi) :: ws' =>
      lo = start /\ lo <= hi /\ hi - lo + 1 <= batch /\
      chain batch (hi + 1) ws' final
  end.

(** The page size that a request asks for is [limit]. *)
Definition asks_for (limit : Z) (r : request) : Prop :=
  match r with
  | GetRange _ _ l _ => l = limit
  | GetLatest => True
  end.

End Traces.

Module Scenarios.

(** A server that answers, and an output file that cannot be opened. *)
Definition output_locked (db : list post) : environment :=
  {| requests_get := fun _ r => serve db r;
     now_isoformat := fun _ => "2024-05-01T12:00:00.000000";
     output_write := fun _ => OpenFails;
     state_write := fun _ => WriteOk |}.

(** A server that answers the query for the newest post and fails every
    range query with a status error. *)
Definition outage (db : list post) : environment :=
  {| requests_get := fun _ r =>
       match r with
       | GetLatest => serve db r
       | GetRange _ _ _ _ =>
           inr {| raise_for_status := Some HTTPError; response_json := inr db |}
       end;
     now_isoformat := fun _ => "2024-05-01T12:00:00.000000";
     output_write := fun _ => WriteOk;
     state_write := fun _ => WriteOk |}.

(** A server whose collection grows: the first [early] requests see
    [before], the later ones see [later]. *)
Definition growing (early : nat) (before later : list post) : environment :=
  {| requests_get := fun i r =>
       if (i <? early)%nat then serve before r else serve later r;
     now_isoformat := fun _ => "2024-05-01T12:00:00.000000";
     output_write := fun _ => WriteOk;
     state_write := fun _ => WriteOk |}.

(** A server that answers, and an output file whose every write is cut
    short after [k] characters. *)
Definition output_cut (k : nat) (db : list post) : environment :=
  {| requests_get := fun _ r => serve db r;
     now_isoformat := fun _ => "2024-05-01T12:00:00.000000";
     output_write := fun _ => WriteFails k;
     state_write := fun _ => WriteOk |}.



(** A server that answers, and a state file whose every save is cut
    short after [k] chunks. *)
Definition save_cut (k : nat) (db : list post) : environment :=
  {| requests_get := fun _ r => serve db r;
     now_isoformat := fun _ => "2024-05-01T12:00:00.000000";
     output_write := fun _ => WriteOk;
     state_write := fun _ => WriteFails k |}.

End Scenarios.

(* ================================================================== *)
(** ** Decoder: Python's json.loads *)
(* ================================================================== *)

Module Decoder.

(** What a scanner of the decoder does on the text in front of it: it
    reads a value and leaves the rest of the text, or it raises
    [json.JSONDecodeError], or the text leaves what is modelled here:
    the decoder builds a float from a number with a fraction or an
    exponent and from [NaN] and [Infinity], and which float it is is not
    modelled; an escape [\uXXXX] above 007f is not modelled either. The
    scanners of values recurse on fuel; [OutOfFuel] is no result of the
    decoder, and no statement below is about a scan that ends there. *)
Inductive decoded (A : Type) : Type :=
| Decoded (a : A) (rest : string)
| DecodeError
| Unmodelled
| OutOfFuel.

Arguments Decoded {A} a rest.
Arguments DecodeError {A}.
Arguments Unmodelled {A}.
Arguments OutOfFuel {A}.

Definition and_then {A B : Type} (d : decoded A) (k : A -> string -> decoded B)
  : decoded B :=
  match d with
  | Decoded a rest => k a rest
  | DecodeError => DecodeError
  | Unmodelled => Unmodelled
  | OutOfFuel => OutOfFuel
  end.

(** [WHITESPACE.match(s, end).end()]: past blanks, tabs, line feeds and
    carriage returns. *)
Fixpoint skip_ws (s : string) : string :=
  match s with
  | String c s' => if is_ws c then skip_ws s' else s
  | EmptyString => EmptyString
  end.

Definition hex_value (c : ascii) : option nat :=
  let n := nat_of_ascii c in
  if ((48 <=? n) && (n <=? 57))%nat then Some (n - 48)%nat
  else if ((97 <=? n) && (n <=? 102))%nat then Some (n - 87)%nat
  else if ((65 <=? n) && (n <=? 70))%nat then Some (n - 55)%nat
  else None.

(** [BACKSLASH]: the character that a two-character escape stands for. *)
Definition unescape (c : ascii) : option ascii :=
  let n := nat_of_ascii c in
  if (n =? 34)%nat then Some dquote
  else if (n =? 92)%nat then Some backslash
  else if (n =? 47)%nat then Some "/"%char
  else if (n =? 98)%nat then Some (ascii_of_nat 8)
  else if (n =? 102)%nat then Some (ascii_of_nat 12)
  else if (n =? 110)%nat then Some (ascii_of_nat 10)
  else if (n =? 114)%nat then Some (ascii_of_nat 13)
  else if (n =? 116)%nat then Some (ascii_of_nat 9)
  else None.

Definition cons_char (c : ascii) (d : decoded string) : decoded string :=
  and_then d (fun s rest => Decoded (String c s) rest).

(** [scanstring(s, end)], with [strict] on, from the character after the
    opening quote: up to the closing quote, with the escapes replaced; a
    control character, an unknown escape or the end of the text raise. *)
Fixpoint scan_string (s : string) : decoded string :=
  match s with
  | EmptyString => DecodeError
  | String c s' =>
      if Ascii.eqb c dquote then Decoded EmptyString s'
      else if Ascii.eqb c backslash then
        match s' with
        | EmptyString => DecodeError
        | String e s'' =>
            if Ascii.eqb e "u" then
              match s'' with
              | String h1 (String h2 (String h3 (String h4 s4))) =>
                  match hex_value h1, hex_value h2, hex_value h3, hex_value h4 with
                  | Some a, Some b, Some c3, Some d =>
                      let code := (4096 * a + 256 * b + 16 * c3 + d)%nat in
                      if (code <? 128)%nat
                      then cons_char (ascii_of_nat code) (scan_string s4)
                      else Unmodelled
                  | _, _, _, _ => DecodeError
                  end
              | _ => DecodeError
              end
            else
              match unescape e with
              | Some ch => cons_char ch (scan_string s'')
              | None => DecodeError
              end
        end
      else if (nat_of_ascii c <? 32)%nat then DecodeError
      else cons_char c (scan_string s')
  end.

Fixpoint take_digits (s : string) : string :=
  match s with
  | String c s' => if is_digit c then String c (take_digits s') else EmptyString
  | EmptyString => EmptyString
  end.

Fixpoint drop_digits (s : string) : string :=
  match s with
  | String c s' => if is_digit c then drop_digits s' else s
  | EmptyString => EmptyString
  end.

Definition starts_with_digit (s : string) : bool :=
  match s with
  | String c _ => is_digit c
  | EmptyString => false
  end.

(** The text goes on with a fraction ([.] and a digit) or with an
    exponent ([e] or [E], a sign or none, and a digit): the number is a
    float. *)
Definition goes_on_as_float (s : string) : bool :=
  match s with
  | String c s' =>
      if Ascii.eqb c "." then starts_with_digit s'
      else if Ascii.eqb c "e" || Ascii.eqb c "E" then
        match s' with
        | String d s'' =>
            if Ascii.eqb d "+" || Ascii.eqb d "-"
            then starts_with_digit s''
            else is_digit d
        | EmptyString => false
        end
      else false
  | EmptyString => false
  end.

Definition finish_number (digits rest : string) : decoded json :=
  if goes_on_as_float rest then Unmodelled
  else match NilZero.int_of_string digits with
       | Some d => Decoded (JInt (Z.of_int d)) rest
       | None => DecodeError
       end.

(** The integer part of [NUMBER_RE], without the sign: a zero, or a digit
    from 1 to 9 and then digits. *)
Definition scan_digits (sign s : string) : decoded json :=
  match s with
  | String c s' =>
      if Ascii.eqb c "0" then finish_number (sign ++ "0") s'
      else if is_digit19 c
           then finish_number (sign ++ String c (take_digits s')) (drop_digits s')
           else DecodeError
  | EmptyString => DecodeError
  end.

(** [strip_prefix] of the decoder's literals. *)
Definition literal (word : string) (v : json) (s : string) : decoded json :=
  match strip_prefix word s with
  | Some rest => Decoded v rest
  | None => DecodeError
  end.

Definition float_literal (word s : string) : decoded json :=
  match strip_prefix word s with
  | Some _ => Unmodelled
  | None => DecodeError
  end.

Definition scan_number (s : string) : decoded json :=
  match s with
  | String c s' =>
      if Ascii.eqb c "-" then
        match s' with
        | String d _ =>
            if is_digit d then scan_digits "-" s' else float_literal "Infinity" s'
        | EmptyString => DecodeError
        end
      else scan_digits EmptyString s
  | EmptyString => DecodeError
  end.

(** [dict(pairs)]: a key that comes again keeps its place and takes the
    new value. *)
Fixpoint dict_set (k : string) (v : json) (d : list (string * json))
  : list (string * json) :=
  match d with
  | [] => [(k, v)]
  | (k', v') :: d' =>
      if String.eqb k k' then (k, v) :: d' else (k', v') :: dict_set k v d'
  end.

Definition dict_of_pairs (pairs : list (string * json)) : list (string * json) :=
  fold_left (fun d kv => dict_set (fst kv) (snd kv) d) pairs [].

(** [scan_once], [JSONArray] and [JSONObject]. [scan_elements] stands at
    the first character of an item, [scan_members] at the opening quote
    of a key. *)
Fixpoint scan_value (fuel : nat) (s : string) : decoded json :=
  match fuel with
  | O => OutOfFuel
  | S fuel' =>
      match s with
      | EmptyString => DecodeError
      | String c s' =>
          if Ascii.eqb c dquote then
            and_then (scan_string s') (fun k rest => Decoded (JStr k) rest)
          else if Ascii.eqb c "{" then
            match skip_ws s' with
            | String d s'' =>
                if Ascii.eqb d "}" then Decoded (JObj []) s''
                else if Ascii.eqb d dquote then
                  and_then (scan_members fuel' (String d s''))
                    (fun pairs rest => Decoded (JObj (dict_of_pairs pairs)) rest)
                else DecodeError
            | EmptyString => DecodeError
            end
          else if Ascii.eqb c "[" then
            match skip_ws s' with
            | String d s'' =>
                if Ascii.eqb d "]" then Decoded (JArr []) s''
                else and_then (scan_elements fuel' (String d s''))
                       (fun items rest => Decoded (JArr items) rest)
            | EmptyString => DecodeError
            end
          else if Ascii.eqb c "n" then literal "ull" JNull s'
          else if Ascii.eqb c "t" then literal "rue" (JBool true) s'
          else if Ascii.eqb c "f" then literal "alse" (JBool false) s'
          else if Ascii.eqb c "N" then float_literal "aN" s'
          else if Ascii.eqb c "I" then float_literal "nfinity" s'
          else scan_number s
      end
  end

with scan_elements (fuel : nat) (s : string) : decoded (list json) :=
  match fuel with
  | O => OutOfFuel
  | S fuel' =>
      and_then (scan_value fuel' s) (fun v rest =>
        match skip_ws rest with
        | String c rest' =>
            if Ascii.eqb c "]" then Decoded [v] rest'
            else if Ascii.eqb c "," then
              and_then (scan_elements fuel' (skip_ws rest'))
                (fun items rest'' => Decoded (v :: items) rest'')
            else DecodeError
        | EmptyString => DecodeError
        end)
  end

with scan_members (fuel : nat) (s : string) : decoded (list (string * json)) :=
  match fuel with
  | O => OutOfFuel
  | S fuel' =>
      match s with
      | String q s1 =>
          if Ascii.eqb q dquote then
            and_then (scan_string s1) (fun k rest =>
              match skip_ws rest with
              | String c rest1 =>
                  if Ascii.eqb c ":" then
                    and_then (scan_value fuel' (skip_ws rest1)) (fun v rest2 =>
                      match skip_ws rest2 with
                      | String d rest3 =>
                          if Ascii.eqb d "}" then Decoded [(k, v)] rest3
                          else if Ascii.eqb d "," then
                            and_then (scan_members fuel' (skip_ws rest3))
                              (fun pairs rest4 => Decoded ((k, v) :: pairs) rest4)
                          else DecodeError
                      | EmptyString => DecodeError
                      end)
                  else DecodeError
              | EmptyString => DecodeError
              end)
          else DecodeError
      | EmptyString => DecodeError
      end
  end.

(** The byte order mark that [json.loads] refuses. *)
Definition bom : string :=
  String (ascii_of_nat 239) (String (ascii_of_nat 187) (str1 (ascii_of_nat 191))).

(** What [json.loads] and [json.load] do with a text: a value, an
    exception, or neither when the text leaves the model. *)
Inductive outcome : Type :=
| Value (v : json)
| Raises
| NotModelled.

(** [json.loads(s)]: a byte order mark raises; blanks around the value
    are skipped; anything after it raises. A call of a scanner of values
    reads at least one character, and the fuel is above twice the length
    of the text. *)
Definition loads (s : string) : outcome :=
  match strip_prefix bom s with
  | Some _ => Raises
  | None =>
      match scan_value (2 * String.length s + 2) (skip_ws s) with
      | Decoded v rest =>
          match skip_ws rest with
          | EmptyString => Value v
          | String _ _ => Raises
          end
      | DecodeError => Raises
      | Unmodelled => NotModelled
      | OutOfFuel => NotModelled
      end
  end.

(** *** What the decoder reads back *)

(** The text after a value lets the value end there: it is empty, or it
    goes on with a comma, a closing bracket or brace, or white space. *)
Definition delimited (rest : string) : bool :=
  match rest with
  | EmptyString => true
  | String c _ =>
      is_ws c || Ascii.eqb c "," || Ascii.eqb c "]" || Ascii.eqb c "}"
  end.

Fixpoint distinct (ks : list string) : bool :=
  match ks with
  | [] => true
  | k :: rest => negb (existsb (String.eqb k) rest) && distinct rest
  end.

(** A value that the decoder reads back: no dict in it has a key twice,
    as in every dict of a Python program, and no number in it is a
    float. *)
Fixpoint is_value (v : json) : bool :=
  match v with
  | JFloat _ => false
  | JArr items => forallb is_value items
  | JObj members =>
      distinct (map fst members)
      && forallb (fun kv : string * json => is_value (snd kv)) members
  | _ => true
  end.

(** The fuel that reading a value back takes. *)
Fixpoint weight (v : json) : nat :=
  match v with
  | JArr items => S (fold_right (fun x n => S (weight x + n)) O items)
  | JObj members =>
      S (fold_right (fun (kv : string * json) n => S (weight (snd kv) + n)) O members)
  | _ => 1
  end.

(** One member of a dict as [dumps] writes it. *)
Definition member_text (kv : string * json) : string :=
  encode_basestring (fst kv) ++ ": " ++ dumps (snd kv).

(** Reading back what [dumps] wrote for [v], whatever comes after it. *)
Definition reads_back (v : json) : Prop :=
  forall fuel rest,
    (weight v <= fuel)%nat -> delimited rest = true ->
    scan_value fuel (dumps v ++ rest) = Decoded v rest.

Definition weight_items (items : list json) : nat :=
  fold_right (fun x n => S (weight x + n)) O items.

Definition weight_members (members : list (string * json)) : nat :=
  fold_right (fun (kv : string * json) n => S (weight (snd kv) + n)) O members.

(** What [scan_members] does with the text after the value of a member:
    a closing brace ends the dict, a comma goes on with the next key. *)
Definition after_member (fuel : nat) (kv : string * json) (tail : string)
  : decoded (list (string * json)) :=
  match skip_ws tail with
  | String d rest3 =>
      if Ascii.eqb d "}" then Decoded [kv] rest3
      else if Ascii.eqb d "," then
        and_then (scan_members fuel (skip_ws rest3))
          (fun pairs rest4 => Decoded (kv :: pairs) rest4)
      else DecodeError
  | EmptyString => DecodeError
  end.

End Decoder.

(* ================================================================== *)
(** ** Starting again from the state file *)
(* ================================================================== *)

Module Resume.

Import Decoder.

(** The dict that [_load_state] returns when it has nothing to load. *)
Definition default_dict : json := JObj (state_members default_state).

(** [_load_state]: when the state file exists, [json.load] reads it and
    the value is returned as it is; an exception is logged and the
    default state is returned, as it is when there is no file. [None]:
    the text of the file leaves what [loads] models. *)
Definition _load_state (state_file : option string) : option json :=
  match state_file with
  | None => Some default_dict
  | Some text =>
      match loads text with
      | Value state => Some state
      | Raises => Some default_dict
      | NotModelled => None
      end
  end.

Definition time_of (v : json) : option (option string) :=
  match v with
  | JNull => Some None
  | JStr t => Some (Some t)
  | _ => None
  end.

(** The record that stands for a state dict: the dicts with the keys of
    [state_members], in that order, and values of the types the engine
    writes. *)
Definition state_of_dict (v : json) : option scraper_state :=
  match v with
  | JObj ((k1, JInt a) :: (k2, JInt b) :: (k3, u) :: rest) =>
      if String.eqb k1 "last_processed_id"
         && String.eqb k2 "total_posts_scraped"
         && String.eqb k3 "last_update"
      then
        match time_of u, rest with
        | Some t, [] => Some (mk_state a b t None)
        | Some t, [(k4, JInt c)] =>
            if String.eqb k4 "current_batch_start"
            then Some (mk_state a b t (Some c))
            else None
        | _, _ => None
        end
      else None
  | _ => None
  end.

(** [DanbooruScraper(...)] in a new process: the files and what has
    happened so far stay, [self.state] is what [_load_state] returns. *)
Definition resume (w : world) : option world :=
  match _load_state (w_state_file w) with
  | Some v =>
      match state_of_dict v with
      | Some st => Some (with_state st w)
      | None => None
      end
  | None => None
  end.

End Resume.

(* ================================================================== *)
(** ** analyze_posts.py: reading the output file *)
(* ================================================================== *)

Module Analysis.

Import Decoder.











End Analysis.


(* ================================================================== *)
(** ** What a reader of the two files finds *)
(* ================================================================== *)

Module Observed.

Import Decoder Resume Analysis.








End Observed.


(* ================================================================== *)
(** ** The model at work on concrete inputs *)
(* ================================================================== *)

Example post_text_example :
  post_text (mk_post 5 [("score", JInt (-3)); ("tags", JArr [JStr "a"; JNull])])
  = "{" ++ quoted "id" ++ ": 5, " ++ quoted "score" ++ ": -3, "
        ++ quoted "tags" ++ ": [" ++ quoted "a" ++ ", null]}".
Proof. reflexivity. Qed.

Example escape_example :
  escape ("a" ++ nl ++ str1 dquote ++ String (ascii_of_nat 1) "b")
  = "a" ++ String backslash "n" ++ String backslash (str1 dquote)
        ++ String backslash "u0001b".
Proof. reflexivity. Qed.

Example dump_state_example :
  dump_state default_state
  = "{" ++ nl
        ++ "  " ++ quoted "last_processed_id" ++ ": 0," ++ nl
        ++ "  " ++ quoted "total_posts_scraped" ++ ": 0," ++ nl
        ++ "  " ++ quoted "last_update" ++ ": null," ++ nl
        ++ "  " ++ quoted "current_batch_start" ++ ": 1" ++ nl
        ++ "}".
Proof. reflexivity. Qed.

Example init_caps_page_size : posts_per_page (init 500 1000) = 200.
Proof. reflexivity. Qed.

(** The end-to-end scenario of the specification: 250 posts upstream,
    windows of 100 ids, pages of 50 posts. *)
Example scenario_250 :
  option_map
    (fun r : unit * world =>
       let w := snd r in
       (windows_of (w_trace w), count is_fetch (w_trace w),
        w_state w, count_char newline (w_output w)))
    (scrape_all (init 50 100) (reliable (posts_upto 250)) 3 fresh)
  = Some ([(1, 100); (101, 200); (201, 250)], 8%nat,
          {| last_processed_id := 250;
             total_posts_scraped := 250;
             last_update := Some "2024-05-01T12:00:00.000000";
             current_batch_start := Some 251 |},
          250%nat).
Proof. vm_compute. reflexivity. Qed.

(** The ceiling on pages is reached when every page is full. *)
Example ceiling_is_reached :
  option_map
    (fun r : Z * world => (fst r, count is_fetch (w_trace (snd r))))
    (_scrape_id_range (init 1 100) endless 1 100 fresh)
  = Some (1000, 1000%nat).
Proof. vm_compute. reflexivity. Qed.

(** A batch size that is not positive: the loop makes no progress, and
    any amount of fuel runs out. *)
Example no_progress_without_a_batch :
  scrape_all (init 50 0) (reliable (posts_upto 3)) 40 fresh = None.
Proof. vm_compute. reflexivity. Qed.

(* ================================================================== *)
(** ** Facts on strings, and on the text the encoder writes *)
(* ================================================================== *)

(** *** Facts on strings *)

Lemma append_nil_r (s : string) : s ++ EmptyString = s.
Proof. induction s as [|c s IH]; [reflexivity|]. cbn. rewrite IH. reflexivity. Qed.

Lemma append_assoc (a b c : string) : (a ++ b) ++ c = a ++ (b ++ c).
Proof. induction a as [|x a IH]; [reflexivity|]. cbn. rewrite IH. reflexivity. Qed.

Lemma length_append (a b : string) :
  String.length (a ++ b) = (String.length a + String.length b)%nat.
Proof. induction a as [|x a IH]; [reflexivity|]. cbn. rewrite IH. reflexivity. Qed.

Lemma occurs_append c (a b : string) : occurs c (a ++ b) = occurs c a || occurs c b.
Proof.
  induction a as [|x a IH]; [reflexivity|]. cbn. rewrite IH. apply orb_assoc.
Qed.



Lemma concat_all_app (l1 l2 : list string) :
  concat_all (l1 ++ l2) = concat_all l1 ++ concat_all l2.
Proof.
  induction l1 as [|c l1 IH]; [reflexivity|]. cbn. rewrite IH, append_assoc. reflexivity.
Qed.

(** A line without a line feed, then the line feed, then the rest. *)
Lemma split_lines_aux_line (line : string) : forall cur rest,
  occurs newline line = false ->
  split_lines_aux cur (line ++ nl ++ rest) =
  (let (ls, r) := split_lines_aux EmptyString rest in ((cur ++ line) :: ls, r)).
Proof.
  induction line as [|c line IH]; intros cur rest H.
  - cbn. rewrite append_nil_r. reflexivity.
  - cbn [occurs] in H. apply orb_false_iff in H. destruct H as [H1 H2].
    cbn [append split_lines_aux]. rewrite Ascii.eqb_sym, H1.
    rewrite IH by exact H2. rewrite append_assoc. reflexivity.
Qed.


(** *** The encoder writes no line feed *)

Lemma uint_no_newline u : occurs newline (NilEmpty.string_of_uint u) = false.
Proof. induction u; cbn; auto. Qed.

Lemma int_str_no_newline n : occurs newline (int_str n) = false.
Proof.
  unfold int_str. destruct (Z.to_int n) as [u|u]; cbn.
  - destruct u; try apply uint_no_newline; reflexivity.
  - destruct u; try (cbn; apply uint_no_newline); reflexivity.
Qed.

Lemma escape_char_no_newline c : occurs newline (escape_char c) = false.
Proof. destruct c as [[] [] [] [] [] [] [] []]; reflexivity. Qed.

Lemma escape_no_newline s : occurs newline (escape s) = false.
Proof.
  induction s as [|c s IH]; [reflexivity|].
  cbn [escape]. rewrite occurs_append, escape_char_no_newline, IH. reflexivity.
Qed.

Lemma encode_basestring_no_newline s : occurs newline (encode_basestring s) = false.
Proof.
  unfold encode_basestring. cbn [occurs].
  rewrite occurs_append, escape_no_newline. reflexivity.
Qed.

Lemma join_no_newline (parts : list string) :
  Forall (fun p => occurs newline p = false) parts ->
  occurs newline (join ", " parts) = false.
Proof.
  induction 1 as [|p parts Hp _ IH]; [reflexivity|].
  destruct parts as [|q parts]; [exact Hp|].
  change (join ", " (p :: q :: parts)) with (p ++ ", " ++ join ", " (q :: parts)).
  rewrite !occurs_append, Hp, IH. reflexivity.
Qed.

Lemma float_str_no_newline f : occurs newline (float_str f) = false.
Proof.
  destruct f as [| [] | negative int_part frac exp]; try reflexivity.
  cbn [float_str]. rewrite !occurs_append, int_str_no_newline.
  assert (F : occurs newline
                match frac with
                | Decimal.Nil => EmptyString
                | _ => "." ++ NilEmpty.string_of_uint frac
                end = false).
  { destruct frac; try reflexivity;
      rewrite occurs_append, uint_no_newline; reflexivity. }
  assert (E : occurs newline
                match exp with
                | Some e => exp_str e
                | None => EmptyString
                end = false).
  { destruct exp as [e|]; [|reflexivity]. unfold exp_str.
    rewrite !occurs_append, int_str_no_newline.
    destruct (e <? 0), (Z.abs e <? 10); reflexivity. }
  rewrite F, E. destruct negative; reflexivity.
Qed.

Lemma dumps_no_newline v : occurs newline (dumps v) = false.
Proof.
  induction v as [| b | n | f | s | items IH | members IH] using json_ind.
  - reflexivity.
  - destruct b; reflexivity.
  - apply int_str_no_newline.
  - apply float_str_no_newline.
  - apply encode_basestring_no_newline.
  - cbn [dumps]. rewrite !occurs_append, join_no_newline; [reflexivity|].
    apply Forall_map. exact IH.
  - cbn [dumps]. rewrite !occurs_append, join_no_newline; [reflexivity|].
    apply Forall_map. eapply Forall_impl; [|exact IH].
    intros [k x] H. cbn [snd] in H.
    rewrite !occurs_append, encode_basestring_no_newline, H. reflexivity.
Qed.

(** *** The lines of the output file *)

Lemma split_lines_post_lines (posts : list post) :
  split_lines (post_lines posts) =
  (map post_text posts, EmptyString).
Proof.
  unfold split_lines, post_lines.
  induction posts as [|p posts IH]; [reflexivity|].
  cbn [map concat_all]. unfold post_line at 1. rewrite append_assoc.
  rewrite split_lines_aux_line by apply dumps_no_newline.
  rewrite IH. reflexivity.
Qed.


Lemma post_lines_app (a b : list post) :
  post_lines (a ++ b) = post_lines a ++ post_lines b.
Proof. unfold post_lines. rewrite List.map_app. apply concat_all_app. Qed.

(** *** The encoder writes JSON *)



Lemma nzhead_fixed_trimmed u :
  u <> Decimal.Nil -> Decimal.nzhead u = u -> trimmed u.
Proof.
  intros Hn H. split; [exact Hn|]. intros u' ->.
  exfalso. exact (nzhead_nonzero _ _ H).
Qed.

Lemma to_int_norm n : Decimal.norm (Z.to_int n) = Z.to_int n.
Proof. rewrite <- DecimalZ.to_of, DecimalZ.of_to. reflexivity. Qed.

Lemma unorm_fixed_trimmed u : Decimal.unorm u = u -> trimmed u.
Proof.
  intros H. unfold Decimal.unorm in H.
  destruct (Decimal.nzhead u) eqn:E; subst u;
    try (split; [discriminate | intros u' E'; discriminate]).
  - split; [discriminate|]. intros u' E'. inversion E'. reflexivity.
  - exfalso. exact (nzhead_nonzero _ _ E).
Qed.

Lemma to_int_trimmed n :
  match Z.to_int n with
  | Decimal.Pos u => trimmed u
  | Decimal.Neg u => trimmed u
  end.
Proof.
  pose proof (to_int_norm n) as H.
  destruct (Z.to_int n) as [u|u]; cbn [Decimal.norm] in H.
  - apply unorm_fixed_trimmed. inversion H as [H']. rewrite H'. exact H'.
  - destruct (Decimal.nzhead u) eqn:E; try discriminate;
      inversion H as [H']; subst u; apply nzhead_fixed_trimmed;
      try discriminate; exact E.
Qed.

Lemma string_of_trimmed u : trimmed u -> NilZero.string_of_uint u = NilEmpty.string_of_uint u.
Proof. intros [Hn _]. destruct u; try reflexivity. congruence. Qed.















(** *** Prefixes, and integers read back *)

Lemma strip_prefix_append (p s : string) : strip_prefix p (p ++ s) = Some s.
Proof.
  induction p as [|c p IH]; [destruct s; reflexivity|].
  cbn [append strip_prefix]. rewrite Ascii.eqb_refl. exact IH.
Qed.

Lemma int_of_int_str n : NilZero.int_of_string (int_str n) = Some (Z.to_int n).
Proof.
  unfold int_str. apply NilZero.isi; intros E;
    pose proof (to_int_trimmed n) as T; rewrite E in T; destruct T as [T _];
    congruence.
Qed.

(* ================================================================== *)
(** ** Facts on the Range Scanner *)
(* ================================================================== *)

Section ScannerFacts.

Variable cfg : config.
Variable env : environment.

Lemma fetch_eq min_id max_id page w :
  _fetch_posts_by_id_range cfg env min_id max_id page w =
  Some (fetch_result (requests_get env (count is_request (w_trace w))
                        (range_request cfg min_id max_id page)),
        push (EvRequest (range_request cfg min_id max_id page)) w).
Proof. reflexivity. Qed.

Lemma record_page_eq posts w :
  record_page env posts w =
  _save_state env
    (with_state (page_state posts (w_state w))
       (push (EvAppend posts)
          (with_output
             (match output_write env (count is_append (w_trace w)) with
              | WriteOk => w_output w ++ post_lines posts
              | OpenFails => w_output w
              | WriteFails k => w_output w ++ first_chars k (post_lines posts)
              end) w))).
Proof.
  unfold record_page, bind, _append_posts_to_file, modify_state, get_state, page_state.
  cbn [w_state push with_output with_state].
  destruct (max_post_id posts >? _); reflexivity.
Qed.

Lemma scrape_pages_scan fuel : forall min_id max_id page n w k w',
  scrape_pages cfg env fuel min_id max_id page n w = Some (k, w') ->
  scan cfg env min_id max_id page n w k w'.
Proof.
  induction fuel as [|fuel IH]; intros min_id max_id page n w k w' H; simpl in H.
  - destruct (page <=? max_pages) eqn:E.
    + discriminate.
    + inversion H; subst. apply scan_ceiling. apply Z.leb_gt in E. lia.
  - destruct (page <=? max_pages) eqn:E.
    + apply Z.leb_le in E.
      unfold bind in H at 1. rewrite fetch_eq in H.
      destruct (fetch_result _) as [|p ps] eqn:F.
      * inversion H; subst. apply scan_empty; auto. rewrite fetch_eq, F. reflexivity.
      * unfold bind in H at 1.
        destruct (record_page env (p :: ps) _) as [[[] w2]|] eqn:R; [|discriminate].
        destruct (len (p :: ps) <? posts_per_page cfg) eqn:L.
        -- inversion H; subst. eapply scan_short; eauto.
           ++ rewrite fetch_eq, F. reflexivity.
           ++ discriminate.
           ++ apply Z.ltb_lt in L. exact L.
        -- unfold bind in H at 1. unfold sleep, emit in H.
           eapply scan_full; eauto.
           ++ rewrite fetch_eq, F. reflexivity.
           ++ discriminate.
           ++ apply Z.ltb_ge in L. exact L.
    + inversion H; subst. apply scan_ceiling. apply Z.leb_gt in E. lia.
Qed.

Lemma count_app f tr1 tr2 :
  count f (tr1 ++ tr2) = (count f tr1 + count f tr2)%nat.
Proof. unfold count. rewrite List.filter_app, List.length_app. reflexivity. Qed.

(** [record_page] always returns; it adds the append and then the save to
    the trace, and leaves the saved state in memory. *)
Lemma record_page_run posts w :
  exists w2,
    record_page env posts w = Some (tt, w2) /\
    w_trace w2 = (w_trace w ++ [EvAppend posts; EvSave (saved_page_state env posts w)])%list /\
    w_state w2 = saved_page_state env posts w.
Proof.
  rewrite record_page_eq. unfold _save_state.
  eexists. split; [reflexivity|].
  cbn [w_trace w_state push with_state with_state_file with_output].
  unfold saved_page_state.
  rewrite count_app. cbn [count filter is_save List.length].
  rewrite Nat.add_0_r, <- List.app_assoc. split; reflexivity.
Qed.

Lemma scrape_pages_stop fuel min_id max_id page n w :
  page > max_pages ->
  scrape_pages cfg env fuel min_id max_id page n w = Some (n, w).
Proof.
  intros H. destruct fuel; simpl;
    replace (page <=? max_pages) with false by (symmetry; apply Z.leb_gt; lia);
    reflexivity.
Qed.

Lemma scrape_pages_step fuel min_id max_id page n w :
  page <= max_pages ->
  scrape_pages cfg env (S fuel) min_id max_id page n w =
  match fetch_result (requests_get env (count is_request (w_trace w))
                        (range_request cfg min_id max_id page)) with
  | [] => Some (n, push (EvRequest (range_request cfg min_id max_id page)) w)
  | p :: ps =>
      match record_page env (p :: ps)
              (push (EvRequest (range_request cfg min_id max_id page)) w) with
      | Some (_, w2) =>
          if len (p :: ps) <? posts_per_page cfg
          then Some (n + len (p :: ps), w2)
          else scrape_pages cfg env fuel min_id max_id (page + 1) (n + len (p :: ps))
                 (push EvSleep w2)
      | None => None
      end
  end.
Proof.
  intros H. simpl.
  replace (page <=? max_pages) with true by (symmetry; apply Z.leb_le; lia).
  unfold bind at 1. rewrite fetch_eq.
  destruct (fetch_result _) as [|p ps]; [reflexivity|].
  unfold bind at 1.
  destruct (record_page env (p :: ps) _) as [[[] w2]|]; [|reflexivity].
  destruct (len (p :: ps) <? posts_per_page cfg); reflexivity.
Qed.

(** With one unit of fuel per page that is left, the loop returns. *)
Lemma scrape_pages_total fuel : forall min_id max_id page n w,
  max_pages + 1 - page <= Z.of_nat fuel ->
  exists k w', scrape_pages cfg env fuel min_id max_id page n w = Some (k, w').
Proof.
  induction fuel as [|fuel IH]; intros min_id max_id page n w Hf.
  - rewrite scrape_pages_stop by lia. eauto.
  - destruct (Z_le_gt_dec page max_pages) as [Hp|Hp].
    + rewrite scrape_pages_step by exact Hp.
      destruct (fetch_result _) as [|p ps]; [eauto|].
      destruct (record_page_run (p :: ps)
                  (push (EvRequest (range_request cfg min_id max_id page)) w))
        as (w2 & -> & _).
      destruct (len (p :: ps) <? posts_per_page cfg); [eauto|].
      apply IH. lia.
    + rewrite scrape_pages_stop by exact Hp. eauto.
Qed.

Lemma _scrape_id_range_total min_id max_id w :
  exists k w', _scrape_id_range cfg env min_id max_id w = Some (k, w').
Proof.
  unfold _scrape_id_range. apply scrape_pages_total.
  unfold max_pages. rewrite Z2Nat.id; lia.
Qed.

Lemma fetch_inv min_id max_id page w posts w1 :
  _fetch_posts_by_id_range cfg env min_id max_id page w = Some (posts, w1) ->
  w1 = push (EvRequest (range_request cfg min_id max_id page)) w.
Proof. rewrite fetch_eq. intros H. inversion H. reflexivity. Qed.

Lemma record_page_inv posts w w2 :
  record_page env posts w = Some (tt, w2) ->
  w_trace w2 = (w_trace w ++ [EvAppend posts; EvSave (saved_page_state env posts w)])%list /\
  w_state w2 = saved_page_state env posts w.
Proof.
  intros H. destruct (record_page_run posts w) as (w2' & H' & T & S).
  rewrite H in H'. inversion H'. subst. auto.
Qed.

End ScannerFacts.

(** Induction on a run of the pagination loop, with the fetch of each
    round and what was done with its page turned into equations on the
    worlds. *)
Ltac scan_cases :=
  induction 1 as [page n w Hp | page n w w1 Hp F | page n w posts w1 w2 Hp F Hne R Hl
                 | page n w posts w1 w2 k w' Hp F Hne R Hl _ IH];
  [ | apply fetch_inv in F; subst w1
    | apply fetch_inv in F; subst w1; apply record_page_inv in R; destruct R as [T S]
    | apply fetch_inv in F; subst w1; apply record_page_inv in R; destruct R as [T S] ].

Lemma max_pages_fuel : Z.to_nat max_pages = S (Z.to_nat (max_pages - 1)).
Proof. reflexivity. Qed.

Section ScanInvariants.

Variable cfg : config.
Variable env : environment.

(** The fetches of a run of the pagination loop: at most one per page
    from [page] to the ceiling, and no other request. *)
Lemma scan_fetches min_id max_id page n w k w' :
  scan cfg env min_id max_id page n w k w' ->
  exists added,
    w_trace w' = (w_trace w ++ added)%list /\
    Z.of_nat (count is_fetch added) <= Z.max 0 (max_pages + 1 - page) /\
    count is_request added = count is_fetch added /\
    (page <= max_pages -> (1 <= count is_fetch added)%nat).
Proof.
  scan_cases.
  - exists []. rewrite List.app_nil_r. cbn [count filter List.length]. repeat split; lia.
  - exists [EvRequest (range_request cfg min_id max_id page)].
    cbn [push w_trace count filter is_fetch is_request List.length range_request]. repeat split; lia.
  - exists [EvRequest (range_request cfg min_id max_id page); EvAppend posts;
            EvSave (saved_page_state env posts
                      (push (EvRequest (range_request cfg min_id max_id page)) w))].
    rewrite T. cbn [push w_trace]. rewrite <- List.app_assoc.
    cbn [app count filter is_fetch is_request List.length range_request]. repeat split; lia.
  - destruct IH as (added & Ta & Hc & Hr & _).
    exists ([EvRequest (range_request cfg min_id max_id page); EvAppend posts;
             EvSave (saved_page_state env posts
                       (push (EvRequest (range_request cfg min_id max_id page)) w));
             EvSleep] ++ added)%list.
    rewrite Ta. cbn [push w_trace]. rewrite T. cbn [push w_trace].
    rewrite <- !List.app_assoc. split; [reflexivity|].
    rewrite !count_app. cbn [count filter is_fetch is_request List.length range_request].
    repeat split; lia.
Qed.

End ScanInvariants.

Lemma appended_count_app tr1 tr2 :
  appended_count (tr1 ++ tr2) = appended_count tr1 + appended_count tr2.
Proof.
  induction tr1 as [|e tr1 IH]; [reflexivity|].
  destruct e; cbn [app appended_count]; rewrite IH; lia.
Qed.

Lemma appended_ids_app tr1 tr2 :
  appended_ids (tr1 ++ tr2) = (appended_ids tr1 ++ appended_ids tr2)%list.
Proof.
  induction tr1 as [|e tr1 IH]; [reflexivity|].
  destruct e; cbn [app appended_ids]; rewrite IH; try reflexivity.
  apply List.app_assoc.
Qed.

Lemma backed_app tr1 : forall total last tr2,
  backed total last (tr1 ++ tr2) <->
  backed total last tr1 /\
  backed (total + appended_count tr1)
         (fold_left Z.max (appended_ids tr1) last) tr2.
Proof.
  induction tr1 as [|e tr1 IH]; intros total last tr2.
  - cbn [app backed appended_count appended_ids fold_left].
    rewrite Z.add_0_r. tauto.
  - destruct e; cbn [app backed appended_count appended_ids]; rewrite ?IH;
      try tauto.
    rewrite List.fold_left_app, Z.add_assoc. tauto.
Qed.

Lemma backed_split pre : forall total last tr st post,
  backed total last tr ->
  tr = (pre ++ EvSave st :: post)%list ->
  total_posts_scraped st = total + appended_count pre /\
  last_processed_id st = fold_left Z.max (appended_ids pre) last.
Proof.
  intros total last tr st post B ->.
  apply backed_app in B. destruct B as [_ B].
  cbn [backed] in B. tauto.
Qed.

Lemma paged_app tr1 : forall prev tr2,
  paged prev (tr1 ++ tr2) ->
  tr1 <> [] ->
  paged prev tr1 /\
  paged (match last tr1 EvSleep with
         | EvAppend posts => negb (Nat.eqb (List.length posts) 0)
         | _ => false
         end) tr2.
Proof.
  induction tr1 as [|e tr1 IH]; intros prev tr2 P Hne; [congruence|].
  destruct tr1 as [|e' tr1].
  - destruct e; cbn [app paged last] in *; tauto.
  - assert (Hne' : e' :: tr1 <> []) by discriminate.
    change (last (e :: e' :: tr1) EvSleep) with (last (e' :: tr1) EvSleep).
    destruct e; cbn [app paged] in P |- *;
      try (apply IH in P; [tauto | exact Hne']).
    destruct P as [Hp P]. apply IH in P; [tauto | exact Hne'].
Qed.

Lemma paged_split prev tr pre st post :
  paged prev tr ->
  tr = (pre ++ EvSave st :: post)%list ->
  (pre = [] /\ prev = true) \/
  exists pre' posts, pre = (pre' ++ [EvAppend posts])%list /\ posts <> [].
Proof.
  intros P ->. destruct pre as [|e pre].
  - left. cbn [app paged] in P. tauto.
  - right. apply paged_app in P; [|discriminate]. destruct P as [_ P].
    destruct (List.exists_last (l := e :: pre)) as (pre' & x & E); [discriminate|].
    rewrite E in P |- *. rewrite List.last_last in P.
    destruct x; cbn [paged] in P; destruct P as [Hx _]; try discriminate.
    exists pre', posts. split; [reflexivity|].
    intros ->. discriminate.
Qed.

Lemma fold_max_out l : forall x y,
  fold_left Z.max l (Z.max x y) = Z.max x (fold_left Z.max l y).
Proof.
  induction l as [|a l IH]; intros x y; [reflexivity|].
  cbn [fold_left]. rewrite <- Z.max_assoc. apply IH.
Qed.

Lemma max_post_id_fold posts last :
  posts <> [] ->
  fold_left Z.max (map post_id posts) last = Z.max last (max_post_id posts).
Proof.
  destruct posts as [|p ps]; [congruence|]. intros _.
  cbn [map fold_left max_post_id]. apply fold_max_out.
Qed.

Lemma page_state_total posts st :
  total_posts_scraped (page_state posts st) = total_posts_scraped st + len posts.
Proof.
  unfold page_state. cbn zeta. destruct (_ >? _); reflexivity.
Qed.

Lemma page_state_last posts st :
  posts <> [] ->
  last_processed_id (page_state posts st) =
  fold_left Z.max (map post_id posts) (last_processed_id st).
Proof.
  intros Hne. rewrite max_post_id_fold by exact Hne.
  unfold page_state. cbn zeta.
  change (last_processed_id (add_total_posts_scraped st (len posts)))
    with (last_processed_id st).
  destruct (_ >? _) eqn:E; cbn [last_processed_id set_last_processed_id add_total_posts_scraped].
  - apply Z.gtb_lt in E. lia.
  - rewrite Z.gtb_ltb in E. apply Z.ltb_ge in E. lia.
Qed.

Lemma page_state_checkpoint posts st :
  current_batch_start (page_state posts st) = current_batch_start st.
Proof. unfold page_state. cbn zeta. destruct (_ >? _); reflexivity. Qed.

Section ScanProgress.

Variable cfg : config.
Variable env : environment.

(** What a run of the pagination loop saves, and what it leaves in memory. *)
Lemma scan_progress min_id max_id page n w k w' :
  scan cfg env min_id max_id page n w k w' ->
  exists added,
    w_trace w' = (w_trace w ++ added)%list /\
    backed (total_posts_scraped (w_state w)) (last_processed_id (w_state w)) added /\
    paged false added /\
    windows_of added = [] /\
    total_posts_scraped (w_state w') =
      total_posts_scraped (w_state w) + appended_count added /\
    last_processed_id (w_state w') =
      fold_left Z.max (appended_ids added) (last_processed_id (w_state w)) /\
    current_batch_start (w_state w') = current_batch_start (w_state w) /\
    Forall (fun st => current_batch_start st = current_batch_start (w_state w))
           (saved_states added) /\
    k = n + appended_count added.
Proof.
  scan_cases.
  - exists []. rewrite List.app_nil_r. cbn. repeat split; try lia. constructor.
  - exists [EvRequest (range_request cfg min_id max_id page)].
    cbn. repeat split; try lia. constructor.
  - set (r := range_request cfg min_id max_id page) in *.
    exists [EvRequest r; EvAppend posts; EvSave (saved_page_state env posts (push (EvRequest r) w))].
    rewrite T, S. cbn [push w_trace]. rewrite <- List.app_assoc.
    cbn [app backed paged windows_of appended_count appended_ids saved_states].
    unfold saved_page_state.
    cbn [total_posts_scraped last_processed_id current_batch_start set_last_update push w_state].
    rewrite page_state_total, page_state_last, page_state_checkpoint by exact Hne.
    rewrite List.app_nil_r. unfold len.
    assert (negb (Nat.eqb (List.length posts) 0) = true)
      by (destruct posts; [congruence | reflexivity]).
    repeat split; try lia; try assumption.
    constructor; [|constructor].
    cbn [current_batch_start]. apply page_state_checkpoint.
  - set (r := range_request cfg min_id max_id page) in *.
    destruct IH as (added & Ta & B & P & W & Ht & Hl' & Hc & Hs & Hk).
    cbn [push w_trace w_state] in Ta, B, Ht, Hl', Hc, Hs.
    rewrite S in B, Ht, Hl', Hc, Hs.
    unfold saved_page_state in B, Ht, Hl', Hc, Hs.
    cbn [total_posts_scraped last_processed_id current_batch_start set_last_update push w_state]
      in B, Ht, Hl', Hc, Hs.
    rewrite page_state_total in B, Ht.
    rewrite page_state_last in B, Hl' by exact Hne.
    rewrite page_state_checkpoint in Hc, Hs.
    exists ([EvRequest r; EvAppend posts;
             EvSave (saved_page_state env posts (push (EvRequest r) w)); EvSleep] ++ added)%list.
    rewrite Ta, T. cbn [push w_trace]. rewrite <- !List.app_assoc.
    cbn [app backed paged windows_of appended_count appended_ids saved_states].
    unfold saved_page_state.
    cbn [total_posts_scraped last_processed_id current_batch_start set_last_update push w_state].
    rewrite page_state_total, page_state_last by exact Hne.
    rewrite List.fold_left_app. unfold len in *.
    assert (negb (Nat.eqb (List.length posts) 0) = true)
      by (destruct posts; [congruence | reflexivity]).
    repeat split; try lia; try assumption.
    constructor; [|exact Hs].
    cbn [current_batch_start]. apply page_state_checkpoint.
Qed.

End ScanProgress.

(* ================================================================== *)
(** ** Facts on the Batch Driver and on whole runs *)
(* ================================================================== *)






Lemma windows_of_app tr1 tr2 :
  windows_of (tr1 ++ tr2) = (windows_of tr1 ++ windows_of tr2)%list.
Proof.
  induction tr1 as [|e tr1 IH]; [reflexivity|].
  destruct e; cbn [app windows_of]; rewrite IH; reflexivity.
Qed.

Section DriverFacts.

Variable cfg : config.
Variable env : environment.

Lemma save_state_run w :
  _save_state env w =
  Some (tt, push (EvSave (set_last_update (w_state w)
                            (now_isoformat env (count is_save (w_trace w)))))
              (with_state_file
                 (match state_write env (count is_save (w_trace w)) with
                  | WriteOk =>
                      state_file_at
                        (save_finished (set_last_update (w_state w)
                            (now_isoformat env (count is_save (w_trace w)))))
                        (w_state_file w)
                        (set_last_update (w_state w)
                            (now_isoformat env (count is_save (w_trace w))))
                  | OpenFails => w_state_file w
                  | WriteFails k =>
                      state_file_at (Written k) (w_state_file w)
                        (set_last_update (w_state w)
                            (now_isoformat env (count is_save (w_trace w))))
                  end)
                 (with_state (set_last_update (w_state w)
                                (now_isoformat env (count is_save (w_trace w)))) w))).
Proof. reflexivity. Qed.

Lemma save_state_inv w w2 :
  _save_state env w = Some (tt, w2) ->
  w_trace w2 = (w_trace w ++ [EvSave (w_state w2)])%list /\
  w_state w2 = set_last_update (w_state w) (now_isoformat env (count is_save (w_trace w))) /\
  w_output w2 = w_output w.
Proof.
  rewrite save_state_run. intros H. inversion H. cbn. auto.
Qed.

Lemma scrape_batches_stop fuel highest_id current_min_id w :
  current_min_id > highest_id ->
  scrape_batches cfg env fuel highest_id current_min_id w = Some (tt, w).
Proof.
  intros H. destruct fuel; simpl;
    replace (current_min_id <=? highest_id) with false
      by (symmetry; apply Z.leb_gt; lia);
    reflexivity.
Qed.

Lemma scrape_batches_step fuel highest_id current_min_id w :
  current_min_id <= highest_id ->
  scrape_batches cfg env (S fuel) highest_id current_min_id w =
  match _scrape_id_range cfg env current_min_id
          (Z.min (current_min_id + batch_size cfg - 1) highest_id)
          (push (EvBatch current_min_id
                   (Z.min (current_min_id + batch_size cfg - 1) highest_id)) w) with
  | Some (_, w1) =>
      match _save_state env
              (with_state
                 (set_current_batch_start (w_state w1)
                    (Z.min (current_min_id + batch_size cfg - 1) highest_id + 1)) w1) with
      | Some (_, w2) =>
          scrape_batches cfg env fuel highest_id
            (Z.min (current_min_id + batch_size cfg - 1) highest_id + 1)
            (push EvSleep w2)
      | None => None
      end
  | None => None
  end.
Proof.
  intros H. cbn [scrape_batches].
  replace (current_min_id <=? highest_id) with true by (symmetry; apply Z.leb_le; lia).
  cbv zeta. unfold bind at 1. unfold emit at 1.
  unfold bind at 1.
  destruct (_scrape_id_range cfg env _ _ _) as [[k w1]|]; [|reflexivity].
  unfold bind at 1. unfold modify_state at 1.
  unfold bind at 1.
  destruct (_save_state env _) as [[[] w2]|]; [|reflexivity].
  unfold bind at 1. unfold sleep, emit. reflexivity.
Qed.

Lemma scrape_batches_drive fuel : forall highest_id current_min_id w w',
  scrape_batches cfg env fuel highest_id current_min_id w = Some (tt, w') ->
  drive cfg env highest_id current_min_id w w'.
Proof.
  induction fuel as [|fuel IH]; intros h cur w w' H.
  - destruct (Z_le_gt_dec cur h) as [Hc|Hc].
    + cbn [scrape_batches] in H.
      replace (cur <=? h) with true in H by (symmetry; apply Z.leb_le; lia).
      discriminate.
    + rewrite scrape_batches_stop in H by exact Hc. inversion H; subst.
      apply drive_done. exact Hc.
  - destruct (Z_le_gt_dec cur h) as [Hc|Hc].
    + rewrite scrape_batches_step in H by exact Hc.
      destruct (_scrape_id_range cfg env _ _ _) as [[k w1]|] eqn:S1; [|discriminate].
      destruct (_save_state env _) as [[[] w2]|] eqn:S2; [|discriminate].
      eapply drive_batch; eauto.
    + rewrite scrape_batches_stop in H by exact Hc. inversion H; subst.
      apply drive_done. exact Hc.
Qed.

(** With batches of at least one id, the batch loop returns: one unit of
    fuel per id that is left is enough. *)
Lemma scrape_batches_total fuel : forall highest_id current_min_id w,
  1 <= batch_size cfg ->
  highest_id + 1 - current_min_id <= Z.of_nat fuel ->
  exists w', scrape_batches cfg env fuel highest_id current_min_id w = Some (tt, w').
Proof.
  induction fuel as [|fuel IH]; intros h cur w Hb Hf.
  - rewrite scrape_batches_stop by lia. eauto.
  - destruct (Z_le_gt_dec cur h) as [Hc|Hc].
    + rewrite scrape_batches_step by exact Hc.
      destruct (_scrape_id_range_total cfg env cur (Z.min (cur + batch_size cfg - 1) h)
                  (push (EvBatch cur (Z.min (cur + batch_size cfg - 1) h)) w))
        as (k & w1 & ->).
      rewrite save_state_run. apply IH; [exact Hb | lia].
    + rewrite scrape_batches_stop by exact Hc. eauto.
Qed.

End DriverFacts.



Section DriveInvariants.

Variable cfg : config.
Variable env : environment.

Lemma scan_of_range min_id max_id w k w1 :
  _scrape_id_range cfg env min_id max_id w = Some (k, w1) ->
  scan cfg env min_id max_id 1 0 w k w1.
Proof. apply scrape_pages_scan. Qed.

(** A run of the batch loop that starts at the checkpoint in memory:
    its windows, the checkpoint it leaves, and what its saves count. *)
Lemma drive_windows highest_id current_min_id w w' :
  drive cfg env highest_id current_min_id w w' ->
  checkpoint (w_state w) = current_min_id ->
  exists added,
    w_trace w' = (w_trace w ++ added)%list /\
    windowing (batch_size cfg) highest_id current_min_id (windows_of added)
      (checkpoint (w_state w')) /\
    backed (total_posts_scraped (w_state w)) (last_processed_id (w_state w)) added /\
    total_posts_scraped (w_state w') =
      total_posts_scraped (w_state w) + appended_count added /\
    last_processed_id (w_state w') =
      fold_left Z.max (appended_ids added) (last_processed_id (w_state w)).
Proof.
  induction 1 as [cur w Hc | cur w n w1 w2 w' Hc hi S1 S2 _ IH]; intros Hk.
  - exists []. rewrite List.app_nil_r. cbn [windows_of backed appended_count appended_ids fold_left].
    rewrite Hk. repeat split; try lia. apply windowing_stop. exact Hc.
  - apply scan_of_range, scan_progress in S1.
    destruct S1 as (sc & T1 & B1 & _ & W1 & Ht1 & Hl1 & Hc1 & _ & _).
    apply save_state_inv in S2. destruct S2 as (T2 & St2 & _).
    cbn [with_state w_state w_trace push] in T1, B1, Ht1, Hl1, Hc1, T2, St2.
    destruct IH as (rest & T3 & Wd & B3 & Ht3 & Hl3).
    { cbn [push w_state]. rewrite St2. reflexivity. }
    cbn [push w_state w_trace] in T3, B3, Ht3, Hl3.
    rewrite St2 in B3, Ht3, Hl3.
    cbn [total_posts_scraped last_processed_id set_last_update set_current_batch_start]
      in B3, Ht3, Hl3.
    exists ([EvBatch cur hi] ++ sc ++ [EvSave (w_state w2); EvSleep] ++ rest)%list.
    split.
    { rewrite T3, T2, T1. rewrite <- !List.app_assoc. reflexivity. }
    rewrite !windows_of_app, W1.
    cbn [windows_of app].
    split; [apply windowing_next; assumption|].
    cbn [app backed appended_count appended_ids].
    rewrite backed_app, appended_count_app, appended_ids_app, List.fold_left_app.
    cbn [app backed appended_count appended_ids].
    rewrite St2.
    cbn [total_posts_scraped last_processed_id set_last_update set_current_batch_start].
    rewrite <- Ht1, <- Hl1.
    repeat split; try assumption; try lia.
Qed.


End DriveInvariants.

Lemma windows_of_scanned lo hi tr :
  Forall (scans_window lo hi) tr -> windows_of tr = [].
Proof.
  induction 1 as [|e tr He _ IH]; [reflexivity|].
  destruct e; cbn [windows_of]; try exact IH. destruct He.
Qed.

Lemma rounds_windowing batch max_id start tr final :
  rounds batch max_id start tr final ->
  windowing batch max_id start (windows_of tr) final.
Proof.
  induction 1 as [s Hs | s scanned st rest final Hs Hsc Hst _ IH].
  - apply windowing_stop. exact Hs.
  - cbn [windows_of]. rewrite windows_of_app, (windows_of_scanned _ _ _ Hsc).
    cbn [app windows_of]. apply windowing_next; assumption.
Qed.

Section Rounds.

Variable cfg : config.
Variable env : environment.

Lemma scan_requests min_id max_id page n w k w' :
  scan cfg env min_id max_id page n w k w' ->
  exists added,
    w_trace w' = (w_trace w ++ added)%list /\
    Forall (scans_window min_id max_id) added.
Proof.
  scan_cases.
  - exists []. rewrite List.app_nil_r. split; [reflexivity | constructor].
  - exists [EvRequest (range_request cfg min_id max_id page)].
    split; [reflexivity|]. repeat constructor.
  - eexists. split.
    + rewrite T. cbn [push w_trace]. rewrite <- List.app_assoc. reflexivity.
    + repeat constructor.
  - destruct IH as (added & Ta & Fa).
    eexists. split.
    + rewrite Ta. cbn [push w_trace]. rewrite T. cbn [push w_trace].
      rewrite <- !List.app_assoc. reflexivity.
    + cbn [app]. repeat (constructor; [cbn; auto|]). exact Fa.
Qed.

Lemma drive_rounds highest_id current_min_id w w' :
  drive cfg env highest_id current_min_id w w' ->
  checkpoint (w_state w) = current_min_id ->
  exists added,
    w_trace w' = (w_trace w ++ added)%list /\
    rounds (batch_size cfg) highest_id current_min_id added (checkpoint (w_state w')).
Proof.
  induction 1 as [cur w Hc | cur w n w1 w2 w' Hc hi S1 S2 _ IH]; intros Hk.
  - exists []. rewrite List.app_nil_r. split; [reflexivity|].
    rewrite Hk. apply rounds_stop. exact Hc.
  - apply scan_of_range, scan_requests in S1. destruct S1 as (sc & T1 & F1).
    apply save_state_inv in S2. destruct S2 as (T2 & St2 & _).
    cbn [with_state w_state w_trace push] in T1, T2, St2.
    destruct IH as (rest & T3 & R3).
    { cbn [push w_state]. rewrite St2. reflexivity. }
    cbn [push w_state w_trace] in T3.
    exists (EvBatch cur hi :: sc ++ EvSave (w_state w2) :: EvSleep :: rest)%list.
    split.
    + rewrite T3, T2, T1. rewrite <- !List.app_assoc. reflexivity.
    + apply rounds_next; try assumption.
      rewrite St2. reflexivity.
Qed.

End Rounds.

Section RunFacts.

Variable cfg : config.
Variable env : environment.

Lemma scrape_all_eq fuel w :
  scrape_all cfg env fuel w =
  match highest_result (requests_get env (count is_request (w_trace w)) GetLatest) with
  | Some highest_id =>
      scrape_batches cfg env fuel highest_id (checkpoint (w_state w))
        (push (EvRequest GetLatest) w)
  | None => Some (tt, push (EvRequest GetLatest) w)
  end.
Proof.
  unfold scrape_all, bind, _get_highest_post_id.
  destruct (highest_result _); reflexivity.
Qed.

(** A run that found the highest id [max_id] and returned. *)
Lemma scrape_all_rounds fuel w w' max_id :
  highest_result (requests_get env (count is_request (w_trace w)) GetLatest) = Some max_id ->
  scrape_all cfg env fuel w = Some (tt, w') ->
  exists added,
    w_trace w' = (w_trace w ++ EvRequest GetLatest :: added)%list /\
    rounds (batch_size cfg) max_id (checkpoint (w_state w)) added (checkpoint (w_state w')).
Proof.
  intros Hh H. rewrite scrape_all_eq, Hh in H.
  apply scrape_batches_drive, drive_rounds in H; [|reflexivity].
  destruct H as (added & T & R). exists added.
  cbn [push w_trace w_state] in T, R. rewrite T, <- List.app_assoc. auto.
Qed.

Lemma scrape_all_total w max_id :
  1 <= batch_size cfg ->
  highest_result (requests_get env (count is_request (w_trace w)) GetLatest) = Some max_id ->
  forall fuel, max_id + 1 - checkpoint (w_state w) <= Z.of_nat fuel ->
  exists w', scrape_all cfg env fuel w = Some (tt, w').
Proof.
  intros Hb Hh fuel Hf. rewrite scrape_all_eq, Hh.
  apply scrape_batches_total; assumption.
Qed.

End RunFacts.

Lemma rounds_final batch max_id start tr final :
  rounds batch max_id start tr final -> final > max_id.
Proof. induction 1; assumption. Qed.



Section RunInvariants.

Variable cfg : config.
Variable env : environment.



Lemma scrape_all_backed fuel w w' :
  scrape_all cfg env fuel w = Some (tt, w') ->
  exists added,
    w_trace w' = (w_trace w ++ added)%list /\
    backed (total_posts_scraped (w_state w)) (last_processed_id (w_state w)) added.
Proof.
  intros H. rewrite scrape_all_eq in H.
  destruct (highest_result _) as [max_id|].
  - apply scrape_batches_drive, drive_windows in H; [|reflexivity].
    destruct H as (added & T & _ & B & _). cbn [push w_trace w_state] in T, B.
    exists (EvRequest GetLatest :: added). rewrite T, <- List.app_assoc.
    split; [reflexivity | exact B].
  - inversion H; subst. exists [EvRequest GetLatest].
    split; [reflexivity | exact I].
Qed.



End RunInvariants.

(* ================================================================== *)
(** ** Facts on the two files *)
(* ================================================================== *)

(** *** The Progress Store *)

Lemma length_concat_firstn (l : list string) : forall k,
  (String.length (concat_all (firstn k l)) <= String.length (concat_all l))%nat.
Proof.
  induction l as [|c l IH]; intros k.
  - rewrite List.firstn_nil. apply Nat.le_refl.
  - destruct k as [|k]; cbn [firstn concat_all].
    + apply Nat.le_0_l.
    + rewrite !length_append. specialize (IH k). lia.
Qed.

Lemma concat_firstn_prefix (l : list string) k :
  is_prefix (concat_all (firstn k l)) (concat_all l).
Proof.
  exists (concat_all (skipn k l)).
  rewrite <- concat_all_app, List.firstn_skipn. reflexivity.
Qed.

Lemma dump_chunks_closing st :
  exists front, dump_chunks st = (front ++ ["}"])%list.
Proof.
  unfold dump_chunks.
  exists (["{"; (nl ++ "  ")%string] ++ member_chunks true (state_members st) ++ [nl])%list.
  rewrite <- !List.app_assoc. reflexivity.
Qed.

Lemma unfinished_save_is_short st k :
  (k < List.length (dump_chunks st))%nat ->
  (String.length (concat_all (firstn k (dump_chunks st)))
   < String.length (dump_state st))%nat.
Proof.
  unfold dump_state. destruct (dump_chunks_closing st) as (front & ->).
  rewrite List.length_app. cbn [List.length]. intros Hk.
  rewrite List.firstn_app. replace (k - List.length front)%nat with 0%nat by lia.
  cbn [firstn]. rewrite List.app_nil_r, concat_all_app, length_append.
  pose proof (length_concat_firstn front k). cbn. lia.
Qed.

(** *** The Record Sink *)




(* ================================================================== *)
(** ** The statements of the specification *)
(* ================================================================== *)

(** *** Progress Store *)

(** C1, as the specification states it, fails. The specification asks
    that [save] overwrite the state file atomically, so that a reader never
    finds a partially written state. [_save_state] opens the state file
    with mode ['w'], which empties it, and then writes the new state chunk
    by chunk: with the checkpoint at 101 on disk and the state with the
    checkpoint at 201 being saved, a reader who looks right after the open
    finds an empty file, which is neither the old state nor the new one. *)
Lemma save_is_not_atomic :
  state_file_at (Written 0) (Some (dump_state (saved_at 101))) (saved_at 201)
    = Some EmptyString /\
  (atomic_save (Some (dump_state (saved_at 101))) (saved_at 201) -> False).
Proof.
  split; [reflexivity|].
  intros A. destruct (A (Written 0)) as [E|E]; vm_compute in E; discriminate.
Qed.

(** C1, amended to what the code does. [_save_state] overwrites the state
    file in place. Before the open the file is the old one; right after
    the open it is empty; once the save has run to its end it holds
    exactly the text of the new state; at every point in between, and so
    whenever the save is cut short, it holds a prefix of that text, which
    is not the whole text as long as a chunk is missing. A call of
    [_save_state] that finds the file writable leaves the text of the
    state it has just stamped. *)
Theorem save_overwrites_in_place :
  (forall old st,
      state_file_at BeforeOpen old st = old /\
      state_file_at (Written 0) old st = Some EmptyString /\
      state_file_at (save_finished st) old st = Some (dump_state st) /\
      (forall k, exists text,
          state_file_at (Written k) old st = Some text /\
          is_prefix text (dump_state st)) /\
      (forall k, (k < List.length (dump_chunks st))%nat ->
          state_file_at (Written k) old st <> Some (dump_state st)))
  /\
  (forall env w,
      state_write env (count is_save (w_trace w)) = WriteOk ->
      exists w',
        _save_state env w = Some (tt, w') /\
        w_state_file w' = Some (dump_state (w_state w'))).
Proof.
  split.
  - intros old st. split; [reflexivity|]. split; [reflexivity|].
    split.
    { unfold save_finished, state_file_at, dump_state. rewrite List.firstn_all. reflexivity. }
    split.
    + intros k. eexists. split; [reflexivity|]. apply concat_firstn_prefix.
    + intros k Hk E. cbn [state_file_at] in E. inversion E as [E'].
      pose proof (unfinished_save_is_short st k Hk) as L. rewrite E' in L. lia.
  - intros env w H. unfold _save_state. rewrite H. eexists. split; [reflexivity|].
    cbn [push with_state_file with_state w_state_file w_state].
    unfold save_finished, state_file_at, dump_state. rewrite List.firstn_all. reflexivity.
Qed.

Lemma save_overwrites_in_place_witness :
  exists text,
    state_file_at (Written 3) (Some (dump_state (saved_at 101))) (saved_at 201)
      = Some text /\
    is_prefix text (dump_state (saved_at 201)) /\
    (Some text = Some (dump_state (saved_at 201)) -> False).
Proof.
  destruct (proj1 save_overwrites_in_place (Some (dump_state (saved_at 101))) (saved_at 201))
    as (_ & _ & _ & P & N).
  destruct (P 3%nat) as (text & E & Hp).
  exists text. split; [exact E|]. split; [exact Hp|].
  rewrite <- E. apply N. vm_compute. lia.
Defined.

(** *** Batch Driver *)

(** C2. A run that learns the upstream maximum id [max_id], with batches
    of at least one id and fuel for the ids that are left, returns. Its
    trace is the query for the maximum id and then one round per window:
    the window [window_start .. min(window_start + batch_size - 1, max_id)]
    is announced and scanned, a state with [next_window_start] at
    [window_end + 1] is saved, and the next window starts there; the
    first window starts at the checkpoint, and the run ends with the
    checkpoint above [max_id]. In particular from checkpoint 1, with
    maximum id 250 and batches of 100, the windows are [1..100],
    [101..200], [201..250], and the checkpoint is left at 251. *)
Theorem batch_driver_windows :
  (forall cfg env w max_id fuel,
      1 <= batch_size cfg ->
      highest_result (requests_get env (count is_request (w_trace w)) GetLatest)
        = Some max_id ->
      max_id + 1 - checkpoint (w_state w) <= Z.of_nat fuel ->
      exists w' added,
        scrape_all cfg env fuel w = Some (tt, w') /\
        w_trace w' = (w_trace w ++ EvRequest GetLatest :: added)%list /\
        rounds (batch_size cfg) max_id (checkpoint (w_state w)) added
          (checkpoint (w_state w')) /\
        windowing (batch_size cfg) max_id (checkpoint (w_state w)) (windows_of added)
          (checkpoint (w_state w')) /\
        checkpoint (w_state w') > max_id)
  /\
  (forall posts_per_page_arg env w fuel,
      checkpoint (w_state w) = 1 ->
      highest_result (requests_get env (count is_request (w_trace w)) GetLatest)
        = Some 250 ->
      (250 <= fuel)%nat ->
      exists w' added,
        scrape_all (init posts_per_page_arg 100) env fuel w = Some (tt, w') /\
        w_trace w' = (w_trace w ++ EvRequest GetLatest :: added)%list /\
        windows_of added = [(1, 100); (101, 200); (201, 250)] /\
        checkpoint (w_state w') = 251).
Proof.
  assert (G : forall cfg env w max_id fuel,
      1 <= batch_size cfg ->
      highest_result (requests_get env (count is_request (w_trace w)) GetLatest)
        = Some max_id ->
      max_id + 1 - checkpoint (w_state w) <= Z.of_nat fuel ->
      exists w' added,
        scrape_all cfg env fuel w = Some (tt, w') /\
        w_trace w' = (w_trace w ++ EvRequest GetLatest :: added)%list /\
        rounds (batch_size cfg) max_id (checkpoint (w_state w)) added
          (checkpoint (w_state w')) /\
        windowing (batch_size cfg) max_id (checkpoint (w_state w)) (windows_of added)
          (checkpoint (w_state w')) /\
        checkpoint (w_state w') > max_id).
  { intros cfg env w max_id fuel Hb Hh Hf.
    destruct (scrape_all_total cfg env w max_id Hb Hh fuel Hf) as (w' & H).
    destruct (scrape_all_rounds cfg env fuel w w' max_id Hh H) as (added & T & R).
    exists w', added. repeat split; try assumption.
    - apply rounds_windowing. exact R.
    - eapply rounds_final. exact R. }
  split; [exact G|].
  intros ppp env w fuel Hk Hh Hf.
  destruct (G (init ppp 100) env w 250 fuel) as (w' & added & H & T & _ & W & _);
    [cbn; lia | exact Hh | lia |].
  exists w', added. split; [exact H|]. split; [exact T|].
  rewrite Hk in W. cbn [init batch_size] in W.
  inversion W as [|s1 ws1 f1 L1 W1]; subst; [lia|].
  change (Z.min (1 + 100 - 1) 250 + 1) with 101 in W1.
  inversion W1 as [|s2 ws2 f2 L2 W2]; subst; [lia|].
  change (Z.min (101 + 100 - 1) 250 + 1) with 201 in W2.
  inversion W2 as [|s3 ws3 f3 L3 W3]; subst; [lia|].
  change (Z.min (201 + 100 - 1) 250 + 1) with 251 in W3.
  inversion W3 as [s4 L4 E4|s4 ws4 f4 L4 W4]; subst; [|lia].
  split; [reflexivity | congruence].
Qed.

Lemma batch_driver_windows_witness :
  exists w' added,
    scrape_all (init 50 100) (reliable (posts_upto 250)) 250 fresh = Some (tt, w') /\
    w_trace w' = (w_trace fresh ++ EvRequest GetLatest :: added)%list /\
    windows_of added = [(1, 100); (101, 200); (201, 250)] /\
    checkpoint (w_state w') = 251 /\
    rounds 100 250 1 added 251.
Proof.
  destruct (proj2 batch_driver_windows 50 (reliable (posts_upto 250)) fresh 250%nat)
    as (w' & added & H & T & W & C).
  - reflexivity.
  - vm_compute. reflexivity.
  - lia.
  - destruct (proj1 batch_driver_windows (init 50 100) (reliable (posts_upto 250)) fresh 250
                250%nat)
      as (w2 & added2 & H2 & T2 & R2 & _).
    + vm_compute. discriminate.
    + vm_compute. reflexivity.
    + vm_compute. discriminate.
    + rewrite H in H2. inversion H2; subst w2.
      rewrite T in T2. apply List.app_inv_head in T2. inversion T2; subst added2.
      rewrite C in R2.
      exists w', added. repeat split; assumption.
Defined.

(** C3. [scrape_all] is called a second time right after a run that has
    returned, and the upstream maximum id is what it was. The second call
    sends the query for the maximum id and nothing else: no page is
    fetched, the output file, the state and the state file are as the
    first run left them. It needs no fuel: the loop condition is false
    at once. *)
Theorem rerun_is_noop cfg env fuel1 fuel2 w w1 max_id :
  highest_result (requests_get env (count is_request (w_trace w)) GetLatest)
    = Some max_id ->
  scrape_all cfg env fuel1 w = Some (tt, w1) ->
  highest_result (requests_get env (count is_request (w_trace w1)) GetLatest)
    = Some max_id ->
  exists w2,
    scrape_all cfg env fuel2 w1 = Some (tt, w2) /\
    w_trace w2 = (w_trace w1 ++ [EvRequest GetLatest])%list /\
    count is_fetch (w_trace w2) = count is_fetch (w_trace w1) /\
    w_state w2 = w_state w1 /\
    w_output w2 = w_output w1 /\
    w_state_file w2 = w_state_file w1.
Proof.
  intros H1 R1 H2.
  destruct (scrape_all_rounds cfg env fuel1 w w1 max_id H1 R1) as (added & _ & R).
  apply rounds_final in R.
  exists (push (EvRequest GetLatest) w1).
  rewrite scrape_all_eq, H2, scrape_batches_stop by exact R.
  cbn [push w_trace w_state w_output w_state_file].
  rewrite count_app. cbn [count filter is_fetch List.length].
  repeat split; lia.
Qed.

Lemma rerun_is_noop_witness :
  exists w1 w2,
    scrape_all (init 50 100) (reliable (posts_upto 250)) 250 fresh = Some (tt, w1) /\
    scrape_all (init 50 100) (reliable (posts_upto 250)) 0 w1 = Some (tt, w2) /\
    count is_fetch (w_trace w2) = count is_fetch (w_trace w1) /\
    w_state w2 = w_state w1 /\
    w_output w2 = w_output w1.
Proof.
  destruct (scrape_all (init 50 100) (reliable (posts_upto 250)) 250 fresh)
    as [[[] w1]|] eqn:E.
  - destruct (rerun_is_noop (init 50 100) (reliable (posts_upto 250)) 250 0 fresh w1 250)
      as (w2 & R2 & _ & F & S & O & _).
    + reflexivity.
    + exact E.
    + reflexivity.
    + exists w1, w2. repeat split; assumption.
  - exfalso. vm_compute in E. discriminate.
Defined.

(** *** Page Fetcher *)

(** C4. Whatever the id range and the page, when the request fails in one
    of the three ways (the transport raises, the status check raises, the
    body does not decode), and whatever the exception is,
    [_fetch_posts_by_id_range] returns: its result is the empty list, and
    the call leaves the scraper exactly as the call does that is answered
    with zero records. *)
Theorem fetch_failure_is_empty_page cfg env env0 min_id max_id page w :
  let n := count is_request (w_trace w) in
  let r := range_request cfg min_id max_id page in
  fetch_failure (requests_get env n r) ->
  requests_get env0 n r = zero_records ->
  _fetch_posts_by_id_range cfg env min_id max_id page w
    = Some ([], push (EvRequest r) w) /\
  _fetch_posts_by_id_range cfg env min_id max_id page w
    = _fetch_posts_by_id_range cfg env0 min_id max_id page w.
Proof.
  intros n r F Z. rewrite !fetch_eq. fold n r. rewrite Z.
  assert (E : fetch_result (requests_get env n r) = []).
  { unfold fetch_result, try_get_json.
    destruct F as [e | e body | e]; cbn [raise_for_status response_json];
      destruct e; reflexivity. }
  rewrite E. split; reflexivity.
Qed.

Lemma fetch_failure_is_empty_page_witness :
  _fetch_posts_by_id_range (init 50 100) unreachable 1 100 3 fresh
    = Some ([], push (EvRequest (GetRange 1 100 50 3)) fresh) /\
  _fetch_posts_by_id_range (init 50 100) unreachable 1 100 3 fresh
    = _fetch_posts_by_id_range (init 50 100) (reliable []) 1 100 3 fresh.
Proof.
  apply (fetch_failure_is_empty_page (init 50 100) unreachable (reliable []) 1 100 3 fresh).
  - apply TransportFailure.
  - reflexivity.
Defined.

(** *** Range Scanner *)

(** C5. When page 1 of a window comes back with exactly [posts_per_page]
    records and page 2 with some records but fewer than [posts_per_page],
    [_scrape_id_range] sends these two fetches and stops: its trace is
    fetch, append, save, pause, fetch, append, save, and it returns the
    number of records of the two pages. *)
Theorem short_second_page_two_fetches cfg env min_id max_id w :
  let n := count is_request (w_trace w) in
  let r1 := range_request cfg min_id max_id 1 in
  let r2 := range_request cfg min_id max_id 2 in
  let page1 := fetch_result (requests_get env n r1) in
  let page2 := fetch_result (requests_get env (S n) r2) in
  len page1 = posts_per_page cfg ->
  0 < len page2 < posts_per_page cfg ->
  exists w' st1 st2,
    _scrape_id_range cfg env min_id max_id w = Some (len page1 + len page2, w') /\
    w_trace w' =
      (w_trace w ++ [EvRequest r1; EvAppend page1; EvSave st1; EvSleep;
                     EvRequest r2; EvAppend page2; EvSave st2])%list /\
    count is_fetch (w_trace w') = (count is_fetch (w_trace w) + 2)%nat.
Proof.
  intros n r1 r2 page1 page2 H1 H2.
  unfold _scrape_id_range. rewrite max_pages_fuel.
  rewrite scrape_pages_step by (unfold max_pages; lia).
  fold n r1 page1.
  destruct page1 as [|p ps] eqn:E1.
  { change (len []) with 0 in H1. lia. }
  destruct (record_page_run env (p :: ps) (push (EvRequest r1) w)) as (w2 & -> & T2 & _).
  replace (len (p :: ps) <? posts_per_page cfg) with false
    by (symmetry; apply Z.ltb_ge; lia).
  change (Z.to_nat (max_pages - 1)) with (S (Z.to_nat (max_pages - 2))).
  rewrite scrape_pages_step by (unfold max_pages; lia).
  change (1 + 1) with 2. fold r2.
  assert (Hn : count is_request (w_trace (push EvSleep w2)) = S n).
  { cbn [push w_trace]. rewrite T2. cbn [push w_trace].
    rewrite !count_app. cbn. fold n. lia. }
  rewrite Hn. fold page2.
  destruct page2 as [|q qs] eqn:E2.
  { change (len []) with 0 in H2. lia. }
  destruct (record_page_run env (q :: qs) (push (EvRequest r2) (push EvSleep w2)))
    as (w3 & -> & T3 & _).
  replace (len (q :: qs) <? posts_per_page cfg) with true
    by (symmetry; apply Z.ltb_lt; lia).
  exists w3, (saved_page_state env (p :: ps) (push (EvRequest r1) w)),
         (saved_page_state env (q :: qs) (push (EvRequest r2) (push EvSleep w2))).
  split; [f_equal; f_equal; lia|].
  assert (T : w_trace w3 =
    (w_trace w ++ [EvRequest r1; EvAppend (p :: ps);
       EvSave (saved_page_state env (p :: ps) (push (EvRequest r1) w)); EvSleep;
       EvRequest r2; EvAppend (q :: qs);
       EvSave (saved_page_state env (q :: qs) (push (EvRequest r2) (push EvSleep w2)))])%list).
  { rewrite T3. cbn [push w_trace]. rewrite T2. cbn [push w_trace].
    rewrite <- !List.app_assoc. reflexivity. }
  split; [exact T|].
  rewrite T, count_app. reflexivity.
Qed.

Lemma short_second_page_two_fetches_witness :
  exists w',
    _scrape_id_range (init 50 100) (reliable (posts_upto 70)) 1 100 fresh = Some (70, w') /\
    count is_fetch (w_trace w') = 2%nat.
Proof.
  destruct (short_second_page_two_fetches (init 50 100) (reliable (posts_upto 70)) 1 100 fresh)
    as (w' & st1 & st2 & H & _ & C).
  - vm_compute. reflexivity.
  - vm_compute. split; reflexivity.
  - exists w'. split; [exact H | exact C].
Defined.

(** C6. When the first fetch of a window comes back with no record,
    [_scrape_id_range] returns 0 after that one fetch: nothing is handed
    to the sink, nothing is saved, and the output file, the progress state
    ([last_processed_id] and the rest) and the state file are untouched. *)
Theorem empty_window_changes_nothing cfg env min_id max_id w :
  fetch_result (requests_get env (count is_request (w_trace w))
                  (range_request cfg min_id max_id 1)) = [] ->
  exists w',
    _scrape_id_range cfg env min_id max_id w = Some (0, w') /\
    w_trace w' = (w_trace w ++ [EvRequest (range_request cfg min_id max_id 1)])%list /\
    count is_append (w_trace w') = count is_append (w_trace w) /\
    count is_save (w_trace w') = count is_save (w_trace w) /\
    w_output w' = w_output w /\
    w_state w' = w_state w /\
    w_state_file w' = w_state_file w.
Proof.
  intros H. unfold _scrape_id_range. rewrite max_pages_fuel.
  rewrite scrape_pages_step by (unfold max_pages; lia).
  rewrite H. eexists. split; [reflexivity|].
  cbn [push w_trace w_output w_state w_state_file].
  rewrite !count_app. cbn. repeat split; lia.
Qed.

Lemma empty_window_changes_nothing_witness :
  exists w',
    _scrape_id_range (init 50 100) (reliable []) 1 100 fresh = Some (0, w') /\
    w_output w' = w_output fresh /\ w_state w' = w_state fresh.
Proof.
  destruct (empty_window_changes_nothing (init 50 100) (reliable []) 1 100 fresh)
    as (w' & H & _ & _ & _ & Ho & Hs & _).
  - reflexivity.
  - exists w'. repeat split; assumption.
Defined.

(** *** Record Sink *)

(** C9. Whatever the window and whatever the answers of the HTTP
    capability, [_scrape_id_range] returns, after at least one and at most
    [max_pages] = 1000 fetches, and it sends no other request. *)
Theorem range_scanner_terminates cfg env min_id max_id w :
  exists k w' added,
    _scrape_id_range cfg env min_id max_id w = Some (k, w') /\
    w_trace w' = (w_trace w ++ added)%list /\
    (1 <= count is_fetch added <= 1000)%nat /\
    Z.of_nat (count is_fetch added) <= max_pages /\
    count is_request added = count is_fetch added.
Proof.
  destruct (_scrape_id_range_total cfg env min_id max_id w) as (k & w' & H).
  exists k, w'. unfold _scrape_id_range in H.
  pose proof (scrape_pages_scan _ _ _ _ _ _ _ _ _ _ H) as S.
  apply scan_fetches in S. destruct S as (added & T & B & R & L).
  exists added. unfold max_pages in *. repeat split; try assumption; lia.
Qed.

(** C10. A page that is not empty is handed to the sink first: when
    [_append_posts_to_file] returns, the counters in memory and the state
    file are still what they were, and only then are the counters updated
    and the state saved. So in a call of [_scrape_id_range] every save of
    the progress state comes right after the append of a page that is not
    empty, and the state that is saved counts exactly the records handed
    to the sink before that save: its [total_posts_scraped] is the total
    at the start plus their number, its [last_processed_id] the largest of
    the one at the start and their ids. The same count holds for every
    state saved in a whole run of [scrape_all]: no saved progress counts a
    record that was not handed to the sink first. *)
Theorem sink_before_progress :
  (forall env posts w,
    exists w1 w2,
      _append_posts_to_file env posts w = Some (tt, w1) /\
      w_state w1 = w_state w /\
      w_state_file w1 = w_state_file w /\
      w_trace w1 = (w_trace w ++ [EvAppend posts])%list /\
      record_page env posts w = Some (tt, w2) /\
      w_trace w2 = (w_trace w1 ++ [EvSave (w_state w2)])%list /\
      total_posts_scraped (w_state w2) = total_posts_scraped (w_state w) + len posts)
  /\
  (forall cfg env min_id max_id w,
    exists k w' added,
      _scrape_id_range cfg env min_id max_id w = Some (k, w') /\
      w_trace w' = (w_trace w ++ added)%list /\
      forall pre st post,
        added = (pre ++ EvSave st :: post)%list ->
        (exists pre' posts, pre = (pre' ++ [EvAppend posts])%list /\ posts <> []) /\
        total_posts_scraped st =
          total_posts_scraped (w_state w) + appended_count pre /\
        last_processed_id st =
          fold_left Z.max (appended_ids pre) (last_processed_id (w_state w)))
  /\
  (forall cfg env fuel w w',
      scrape_all cfg env fuel w = Some (tt, w') ->
      exists added,
        w_trace w' = (w_trace w ++ added)%list /\
        forall pre st post,
          added = (pre ++ EvSave st :: post)%list ->
          total_posts_scraped st =
            total_posts_scraped (w_state w) + appended_count pre /\
          last_processed_id st =
            fold_left Z.max (appended_ids pre) (last_processed_id (w_state w))).
Proof.
  split; [|split].
  - intros env posts w.
    destruct (record_page_run env posts w) as (w2 & R & T & S).
    eexists. exists w2. split; [reflexivity|].
    cbn [push with_output w_state w_state_file w_trace].
    repeat split; try assumption.
    + rewrite T, S, <- List.app_assoc. reflexivity.
    + rewrite S. unfold saved_page_state.
      cbn [total_posts_scraped set_last_update]. apply page_state_total.
  - intros cfg env min_id max_id w.
    destruct (_scrape_id_range_total cfg env min_id max_id w) as (k & w' & H).
    exists k, w'. unfold _scrape_id_range in H.
    pose proof (scrape_pages_scan _ _ _ _ _ _ _ _ _ _ H) as S.
    apply scan_progress in S. destruct S as (added & T & B & P & _).
    exists added. split; [exact H|]. split; [exact T|].
    intros pre st post E. split.
    + destruct (paged_split _ _ _ _ _ P E) as [[_ F]|X]; [discriminate | exact X].
    + eapply backed_split; eauto.
  - intros cfg env fuel w w' H.
    destruct (scrape_all_backed cfg env fuel w w' H) as (added & T & B).
    exists added. split; [exact T|].
    intros pre st post E. eapply backed_split; eauto.
Qed.

Lemma sink_before_progress_witness :
  In (EvSave one_post_saved)
     (match _scrape_id_range (init 2 10) (reliable [one_post]) 1 10 fresh with
      | Some (_, w') => w_trace w'
      | None => []
      end) /\
  total_posts_scraped one_post_saved = 0 + 1 /\
  last_processed_id one_post_saved = Z.max 0 7.
Proof.
  destruct (proj1 (proj2 sink_before_progress) (init 2 10) (reliable [one_post]) 1 10 fresh)
    as (k & w' & added & H & T & A).
  assert (E : added = [EvRequest (GetRange 1 10 2 1); EvAppend [one_post];
                       EvSave one_post_saved]).
  { vm_compute in H. inversion H as [[Hk Hw]]. rewrite <- Hw in T. exact (eq_sym T). }
  destruct (A [EvRequest (GetRange 1 10 2 1); EvAppend [one_post]] one_post_saved [])
    as (_ & At & Al); [exact E|].
  split; [|split; [exact At | exact Al]].
  vm_compute. right. right. left. reflexivity.
Defined.

(* ================================================================== *)
(** ** Beyond the engine in one process: files, restarts, readers *)
(* ================================================================== *)

(** Properties of the engine, of the state file across restarts, and of
    the readers of [analyze_posts.py] on the file the engine writes. *)

Import Traces Scenarios Decoder Resume Analysis Observed.

(** *** Traces *)

Lemma requests_of_app tr1 tr2 :
  requests_of (tr1 ++ tr2) = (requests_of tr1 ++ requests_of tr2)%list.
Proof.
  induction tr1 as [|e tr1 IH]; [reflexivity|].
  destruct e; cbn [app requests_of]; rewrite IH; reflexivity.
Qed.

Lemma appended_posts_app tr1 tr2 :
  appended_posts (tr1 ++ tr2) = (appended_posts tr1 ++ appended_posts tr2)%list.
Proof.
  induction tr1 as [|e tr1 IH]; [reflexivity|].
  destruct e; cbn [app appended_posts]; rewrite IH; try reflexivity.
  apply List.app_assoc.
Qed.

Lemma appended_count_posts tr :
  appended_count tr = Z.of_nat (List.length (appended_posts tr)).
Proof.
  induction tr as [|e tr IH]; [reflexivity|].
  destruct e; cbn [appended_count appended_posts]; try exact IH.
  rewrite List.length_app, IH. lia.
Qed.

Lemma appended_ids_posts tr : appended_ids tr = map post_id (appended_posts tr).
Proof.
  induction tr as [|e tr IH]; [reflexivity|].
  destruct e; cbn [appended_ids appended_posts]; try exact IH.
  rewrite List.map_app, IH. reflexivity.
Qed.

Lemma count_fetch_requests tr :
  count is_fetch tr
  = List.length (filter (fun r => match r with GetRange _ _ _ _ => true | _ => false end)
                   (requests_of tr)).
Proof.
  unfold count. induction tr as [|e tr IH]; [reflexivity|].
  destruct e as [r| | | |]; cbn [filter is_fetch requests_of]; try exact IH.
  destruct r; cbn [List.length]; rewrite IH; reflexivity.
Qed.

Lemma fold_max_ge l : forall x, x <= fold_left Z.max l x.
Proof.
  induction l as [|a l IH]; intros x; cbn [fold_left]; [lia|].
  specialize (IH (Z.max x a)). lia.
Qed.

Lemma fold_max_bounds l : forall x, Forall (fun a => a <= fold_left Z.max l x) l.
Proof.
  induction l as [|a l IH]; intros x; cbn [fold_left]; constructor.
  - pose proof (fold_max_ge l (Z.max x a)). lia.
  - apply IH.
Qed.

Lemma fold_max_in l : forall x, fold_left Z.max l x = x \/ In (fold_left Z.max l x) l.
Proof.
  induction l as [|a l IH]; intros x; cbn [fold_left]; [left; reflexivity|].
  destruct (IH (Z.max x a)) as [E|I].
  - rewrite E. destruct (Z.max_spec x a) as [[_ ->]|[_ ->]]; [right; left; reflexivity | left; reflexivity].
  - right. right. exact I.
Qed.

Lemma post_lines_nil : post_lines [] = EmptyString.
Proof. reflexivity. Qed.

Lemma first_chars_length k : forall s,
  (String.length (first_chars k s) <= String.length s)%nat.
Proof.
  induction k as [|k IH]; intros [|c s]; cbn [first_chars String.length]; try lia.
  specialize (IH s). lia.
Qed.

Lemma written_length o (posts : list post) :
  (String.length (written o posts) <= String.length (post_lines posts))%nat.
Proof.
  destruct o; cbn [written String.length]; try lia. apply first_chars_length.
Qed.

(** *** One page *)

Section PageFacts.

Variable env : environment.

Lemma record_page_files posts w :
  exists w2,
    record_page env posts w = Some (tt, w2) /\
    w_output w2
      = w_output w ++ written (output_write env (count is_append (w_trace w))) posts /\
    w_state_file w2
      = match state_write env (count is_save (w_trace w)) with
        | WriteOk => Some (dump_state (w_state w2))
        | OpenFails => w_state_file w
        | WriteFails k => state_file_at (Written k) (w_state_file w) (w_state w2)
        end.
Proof.
  rewrite record_page_eq, save_state_run. eexists. split; [reflexivity|].
  cbn [push with_state_file with_state with_output w_output w_state_file w_state w_trace].
  rewrite count_app. change (count is_save [EvAppend posts]) with 0%nat.
  rewrite Nat.add_0_r.
  split.
  - destruct (output_write env _); cbn [written]; try reflexivity.
    rewrite append_nil_r. reflexivity.
  - destruct (state_write env _); try reflexivity.
    unfold save_finished, state_file_at, dump_state. rewrite List.firstn_all. reflexivity.
Qed.

Lemma record_page_files_inv posts w w2 :
  record_page env posts w = Some (tt, w2) ->
  w_output w2
    = w_output w ++ written (output_write env (count is_append (w_trace w))) posts /\
  w_state_file w2
    = match state_write env (count is_save (w_trace w)) with
      | WriteOk => Some (dump_state (w_state w2))
      | OpenFails => w_state_file w
      | WriteFails k => state_file_at (Written k) (w_state_file w) (w_state w2)
      end.
Proof.
  intros H. destruct (record_page_files posts w) as (w2' & H' & O & F).
  rewrite H in H'. inversion H'. subst. auto.
Qed.

End PageFacts.

(** *** The pagination loop: its requests and the two files *)

(** Induction on a run of the pagination loop that keeps what was done to
    the files by each page. *)
Ltac scan_files :=
  induction 1 as [page n w Hp | page n w w1 Hp F | page n w posts w1 w2 Hp F Hne R Hl
                 | page n w posts w1 w2 k w' Hp F Hne R Hl _ IH];
  [ | apply fetch_inv in F; subst w1
    | apply fetch_inv in F; subst w1;
      pose proof (record_page_files_inv _ _ _ _ R) as [Out File];
      apply record_page_inv in R; destruct R as [T S]
    | apply fetch_inv in F; subst w1;
      pose proof (record_page_files_inv _ _ _ _ R) as [Out File];
      apply record_page_inv in R; destruct R as [T S] ].

Section ScanFiles.

Variable cfg : config.
Variable env : environment.

Lemma scan_pages min_id max_id page n w k w' :
  scan cfg env min_id max_id page n w k w' ->
  exists added j,
    w_trace w' = (w_trace w ++ added)%list /\
    requests_of added = page_run min_id max_id (posts_per_page cfg) page j /\
    count is_fetch added = j.
Proof.
  scan_cases.
  - exists [], 0%nat. rewrite List.app_nil_r. repeat split.
  - exists [EvRequest (range_request cfg min_id max_id page)], 1%nat. repeat split.
  - eexists. exists 1%nat. split.
    + rewrite T. cbn [push w_trace]. rewrite <- List.app_assoc. reflexivity.
    + split; reflexivity.
  - destruct IH as (added & j & Ta & Ra & Ca).
    eexists. exists (Datatypes.S j). split.
    + rewrite Ta. cbn [push w_trace]. rewrite T. cbn [push w_trace].
      rewrite <- !List.app_assoc. reflexivity.
    + cbn [app requests_of page_run]. rewrite Ra. split; [reflexivity|].
      rewrite <- Ca. reflexivity.
Qed.

(** The output file after a run of the pagination loop: what it was, and
    then a text that is no longer than the lines of the records handed to
    the sink; these very lines if the file could always be written. *)
Lemma scan_output min_id max_id page n w k w' :
  scan cfg env min_id max_id page n w k w' ->
  exists added text,
    w_trace w' = (w_trace w ++ added)%list /\
    w_output w' = w_output w ++ text /\
    (String.length text <= String.length (post_lines (appended_posts added)))%nat /\
    ((forall i, output_write env i = WriteOk) ->
     text = post_lines (appended_posts added)) /\
    ((forall i, output_write env i = OpenFails) -> text = EmptyString).
Proof.
  scan_files.
  - exists [], EmptyString. rewrite List.app_nil_r, append_nil_r.
    cbn [appended_posts post_lines map concat_all String.length]. auto.
  - exists [EvRequest (range_request cfg min_id max_id page)], EmptyString.
    cbn [push w_trace w_output]. rewrite append_nil_r.
    cbn [appended_posts post_lines map concat_all String.length]. auto.
  - eexists. eexists. split.
    + rewrite T. cbn [push w_trace]. rewrite <- List.app_assoc. reflexivity.
    + split; [exact Out|]. cbn [app appended_posts]. rewrite List.app_nil_r.
      split; [apply written_length|].
      split; intros Hok; rewrite Hok; reflexivity.
  - destruct IH as (added & text & Ta & Oa & La & Ha & Hb).
    eexists. exists (written (output_write env
                       (count is_append
                          (w_trace (push (EvRequest (range_request cfg min_id max_id page)) w))))
                       posts ++ text).
    split.
    + rewrite Ta. cbn [push w_trace]. rewrite T. cbn [push w_trace].
      rewrite <- !List.app_assoc. reflexivity.
    + split.
      * rewrite Oa. cbn [push w_output]. rewrite Out. cbn [push w_output].
        rewrite append_assoc. reflexivity.
      * cbn [app appended_posts]. rewrite post_lines_app, !length_append.
        split; [pose proof (written_length
                  (output_write env
                     (count is_append
                        (w_trace (push (EvRequest (range_request cfg min_id max_id page)) w))))
                  posts); lia|].
        split; intros Hok; rewrite Hok.
        -- rewrite (Ha Hok). reflexivity.
        -- rewrite (Hb Hok). reflexivity.
Qed.

(** The state file after a run of the pagination loop, when it can always
    be written: untouched, with the state, if no page came; the text of
    the state in memory otherwise. *)
Lemma scan_state_file min_id max_id page n w k w' :
  (forall i, state_write env i = WriteOk) ->
  scan cfg env min_id max_id page n w k w' ->
  (w_state w' = w_state w /\ w_state_file w' = w_state_file w)
  \/ w_state_file w' = Some (dump_state (w_state w')).
Proof.
  intros Hok. scan_files.
  - left. auto.
  - left. auto.
  - right. rewrite File, Hok. reflexivity.
  - destruct IH as [[Es Ef]|Ef].
    + right. rewrite Ef, Es. cbn [push w_state w_state_file].
      rewrite File, Hok. reflexivity.
    + right. exact Ef.
Qed.

End ScanFiles.

(** *** The batch loop and whole runs: requests and files *)

Lemma page_run_asks min_id max_id limit k : forall page,
  Forall (asks_for limit) (page_run min_id max_id limit page k).
Proof.
  induction k as [|k IH]; intros page; cbn [page_run]; constructor.
  - reflexivity.
  - apply IH.
Qed.

Section DriveFiles.

Variable cfg : config.
Variable env : environment.

Lemma save_state_written w w2 :
  _save_state env w = Some (tt, w2) ->
  state_write env (count is_save (w_trace w)) = WriteOk ->
  w_state_file w2 = Some (dump_state (w_state w2)).
Proof.
  rewrite save_state_run. intros H Hok. inversion H. rewrite Hok.
  cbn [push with_state_file with_state w_state_file w_state].
  unfold save_finished, state_file_at, dump_state. rewrite List.firstn_all. reflexivity.
Qed.

Lemma drive_files highest_id current_min_id w w' :
  drive cfg env highest_id current_min_id w w' ->
  exists added text,
    w_trace w' = (w_trace w ++ added)%list /\
    Forall (asks_for (posts_per_page cfg)) (requests_of added) /\
    w_output w' = w_output w ++ text /\
    (String.length text <= String.length (post_lines (appended_posts added)))%nat /\
    ((forall i, output_write env i = WriteOk) ->
     text = post_lines (appended_posts added)) /\
    ((forall i, output_write env i = OpenFails) -> text = EmptyString) /\
    ((forall i, state_write env i = WriteOk) ->
     (added = [] /\ w' = w) \/ w_state_file w' = Some (dump_state (w_state w'))).
Proof.
  induction 1 as [cur w Hc | cur w n w1 w2 w' Hc hi S1 S2 _ IH].
  - exists [], EmptyString. rewrite List.app_nil_r, append_nil_r.
    repeat split; auto.
  - apply scan_of_range in S1.
    destruct (scan_pages _ _ _ _ _ _ _ _ _ S1) as (sc & j & T1 & R1 & _).
    destruct (scan_output _ _ _ _ _ _ _ _ _ S1) as (sc' & wr1 & T1' & O1 & L1 & H1 & B1).
    assert (sc' = sc) by (rewrite T1 in T1'; apply List.app_inv_head in T1'; auto).
    subst sc'. clear T1'.
    pose proof (save_state_written _ _ S2) as F2.
    apply save_state_inv in S2. destruct S2 as (T2 & St2 & O2).
    cbn [with_state w_state w_trace w_output push] in T1, O1, T2, St2, O2.
    destruct IH as (rest & wr2 & T3 & R3 & O3 & L3 & H3 & B3 & F3).
    cbn [push w_state w_trace w_output w_state_file] in T3, O3.
    exists (EvBatch cur hi :: sc ++ EvSave (w_state w2) :: EvSleep :: rest)%list,
           (wr1 ++ wr2).
    split.
    { rewrite T3, T2, T1. rewrite <- !List.app_assoc. reflexivity. }
    split.
    { cbn [requests_of]. rewrite requests_of_app. cbn [requests_of].
      apply Forall_app. split; [|exact R3].
      rewrite R1. apply page_run_asks. }
    split.
    { rewrite O3, O2, O1, append_assoc. reflexivity. }
    split.
    { cbn [appended_posts]. rewrite appended_posts_app.
      cbn [appended_posts]. rewrite post_lines_app, !length_append. lia. }
    split.
    { intros Hok. rewrite (H1 Hok), (H3 Hok).
      cbn [appended_posts]. rewrite appended_posts_app, post_lines_app. reflexivity. }
    split.
    { intros Hok. rewrite (B1 Hok), (B3 Hok). reflexivity. }
    intros Hok. right. destruct (F3 Hok) as [[_ E]|E].
    + rewrite E. cbn [push w_state_file w_state]. apply F2. apply Hok.
    + exact E.
Qed.

Lemma scrape_all_files fuel w w' :
  scrape_all cfg env fuel w = Some (tt, w') ->
  exists added text,
    w_trace w' = (w_trace w ++ EvRequest GetLatest :: added)%list /\
    Forall (asks_for (posts_per_page cfg)) (requests_of added) /\
    w_output w' = w_output w ++ text /\
    (String.length text <= String.length (post_lines (appended_posts added)))%nat /\
    ((forall i, output_write env i = WriteOk) ->
     text = post_lines (appended_posts added)) /\
    ((forall i, output_write env i = OpenFails) -> text = EmptyString) /\
    ((forall i, state_write env i = WriteOk) ->
     (added = [] /\ w' = push (EvRequest GetLatest) w)
     \/ w_state_file w' = Some (dump_state (w_state w'))).
Proof.
  intros H. rewrite scrape_all_eq in H.
  destruct (highest_result _) as [max_id|].
  - apply scrape_batches_drive, drive_files in H.
    destruct H as (added & wr & T & R & O & L & Hw & Hb & Hf).
    exists added, wr. cbn [push w_trace w_output] in T, O.
    rewrite T, <- List.app_assoc. repeat split; assumption.
  - inversion H; subst. exists [], EmptyString.
    cbn [push w_trace w_output]. rewrite append_nil_r.
    repeat split; auto.
Qed.

(** With an output file that can always be written, the lines added by a
    run are the records it has fetched, and their number is the growth of
    the counter. *)
Lemma scrape_all_lines fuel w w' :
  (forall i, output_write env i = WriteOk) ->
  scrape_all cfg env fuel w = Some (tt, w') ->
  exists added,
    w_trace w' = (w_trace w ++ EvRequest GetLatest :: added)%list /\
    w_output w' = w_output w ++ post_lines (appended_posts added) /\
    Z.of_nat (List.length (appended_posts added))
      = total_posts_scraped (w_state w') - total_posts_scraped (w_state w).
Proof.
  intros Hok H.
  destruct (scrape_all_files fuel w w' H) as (added & wr & T & _ & O & _ & Hw & _).
  exists added. rewrite (Hw Hok) in O.
  split; [exact T|]. split; [exact O|].
  rewrite scrape_all_eq in H.
  destruct (highest_result _) as [max_id|].
  - apply scrape_batches_drive, drive_windows in H; [|reflexivity].
    destruct H as (added2 & T2 & _ & _ & Ht & _).
    cbn [push w_trace w_state] in T2, Ht.
    rewrite T2, <- List.app_assoc in T. apply List.app_inv_head in T.
    inversion T; subst added2. rewrite appended_count_posts in Ht. lia.
  - inversion H; subst. cbn [push w_trace] in T.
    apply List.app_inv_head in T. inversion T; subst added.
    cbn [appended_posts List.length push w_state]. lia.
Qed.

End DriveFiles.

(* ================================================================== *)
(** ** The decoder reads back what the encoder writes *)
(* ================================================================== *)

Lemma skip_ws_stop c s : is_ws c = false -> skip_ws (String c s) = String c s.
Proof. intros H. cbn [skip_ws]. rewrite H. reflexivity. Qed.

Lemma skip_ws_skip c s : is_ws c = true -> skip_ws (String c s) = skip_ws s.
Proof. intros H. cbn [skip_ws]. rewrite H. reflexivity. Qed.

Lemma skip_ws_app w : forall s, ws w -> skip_ws (w ++ s) = skip_ws s.
Proof.
  induction w as [|c w IH]; intros s H; [reflexivity|].
  inversion H as [|? ? Hc Hw]; subst.
  cbn [append skip_ws]. rewrite Hc. apply IH, Hw.
Qed.

Lemma scan_string_escape (s : string) : forall rest,
  scan_string (escape s ++ String dquote rest) = Decoded s rest.
Proof.
  induction s as [|c s IH]; intros rest.
  - cbn [escape append scan_string]. rewrite Ascii.eqb_refl. reflexivity.
  - cbn [escape]. rewrite append_assoc.
    destruct c as [[] [] [] [] [] [] [] []];
      match goal with
      | |- scan_string (escape_char ?c ++ _) = _ =>
          let e := eval vm_compute in (escape_char c) in
          change (escape_char c) with e
      end;
      cbn [append];
      match goal with
      | |- scan_string (String ?a (String ?b (String ?c1 (String ?c2 (String ?c3 (String ?c4 ?r)))))) = _ =>
          change (scan_string (String a (String b (String c1 (String c2 (String c3 (String c4 r)))))))
            with (cons_char (ascii_of_nat
                               (16 * match hex_value c3 with Some x => x | None => O end
                                + match hex_value c4 with Some x => x | None => O end))
                    (scan_string r))
      | |- scan_string (String ?a (String ?b ?r)) = _ =>
          change (scan_string (String a (String b r)))
            with (cons_char (match unescape b with Some x => x | None => a end)
                    (scan_string r))
      | |- scan_string (String ?a ?r) = _ =>
          change (scan_string (String a r)) with (cons_char a (scan_string r))
      end;
      rewrite IH; reflexivity.
Qed.

Lemma delimited_no_digit rest : delimited rest = true -> starts_with_digit rest = false.
Proof.
  destruct rest as [|c rest]; [reflexivity|].
  cbn [delimited starts_with_digit].
  destruct c as [[] [] [] [] [] [] [] []]; intros H; try reflexivity;
    vm_compute in H; discriminate.
Qed.

Lemma delimited_no_float rest : delimited rest = true -> goes_on_as_float rest = false.
Proof.
  destruct rest as [|c rest]; [reflexivity|].
  cbn [delimited].
  destruct c as [[] [] [] [] [] [] [] []]; intros H; try reflexivity;
    vm_compute in H; discriminate.
Qed.

Lemma take_digits_uint u rest :
  starts_with_digit rest = false ->
  take_digits (NilEmpty.string_of_uint u ++ rest) = NilEmpty.string_of_uint u.
Proof.
  intros H. induction u; cbn [NilEmpty.string_of_uint append take_digits];
    try (change (is_digit _) with true; cbn iota; rewrite IHu; reflexivity).
  destruct rest as [|c rest]; [reflexivity|].
  cbn [take_digits]. cbn [starts_with_digit] in H. rewrite H. reflexivity.
Qed.

Lemma drop_digits_uint u rest :
  starts_with_digit rest = false ->
  drop_digits (NilEmpty.string_of_uint u ++ rest) = rest.
Proof.
  intros H. induction u; cbn [NilEmpty.string_of_uint append drop_digits];
    try (change (is_digit _) with true; cbn iota; exact IHu).
  destruct rest as [|c rest]; [reflexivity|].
  cbn [drop_digits]. cbn [starts_with_digit] in H. rewrite H. reflexivity.
Qed.

Lemma scan_digits_uint sign u rest :
  trimmed u ->
  delimited rest = true ->
  scan_digits sign (NilEmpty.string_of_uint u ++ rest) =
  finish_number (sign ++ NilEmpty.string_of_uint u) rest.
Proof.
  intros [Hn Hz] D. pose proof (delimited_no_digit rest D) as N.
  destruct u; try congruence; cbn [NilEmpty.string_of_uint append scan_digits];
    try (change (Ascii.eqb _ "0") with false; change (is_digit19 _) with true;
         cbn iota; rewrite take_digits_uint, drop_digits_uint by exact N;
         reflexivity).
  rewrite (Hz u eq_refl). reflexivity.
Qed.

Lemma finish_int_str n rest :
  delimited rest = true ->
  finish_number (int_str n) rest = Decoded (JInt n) rest.
Proof.
  intros D. unfold finish_number.
  rewrite (delimited_no_float rest D), int_of_int_str, DecimalZ.of_to.
  reflexivity.
Qed.

Lemma scan_number_int_str n rest :
  delimited rest = true ->
  scan_number (int_str n ++ rest) = Decoded (JInt n) rest.
Proof.
  intros D. rewrite <- (finish_int_str n rest D).
  unfold int_str. pose proof (to_int_trimmed n) as T.
  destruct (Z.to_int n) as [u|u]; cbn [NilZero.string_of_int];
    rewrite (string_of_trimmed u T).
  - pose proof (scan_digits_uint EmptyString u rest T D) as E.
    cbn [append] in E. rewrite <- E.
    destruct T as [Hn Hz].
    destruct u; try congruence; reflexivity.
  - pose proof (scan_digits_uint "-" u rest T D) as E.
    cbn [append] in E |- *. rewrite <- E.
    destruct T as [Hn Hz].
    destruct u; try congruence; reflexivity.
Qed.

(** A number is read by [scan_number]: its first character is a digit or
    the minus sign. *)
Lemma int_str_first n :
  exists c r, int_str n = String c r /\ is_int_char c = true.
Proof.
  unfold int_str. pose proof (to_int_trimmed n) as T.
  destruct (Z.to_int n) as [u|u]; cbn [NilZero.string_of_int];
    rewrite (string_of_trimmed u T).
  - destruct T as [Hn _]. destruct u; try congruence;
      cbn [NilEmpty.string_of_uint]; eexists _, _; split; reflexivity.
  - eexists _, _; split; reflexivity.
Qed.

Lemma scan_value_number fuel c r :
  is_int_char c = true ->
  scan_value (S fuel) (String c r) = scan_number (String c r).
Proof.
  destruct c as [[] [] [] [] [] [] [] []]; intros H;
    try (vm_compute in H; discriminate); reflexivity.
Qed.

Lemma scan_value_int fuel n rest :
  delimited rest = true ->
  scan_value (S fuel) (int_str n ++ rest) = Decoded (JInt n) rest.
Proof.
  intros D. destruct (int_str_first n) as (c & r & E & Hc).
  rewrite <- (scan_number_int_str n rest D). rewrite E. cbn [append].
  apply scan_value_number, Hc.
Qed.

Lemma int_char_first c :
  is_int_char c = true ->
  is_ws c = false /\ Ascii.eqb c "]" = false /\
  Ascii.eqb (ascii_of_nat 239) c = false.
Proof.
  destruct c as [[] [] [] [] [] [] [] []]; intros H;
    try (vm_compute in H; discriminate); repeat split.
Qed.

Lemma float_str_first f :
  exists c r,
    float_str f = String c r /\ is_ws c = false /\ Ascii.eqb c "]" = false /\
    Ascii.eqb (ascii_of_nat 239) c = false.
Proof.
  destruct f as [| [] | [] int_part frac exp]; cbn [float_str];
    try (eexists _, _; repeat split; reflexivity).
  destruct (int_str_first (Z.of_N int_part)) as (c & r & E & Hc).
  rewrite E. cbn [append]. eexists _, _. split; [reflexivity|].
  apply int_char_first, Hc.
Qed.

(** The first character of a value as [dumps] writes it: no white space,
    no closing bracket, and not the first byte of a byte order mark. *)
Lemma dumps_first v :
  exists c r,
    dumps v = String c r /\ is_ws c = false /\ Ascii.eqb c "]" = false /\
    Ascii.eqb (ascii_of_nat 239) c = false.
Proof.
  destruct v as [| [] | n | f | s | items | members]; cbn [dumps];
    try (eexists _, _; repeat split; reflexivity).
  - destruct (int_str_first n) as (c & r & E & Hc). exists c, r. split; [exact E|].
    apply int_char_first, Hc.
  - apply float_str_first.
Qed.

Lemma skip_ws_dumps v rest : skip_ws (dumps v ++ rest) = dumps v ++ rest.
Proof.
  destruct (dumps_first v) as (c & r & E & Hc & _). rewrite E. cbn [append].
  apply skip_ws_stop, Hc.
Qed.

(** *** Dicts with distinct keys *)

Lemma dict_set_new k v d :
  existsb (String.eqb k) (map fst d) = false ->
  dict_set k v d = (d ++ [(k, v)])%list.
Proof.
  induction d as [|[k' v'] d IH]; intros H; [reflexivity|].
  cbn [map fst existsb] in H. apply orb_false_iff in H. destruct H as [H1 H2].
  cbn [dict_set List.app]. rewrite H1, IH by exact H2. reflexivity.
Qed.

Lemma existsb_app_false k (a b : list string) :
  existsb (String.eqb k) (a ++ b) = false <->
  existsb (String.eqb k) a = false /\ existsb (String.eqb k) b = false.
Proof. rewrite List.existsb_app. apply orb_false_iff. Qed.

Lemma fold_dict_set (ms : list (string * json)) : forall d,
  distinct (map fst ms) = true ->
  (forall k, In k (map fst ms) -> existsb (String.eqb k) (map fst d) = false) ->
  fold_left (fun d kv => dict_set (fst kv) (snd kv) d) ms d = (d ++ ms)%list.
Proof.
  induction ms as [|[k v] ms IH]; intros d Hd Hnew.
  - cbn [fold_left]. rewrite List.app_nil_r. reflexivity.
  - cbn [map fst distinct] in Hd. apply andb_true_iff in Hd. destruct Hd as [Hk Hd].
    apply negb_true_iff in Hk.
    cbn [fold_left fst snd].
    rewrite dict_set_new by (apply Hnew; left; reflexivity).
    rewrite IH.
    + rewrite <- List.app_assoc. reflexivity.
    + exact Hd.
    + intros k' Hin. rewrite List.map_app. apply existsb_app_false. split.
      * apply Hnew. right. exact Hin.
      * cbn [map fst existsb]. rewrite orb_false_r.
        destruct (String.eqb k' k) eqn:E; [|reflexivity].
        apply String.eqb_eq in E. subst k'.
        exfalso. clear - Hk Hin.
        assert (X : existsb (String.eqb k) (map fst ms) = true).
        { apply List.existsb_exists. exists k. split; [exact Hin | apply String.eqb_refl]. }
        congruence.
Qed.

Lemma dict_of_distinct ms : distinct (map fst ms) = true -> dict_of_pairs ms = ms.
Proof.
  intros H. unfold dict_of_pairs. rewrite fold_dict_set; [reflexivity | exact H |].
  intros k _. reflexivity.
Qed.

(** *** Items and members *)

Lemma scan_elements_text (items : list json) : forall fuel rest,
  items <> [] ->
  Forall reads_back items ->
  (weight_items items <= fuel)%nat ->
  scan_elements fuel (join ", " (map dumps items) ++ String "]" rest) =
  Decoded items rest.
Proof.
  induction items as [|x items IH]; intros fuel rest Hne Hall Hf; [congruence|].
  inversion Hall as [|? ? Hx Hrest]; subst.
  cbn [weight_items fold_right] in Hf. fold (weight_items items) in Hf.
  destruct fuel as [|fuel]; [lia|].
  destruct items as [|y items].
  - cbn [map join scan_elements].
    rewrite (Hx fuel) by (try reflexivity; lia).
    reflexivity.
  - change (join ", " (map dumps (x :: y :: items)))
      with (dumps x ++ ", " ++ join ", " (map dumps (y :: items))).
    rewrite !append_assoc. cbn [scan_elements].
    rewrite (Hx fuel) by (try reflexivity; lia).
    cbn [and_then append skip_ws].
    change (is_ws ",") with false. cbn iota.
    change (Ascii.eqb "," "]") with false. change (Ascii.eqb "," ",") with true.
    cbn iota. change (is_ws " ") with true. cbn iota.
    assert (S : skip_ws (join ", " (map dumps (y :: items)) ++ String "]" rest)
                = join ", " (map dumps (y :: items)) ++ String "]" rest).
    { destruct items as [|z items].
      - cbn [map join]. apply skip_ws_dumps.
      - change (join ", " (map dumps (y :: z :: items)))
          with (dumps y ++ ", " ++ join ", " (map dumps (z :: items))).
        rewrite !append_assoc. apply skip_ws_dumps. }
    pose proof (IH fuel rest ltac:(discriminate) Hrest ltac:(lia)) as R.
    cbn [append] in S, R |- *. cbn [skip_ws]. change (is_ws " ") with true.
    cbn iota. rewrite S, R.
    reflexivity.
Qed.

Lemma member_text_first kv rest :
  exists r, member_text kv ++ rest = String dquote r.
Proof. unfold member_text, encode_basestring. cbn [append]. eexists. reflexivity. Qed.

Lemma members_first sep (ms : list (string * json)) rest :
  ms <> [] ->
  exists r, join sep (map member_text ms) ++ rest = String dquote r.
Proof.
  intros Hne. destruct ms as [|m [|m' ms]]; [congruence | |].
  - cbn [map join]. apply member_text_first.
  - change (join sep (map member_text (m :: m' :: ms)))
      with (member_text m ++ sep ++ join sep (map member_text (m' :: ms))).
    rewrite append_assoc. apply member_text_first.
Qed.

Lemma skip_ws_members sep (ms : list (string * json)) rest :
  ms <> [] ->
  skip_ws (join sep (map member_text ms) ++ rest) =
  join sep (map member_text ms) ++ rest.
Proof.
  intros Hne. destruct (members_first sep ms rest Hne) as (r & ->).
  apply skip_ws_stop. reflexivity.
Qed.

Lemma delimited_ws_brace w rest : ws w -> delimited (w ++ String "}" rest) = true.
Proof.
  intros H. destruct H as [|c s Hc Hs]; [reflexivity|].
  cbn [append delimited]. rewrite Hc. reflexivity.
Qed.

Lemma scan_member_text fuel k v tail :
  reads_back v ->
  (weight v <= fuel)%nat ->
  delimited tail = true ->
  scan_members (S fuel) (member_text (k, v) ++ tail) = after_member fuel (k, v) tail.
Proof.
  intros Hv Hf D. unfold member_text, encode_basestring, after_member. cbn [fst snd].
  cbn [append scan_members]. rewrite Ascii.eqb_refl.
  rewrite !append_assoc. unfold str1. cbn [append].
  rewrite scan_string_escape.
  cbn [and_then]. rewrite skip_ws_stop by reflexivity.
  change (Ascii.eqb ":" ":") with true. cbn iota.
  rewrite skip_ws_skip by reflexivity.
  rewrite skip_ws_dumps, (Hv fuel tail Hf D). reflexivity.
Qed.

(** The members of a dict, separated by a comma and white space, up to
    the closing brace: the separators of [dumps] and those of
    [json.dump] with an indentation are both of that kind. *)
Lemma scan_members_text sep close (ms : list (string * json)) : forall fuel rest,
  ws sep -> ws close ->
  ms <> [] ->
  Forall (fun kv => reads_back (snd kv)) ms ->
  (weight_members ms <= fuel)%nat ->
  scan_members fuel
    (join (String "," sep) (map member_text ms) ++ close ++ String "}" rest) =
  Decoded ms rest.
Proof.
  intros fuel rest Hsep Hclose. revert fuel.
  induction ms as [|[k v] ms IH]; intros fuel Hne Hall Hf; [congruence|].
  inversion Hall as [|? ? Hv Hrest]; subst. cbn [snd] in Hv.
  cbn [weight_members fold_right snd] in Hf. fold (weight_members ms) in Hf.
  destruct fuel as [|fuel]; [lia|].
  destruct ms as [|m ms].
  - cbn [map join].
    rewrite scan_member_text by
      (try exact Hv; try lia; apply delimited_ws_brace, Hclose).
    unfold after_member. rewrite skip_ws_app by exact Hclose.
    reflexivity.
  - change (join (String "," sep) (map member_text ((k, v) :: m :: ms)))
      with (member_text (k, v) ++ String "," sep
            ++ join (String "," sep) (map member_text (m :: ms))).
    rewrite append_assoc. cbn [append]. rewrite append_assoc.
    rewrite scan_member_text by (try exact Hv; try lia; reflexivity).
    unfold after_member. cbn [skip_ws]. change (is_ws ",") with false. cbn iota.
    change (Ascii.eqb "," "}") with false. change (Ascii.eqb "," ",") with true.
    cbn iota.
    rewrite skip_ws_app by exact Hsep.
    rewrite skip_ws_members by discriminate.
    rewrite (IH fuel) by (try discriminate; try assumption; lia).
    reflexivity.
Qed.

Lemma ws_single c : is_ws c = true -> ws (str1 c).
Proof. intros H. apply ws_cons; [exact H | apply ws_nil]. Qed.

Lemma dumps_members_text members :
  dumps (JObj members) = "{" ++ join ", " (map member_text members) ++ "}".
Proof.
  cbn [dumps]. do 3 f_equal. apply List.map_ext. intros [k x]. reflexivity.
Qed.

(** [json.loads(json.dumps(v))] is [v], at the level of the scanner and
    with any text after the value that lets it end. *)
Lemma dumps_reads_back v : is_value v = true -> reads_back v.
Proof.
  induction v as [| b | n | f | s | items IH | members IH] using json_ind;
    intros Hv fuel rest Hf D; cbn [weight] in Hf;
    (destruct fuel as [|fuel]; [lia|]).
  - reflexivity.
  - destruct b; reflexivity.
  - apply scan_value_int, D.
  - cbn [is_value] in Hv. discriminate.
  - cbn [dumps]. unfold encode_basestring. cbn [append scan_value].
    rewrite Ascii.eqb_refl. rewrite append_assoc. unfold str1. cbn [append].
    rewrite scan_string_escape. reflexivity.
  - cbn [is_value] in Hv.
    assert (All : Forall reads_back items).
    { clear - IH Hv. induction IH as [|x items Hx _ IHr]; [constructor|].
      cbn [forallb] in Hv. apply andb_true_iff in Hv. destruct Hv as [H1 H2].
      constructor; [apply Hx, H1 | apply IHr, H2]. }
    destruct items as [|x items]; [reflexivity|].
    cbn [dumps]. cbn [append]. rewrite append_assoc. cbn [append scan_value].
    change (Ascii.eqb "[" dquote) with false. change (Ascii.eqb "[" "{") with false.
    change (Ascii.eqb "[" "[") with true. cbn iota.
    assert (S : exists c r,
              join ", " (map dumps (x :: items)) ++ String "]" rest = String c r /\
              is_ws c = false /\ Ascii.eqb c "]" = false).
    { destruct (dumps_first x) as (c & r & E & Hc & Hb & _).
      destruct items as [|y items].
      - cbn [map join]. rewrite E. cbn [append]. eexists _, _. repeat split; assumption.
      - change (join ", " (map dumps (x :: y :: items)))
          with (dumps x ++ ", " ++ join ", " (map dumps (y :: items))).
        rewrite E. cbn [append]. eexists _, _. repeat split; assumption. }
    destruct S as (c & r & E & Hc & Hb).
    pose proof (scan_elements_text (x :: items) fuel rest ltac:(discriminate) All
                  ltac:(fold (weight_items (x :: items)) in Hf; lia)) as R.
    rewrite E in R |- *. rewrite skip_ws_stop by exact Hc. rewrite Hb, R.
    reflexivity.
  - cbn [is_value] in Hv. apply andb_true_iff in Hv. destruct Hv as [Hk Hv].
    assert (All : Forall (fun kv => reads_back (snd kv)) members).
    { clear - IH Hv. induction IH as [|x ms Hx _ IHr]; [constructor|].
      cbn [forallb] in Hv. apply andb_true_iff in Hv. destruct Hv as [H1 H2].
      constructor; [apply Hx, H1 | apply IHr, H2]. }
    destruct members as [|m members]; [reflexivity|].
    rewrite dumps_members_text. cbn [append]. rewrite append_assoc.
    cbn [append scan_value].
    change (Ascii.eqb "{" dquote) with false. change (Ascii.eqb "{" "{") with true.
    cbn iota.
    pose proof (scan_members_text " " EmptyString (m :: members) fuel rest
                  (ws_single " " eq_refl) ws_nil ltac:(discriminate) All
                  ltac:(fold (weight_members (m :: members)) in Hf; lia)) as R.
    cbn [append] in R.
    destruct (members_first ", " (m :: members) (String "}" rest) ltac:(discriminate))
      as (r & E).
    cbn [append] in E. cbn [append].
    rewrite E in R |- *. rewrite skip_ws_stop by reflexivity.
    change (Ascii.eqb dquote "}") with false. rewrite Ascii.eqb_refl. cbn iota.
    rewrite R. cbn [and_then]. rewrite dict_of_distinct by exact Hk. reflexivity.
Qed.

(** *** The fuel of [loads] is enough for what [dumps] writes *)

Lemma int_str_length n : (1 <= String.length (int_str n))%nat.
Proof.
  destruct (int_str_first n) as (c & r & E & _). rewrite E. cbn [String.length]. lia.
Qed.

Lemma weight_items_length (items : list json) :
  Forall (fun v => (weight v <= String.length (dumps v))%nat) items ->
  (weight_items items <= String.length (join ", " (map dumps items)) + 1)%nat.
Proof.
  induction 1 as [|x items Hx _ IH]; [cbn; lia|].
  cbn [weight_items fold_right]. fold (weight_items items).
  destruct items as [|y items].
  - cbn [map join weight_items fold_right]. lia.
  - change (join ", " (map dumps (x :: y :: items)))
      with (dumps x ++ ", " ++ join ", " (map dumps (y :: items))).
    rewrite !length_append. cbn [String.length]. lia.
Qed.

Lemma member_text_length k v :
  (weight v <= String.length (dumps v))%nat ->
  (weight v + 4 <= String.length (member_text (k, v)))%nat.
Proof.
  intros H. unfold member_text, encode_basestring, str1. cbn [fst snd].
  cbn [append String.length]. rewrite !length_append. cbn [String.length]. lia.
Qed.

Lemma weight_members_length (members : list (string * json)) :
  Forall (fun kv => (weight (snd kv) <= String.length (dumps (snd kv)))%nat) members ->
  (weight_members members
   <= String.length (join ", " (map member_text members)) + 1)%nat.
Proof.
  induction 1 as [|[k v] members Hx _ IH]; [cbn; lia|].
  cbn [weight_members fold_right snd]. fold (weight_members members).
  cbn [snd] in Hx. pose proof (member_text_length k v Hx) as L.
  destruct members as [|m members].
  - cbn [map join weight_members fold_right]. lia.
  - change (join ", " (map member_text ((k, v) :: m :: members)))
      with (member_text (k, v) ++ ", " ++ join ", " (map member_text (m :: members))).
    rewrite !length_append. cbn [String.length]. lia.
Qed.

Lemma weight_length v : (weight v <= String.length (dumps v))%nat.
Proof.
  induction v as [| b | n | f | s | items IH | members IH] using json_ind.
  - cbn. lia.
  - destruct b; cbn; lia.
  - cbn [weight dumps]. apply int_str_length.
  - cbn [weight dumps]. destruct (float_str_first f) as (c & r & E & _).
    rewrite E. cbn [String.length]. lia.
  - cbn [weight dumps]. unfold encode_basestring. cbn [String.length]. lia.
  - pose proof (weight_items_length items IH) as L.
    cbn [weight dumps]. fold (weight_items items).
    cbn [append String.length]. rewrite length_append. cbn [String.length]. lia.
  - pose proof (weight_members_length members IH) as L.
    rewrite dumps_members_text.
    cbn [weight]. fold (weight_members members).
    cbn [append String.length]. rewrite length_append. cbn [String.length]. lia.
Qed.

(** *** [json.loads] after [json.dumps] *)





Lemma ws_nl : ws nl.
Proof. apply ws_single. reflexivity. Qed.


(** *** The state file *)

Lemma state_values_read_back st :
  Forall (fun kv => reads_back (snd kv)) (state_members st).
Proof.
  unfold state_members.
  destruct (last_update st), (current_batch_start st);
    repeat constructor; cbn [snd]; apply dumps_reads_back; reflexivity.
Qed.

Lemma state_keys_distinct st : distinct (map fst (state_members st)) = true.
Proof.
  unfold state_members. destruct (current_batch_start st); reflexivity.
Qed.

Lemma state_members_first st :
  exists v ms, state_members st = ("last_processed_id", v) :: ms.
Proof. unfold state_members. cbn [List.app]. eexists _, _. reflexivity. Qed.

(** The chunks of the members after the first one: every member comes
    after its separator. *)
Lemma member_chunks_cons first k v ms :
  concat_all (member_chunks first ((k, v) :: ms)) =
  (if first then EmptyString else String "," (nl ++ "  "))
  ++ member_text (k, v) ++ concat_all (member_chunks false ms).
Proof.
  cbn [member_chunks]. rewrite !concat_all_app.
  destruct first; unfold member_text; cbn [fst snd concat_all append];
    rewrite ?append_nil_r, ?append_assoc; cbn [append]; reflexivity.
Qed.

Lemma member_chunks_join ms : forall k v,
  concat_all (member_chunks true ((k, v) :: ms)) =
  join (String "," (nl ++ "  ")) (map member_text ((k, v) :: ms)).
Proof.
  induction ms as [|[k' v'] ms IH]; intros k v.
  - rewrite member_chunks_cons. cbn [member_chunks concat_all map join append].
    apply append_nil_r.
  - rewrite member_chunks_cons.
    change (join (String "," (nl ++ "  ")) (map member_text ((k, v) :: (k', v') :: ms)))
      with (member_text (k, v) ++ String "," (nl ++ "  ")
            ++ join (String "," (nl ++ "  ")) (map member_text ((k', v') :: ms))).
    rewrite <- IH, !member_chunks_cons. cbn [append]. reflexivity.
Qed.

Lemma dump_state_text st :
  dump_state st =
  String "{" ((nl ++ "  ")
    ++ join (String "," (nl ++ "  ")) (map member_text (state_members st))
    ++ nl ++ String "}" EmptyString).
Proof.
  unfold dump_state, dump_chunks.
  destruct (state_members_first st) as (v & ms & E). rewrite E.
  rewrite <- member_chunks_join.
  cbn [List.app concat_all]. rewrite concat_all_app.
  cbn [concat_all append]. rewrite ?append_assoc. reflexivity.
Qed.

Lemma ws_indent : ws (nl ++ "  ").
Proof. repeat (apply ws_cons; [reflexivity|]). apply ws_nil. Qed.

Lemma weight_state_members st : (weight_members (state_members st) <= 8)%nat.
Proof.
  unfold state_members.
  destruct (last_update st), (current_batch_start st); cbn; lia.
Qed.

Lemma scan_dump_state st fuel :
  (10 <= fuel)%nat ->
  scan_value fuel (dump_state st) = Decoded (JObj (state_members st)) EmptyString.
Proof.
  intros Hf. destruct fuel as [|fuel]; [lia|].
  rewrite dump_state_text. cbn [scan_value].
  change (Ascii.eqb "{" dquote) with false. change (Ascii.eqb "{" "{") with true.
  cbn iota.
  destruct (state_members_first st) as (v & ms & E).
  rewrite skip_ws_app by apply ws_indent.
  rewrite skip_ws_members by (rewrite E; discriminate).
  pose proof (scan_members_text (nl ++ "  ") nl (state_members st) fuel EmptyString
                ws_indent ws_nl ltac:(rewrite E; discriminate)
                (state_values_read_back st)
                ltac:(pose proof (weight_state_members st); lia)) as R.
  destruct (members_first (String "," (nl ++ "  ")) (state_members st)
              (nl ++ String "}" EmptyString) ltac:(rewrite E; discriminate))
    as (r & T).
  rewrite T in R |- *.
  change (Ascii.eqb dquote "}") with false. rewrite Ascii.eqb_refl. cbn iota.
  rewrite R. cbn [and_then].
  rewrite dict_of_distinct by apply state_keys_distinct. reflexivity.
Qed.

Lemma loads_dump_state st : loads (dump_state st) = Value (JObj (state_members st)).
Proof.
  unfold loads.
  assert (B : strip_prefix bom (dump_state st) = None)
    by (rewrite dump_state_text; reflexivity).
  assert (W : skip_ws (dump_state st) = dump_state st)
    by (rewrite dump_state_text; reflexivity).
  rewrite B, W, scan_dump_state; [reflexivity|].
  rewrite dump_state_text. cbn [append String.length].
  destruct (state_members_first st) as (v & ms & E). rewrite E.
  destruct ms as [|m ms].
  - cbn [map join]. unfold member_text, encode_basestring, nl, str1.
    cbn [fst snd append String.length]. lia.
  - change (join (String "," (nl ++ "  ")) (map member_text (("last_processed_id", v) :: m :: ms)))
      with (member_text ("last_processed_id", v) ++ String "," (nl ++ "  ")
            ++ join (String "," (nl ++ "  ")) (map member_text (m :: ms))).
    unfold member_text at 1, encode_basestring, nl, str1.
    cbn [fst snd append String.length]. lia.
Qed.

Lemma state_of_state_members st : state_of_dict (JObj (state_members st)) = Some st.
Proof.
  destruct st as [a b [t|] [c|]]; reflexivity.
Qed.

(** *** A state file cut short *)

Lemma after_member_torn (ms : list (string * json)) : forall k fuel kv,
  Forall (fun m => reads_back (snd m)) ms ->
  (k <= List.length (member_chunks false ms) + 1)%nat ->
  (String.length (concat_all (firstn k (member_chunks false ms ++ [nl]))) + 2
   <= fuel)%nat ->
  delimited (concat_all (firstn k (member_chunks false ms ++ [nl]))) = true /\
  after_member fuel kv (concat_all (firstn k (member_chunks false ms ++ [nl])))
  = DecodeError.
Proof.
  induction ms as [|[k1 v1] ms IH]; intros k fuel kv Hall Hk Hf.
  - cbn [member_chunks List.app List.length] in *.
    destruct k as [|[|k]]; [split; reflexivity | split; reflexivity | lia].
  - inversion Hall as [|? ? Hv Hrest]; subst. cbn [snd] in Hv.
    cbn [member_chunks List.app List.length] in Hk, Hf |- *.
    destruct fuel as [|fuel]; [lia|]. destruct fuel as [|fuel]; [lia|].
    destruct k as [|[|[|[|k]]]].
    + split; reflexivity.
    + split; reflexivity.
    + split; [reflexivity|].
      unfold encode_basestring, nl, str1. cbn [firstn concat_all append].
      unfold after_member.
      rewrite skip_ws_stop by reflexivity.
      change (Ascii.eqb "," "}") with false. change (Ascii.eqb "," ",") with true.
      cbn iota.
      rewrite !skip_ws_skip by reflexivity. rewrite skip_ws_stop by reflexivity.
      cbn [scan_members]. rewrite Ascii.eqb_refl.
      rewrite !append_assoc. cbn [append]. rewrite scan_string_escape.
      reflexivity.
    + split; [reflexivity|].
      unfold encode_basestring, nl, str1. cbn [firstn concat_all append].
      unfold after_member.
      rewrite skip_ws_stop by reflexivity.
      change (Ascii.eqb "," "}") with false. change (Ascii.eqb "," ",") with true.
      cbn iota.
      rewrite !skip_ws_skip by reflexivity. rewrite skip_ws_stop by reflexivity.
      cbn [scan_members]. rewrite Ascii.eqb_refl.
      rewrite !append_assoc. cbn [append]. rewrite scan_string_escape.
      cbn [and_then]. rewrite skip_ws_stop by reflexivity.
      change (Ascii.eqb ":" ":") with true. cbn iota.
      rewrite skip_ws_skip by reflexivity.
      destruct fuel; reflexivity.
    + cbn [firstn concat_all] in Hf |- *.
      set (tail := concat_all (firstn k (member_chunks false ms ++ [nl]))) in *.
      assert (E : ("," ++ nl ++ "  ") ++ encode_basestring k1 ++ ": " ++ dumps v1 ++ tail
                  = String "," ((nl ++ "  ") ++ member_text (k1, v1) ++ tail)).
      { unfold member_text. cbn [fst snd]. rewrite !append_assoc. reflexivity. }
      rewrite E in Hf |- *. clear E.
      split; [reflexivity|].
      cbn [String.length] in Hf. rewrite !length_append in Hf.
      pose proof (member_text_length k1 v1 (weight_length v1)) as L.
      destruct (IH k (S fuel) (k1, v1) Hrest ltac:(lia) ltac:(fold tail; lia)) as [D T].
      fold tail in D, T.
      unfold after_member at 1.
      rewrite skip_ws_stop by reflexivity.
      change (Ascii.eqb "," "}") with false. change (Ascii.eqb "," ",") with true.
      cbn iota.
      rewrite skip_ws_app by apply ws_indent.
      destruct (member_text_first (k1, v1) tail) as (r & Er).
      rewrite Er, skip_ws_stop by reflexivity. rewrite <- Er.
      rewrite scan_member_text by (try exact Hv; try exact D; lia).
      rewrite T. reflexivity.
Qed.

Lemma firstn_before_last {A : Type} (a : list A) (x y : A) k :
  (k <= List.length a + 1)%nat ->
  firstn k (a ++ [x; y]) = firstn k (a ++ [x]).
Proof.
  revert k. induction a as [|z a IH]; intros k Hk.
  - destruct k as [|[|k]]; try reflexivity. cbn [List.length] in Hk. lia.
  - destruct k as [|k]; [reflexivity|].
    cbn [List.app firstn]. f_equal. apply IH. cbn [List.length] in Hk. lia.
Qed.

(** A dict of scalars that [json.dump] has not finished writing: at
    every chunk but the last, what is in the file is no JSON text. *)
Lemma loads_torn k1 v1 (ms : list (string * json)) k :
  reads_back v1 ->
  Forall (fun m => reads_back (snd m)) ms ->
  (k < 7 + List.length (member_chunks false ms))%nat ->
  loads (concat_all
           (firstn k ("{" :: (nl ++ "  ") :: encode_basestring k1 :: ": "
                      :: dumps v1 :: member_chunks false ms ++ [nl; "}"])))
  = Raises.
Proof.
  intros Hv Hall Hk. unfold loads.
  destruct k as [|[|[|[|[|k]]]]].
  - reflexivity.
  - reflexivity.
  - reflexivity.
  - unfold encode_basestring, nl, str1. cbn [firstn concat_all append].
    cbn [strip_prefix bom str1]. change (Ascii.eqb (ascii_of_nat 239) "{") with false.
    cbn iota. rewrite skip_ws_stop by reflexivity.
    rewrite Nat.add_comm. cbn [Nat.add scan_value].
    change (Ascii.eqb "{" dquote) with false. change (Ascii.eqb "{" "{") with true.
    cbn iota.
    rewrite !skip_ws_skip by reflexivity. rewrite skip_ws_stop by reflexivity.
    change (Ascii.eqb dquote "}") with false. rewrite Ascii.eqb_refl. cbn iota.
    cbn [String.length Nat.mul Nat.add scan_members]. rewrite Ascii.eqb_refl.
    rewrite !append_assoc. cbn [append]. rewrite scan_string_escape.
    reflexivity.
  - unfold encode_basestring, nl, str1. cbn [firstn concat_all append].
    cbn [strip_prefix bom str1]. change (Ascii.eqb (ascii_of_nat 239) "{") with false.
    cbn iota. rewrite skip_ws_stop by reflexivity.
    rewrite Nat.add_comm. cbn [Nat.add scan_value].
    change (Ascii.eqb "{" dquote) with false. change (Ascii.eqb "{" "{") with true.
    cbn iota.
    rewrite !skip_ws_skip by reflexivity. rewrite skip_ws_stop by reflexivity.
    change (Ascii.eqb dquote "}") with false. rewrite Ascii.eqb_refl. cbn iota.
    cbn [String.length Nat.mul Nat.add scan_members]. rewrite Ascii.eqb_refl.
    rewrite !append_assoc. cbn [append]. rewrite scan_string_escape.
    cbn [and_then]. rewrite skip_ws_stop by reflexivity.
    change (Ascii.eqb ":" ":") with true. cbn iota.
    rewrite skip_ws_skip by reflexivity.
    cbn [skip_ws]. rewrite Nat.add_comm. reflexivity.
  - cbn [firstn]. rewrite firstn_before_last by lia.
    cbn [concat_all].
    set (tail := concat_all (firstn k (member_chunks false ms ++ [nl]))).
    assert (E : "{" ++ (nl ++ "  ") ++ encode_basestring k1 ++ ": " ++ dumps v1 ++ tail
                = String "{" ((nl ++ "  ") ++ member_text (k1, v1) ++ tail)).
    { unfold member_text. cbn [fst snd]. rewrite !append_assoc. reflexivity. }
    rewrite E. clear E.
    cbn [strip_prefix bom str1]. change (Ascii.eqb (ascii_of_nat 239) "{") with false.
    cbn iota. rewrite skip_ws_stop by reflexivity.
    remember (2 * String.length (String "{" ((nl ++ "  ") ++ member_text (k1, v1) ++ tail)) + 2)%nat
      as fuel eqn:Ef.
    cbn [String.length] in Ef. rewrite !length_append in Ef.
    pose proof (member_text_length k1 v1 (weight_length v1)) as L.
    destruct fuel as [|fuel]; [lia|]. destruct fuel as [|fuel]; [lia|].
    destruct (after_member_torn ms k fuel (k1, v1) Hall ltac:(lia)
                ltac:(fold tail; lia)) as [D T].
    fold tail in D, T.
    cbn [scan_value].
    change (Ascii.eqb "{" dquote) with false. change (Ascii.eqb "{" "{") with true.
    cbn iota.
    rewrite skip_ws_app by apply ws_indent.
    destruct (member_text_first (k1, v1) tail) as (r & Er).
    rewrite Er, skip_ws_stop by reflexivity.
    change (Ascii.eqb dquote "}") with false. rewrite Ascii.eqb_refl. cbn iota.
    rewrite <- Er.
    rewrite scan_member_text by (try exact Hv; try exact D; lia).
    rewrite T. reflexivity.
Qed.

Lemma dump_chunks_shape st :
  exists v ms,
    state_members st = ("last_processed_id", v) :: ms /\
    dump_chunks st =
    "{" :: (nl ++ "  ") :: encode_basestring "last_processed_id" :: ": "
    :: dumps v :: member_chunks false ms ++ [nl; "}"].
Proof.
  destruct (state_members_first st) as (v & ms & E). exists v, ms. split; [exact E|].
  unfold dump_chunks. rewrite E. reflexivity.
Qed.

Lemma loads_torn_state st k :
  (k < List.length (dump_chunks st))%nat ->
  loads (concat_all (firstn k (dump_chunks st))) = Raises.
Proof.
  intros Hk. destruct (dump_chunks_shape st) as (v & ms & E & C).
  pose proof (state_values_read_back st) as R. rewrite E in R.
  inversion R as [|? ? Hv Hrest]; subst. cbn [snd] in Hv.
  rewrite C in Hk |- *. apply loads_torn; [exact Hv | exact Hrest |].
  cbn [List.length] in Hk. rewrite List.length_app in Hk. cbn [List.length] in Hk. lia.
Qed.

(** *** The encoder writes no carriage return *)









(** *** The lines of the output file, as a reader finds them *)







(** *** The scraper of the next run *)

Lemma result_world (a b : world) : Some (tt, a) = Some (tt, b) -> a = b.
Proof. intros H. injection H as E. exact E. Qed.

Lemma with_own_state w : with_state (w_state w) w = w.
Proof. destruct w. reflexivity. Qed.

Lemma resume_synced w :
  w_state_file w = Some (dump_state (w_state w)) -> resume w = Some w.
Proof.
  intros E. unfold resume, _load_state. rewrite E, loads_dump_state.
  rewrite state_of_state_members, with_own_state. reflexivity.
Qed.

Lemma resume_push e w : resume w = Some w -> resume (push e w) = Some (push e w).
Proof.
  unfold resume. cbn [push w_state_file].
  destruct (_load_state (w_state_file w)) as [v|]; [|discriminate].
  destruct (state_of_dict v) as [st|]; [|discriminate].
  intros H. inversion H as [E].
  assert (S : st = w_state w) by (rewrite <- E; reflexivity).
  rewrite S. destruct w. reflexivity.
Qed.




(* ================================================================== *)
(** ** The output file, line by line *)
(* ================================================================== *)

(** *** The id of a record, read back from its line *)




(** *** No JSON text has a capital I outside its strings *)


















(* ================================================================== *)
(** ** The statements of the specification on the two files *)
(* ================================================================== *)

(** *** Output Sink *)




(* ================================================================== *)
(** ** The checkpoint over runs of the program *)
(* ================================================================== *)


Section Sessions.

Variable cfg : config.
Variable env : environment.
Hypothesis batch_positive : 1 <= batch_size cfg.
Hypothesis saves_complete : forall i, state_write env i = WriteOk.


End Sessions.

(** *** Progress Store and Batch Driver *)




(** X1. When the query for the highest id fails (the transport, the
    status check or the decoding raises) or comes back with an empty
    list, [scrape_all] gives up at once, whatever the fuel: that one
    request is all it has done, and the state, the output file and the
    state file are untouched. *)
Theorem startup_failure_changes_nothing cfg env fuel w :
  let answer := requests_get env (count is_request (w_trace w)) GetLatest in
  fetch_failure answer \/ try_get_json answer = inr [] ->
  exists w',
    scrape_all cfg env fuel w = Some (tt, w') /\
    w_trace w' = (w_trace w ++ [EvRequest GetLatest])%list /\
    w_state w' = w_state w /\
    w_output w' = w_output w /\
    w_state_file w' = w_state_file w.
Proof.
  intros answer H.
  assert (E : highest_result answer = None).
  { unfold highest_result. destruct H as [F|E].
    - destruct F as [e | e body | e]; reflexivity.
    - rewrite E. reflexivity. }
  exists (push (EvRequest GetLatest) w).
  rewrite scrape_all_eq. fold answer. rewrite E. repeat split.
Qed.

Lemma startup_failure_changes_nothing_witness :
  exists w',
    scrape_all (init 50 100) unreachable 5 fresh = Some (tt, w') /\
    w_state w' = default_state /\ w_output w' = EmptyString /\ w_state_file w' = None.
Proof.
  destruct (startup_failure_changes_nothing (init 50 100) unreachable 5 fresh)
    as (w' & R & _ & S & O & F).
  - left. apply TransportFailure.
  - exists w'. repeat split; assumption.
Defined.

(** X2. [_scrape_id_range] returns the number of records it has handed to
    the sink, [total_posts_scraped] grows by that number,
    [last_processed_id] becomes the largest of its old value and the ids
    of these records, and [current_batch_start] is not touched. *)
Theorem scan_counts_what_it_appends cfg env min_id max_id w :
  exists k w' added,
    _scrape_id_range cfg env min_id max_id w = Some (k, w') /\
    w_trace w' = (w_trace w ++ added)%list /\
    k = Z.of_nat (List.length (appended_posts added)) /\
    total_posts_scraped (w_state w') = total_posts_scraped (w_state w) + k /\
    last_processed_id (w_state w')
      = fold_left Z.max (map post_id (appended_posts added))
          (last_processed_id (w_state w)) /\
    current_batch_start (w_state w') = current_batch_start (w_state w).
Proof.
  destruct (_scrape_id_range_total cfg env min_id max_id w) as (k & w' & H).
  exists k, w'. pose proof (scan_of_range _ _ _ _ _ _ _ H) as S.
  apply scan_progress in S.
  destruct S as (added & T & _ & _ & _ & Ht & Hl & Hc & _ & Hk).
  exists added. rewrite appended_count_posts in Ht, Hk.
  rewrite appended_ids_posts in Hl.
  repeat split; try assumption; lia.
Qed.

(** X3. Over a run of [scrape_all], [total_posts_scraped] grows by the
    number of records handed to the sink, and [last_processed_id] is a
    running maximum: it never goes down, no record handed to the sink has
    a larger id, and it is its old value or the id of one of them. *)
Theorem last_processed_id_is_running_max cfg env fuel w w' :
  scrape_all cfg env fuel w = Some (tt, w') ->
  exists added,
    w_trace w' = (w_trace w ++ EvRequest GetLatest :: added)%list /\
    total_posts_scraped (w_state w')
      = total_posts_scraped (w_state w) + Z.of_nat (List.length (appended_posts added)) /\
    last_processed_id (w_state w) <= last_processed_id (w_state w') /\
    Forall (fun p => post_id p <= last_processed_id (w_state w')) (appended_posts added) /\
    (last_processed_id (w_state w') = last_processed_id (w_state w)
     \/ In (last_processed_id (w_state w')) (map post_id (appended_posts added))).
Proof.
  intros H. rewrite scrape_all_eq in H.
  destruct (highest_result _) as [max_id|].
  - apply scrape_batches_drive, drive_windows in H; [|reflexivity].
    destruct H as (added & T & _ & _ & Ht & Hl).
    cbn [push w_trace w_state] in T, Ht, Hl.
    rewrite appended_count_posts in Ht. rewrite appended_ids_posts in Hl.
    exists added. rewrite T, <- List.app_assoc. split; [reflexivity|].
    split; [exact Ht|]. rewrite Hl.
    split; [apply fold_max_ge|].
    split; [|apply fold_max_in].
    apply Forall_forall. intros p Hp.
    pose proof (fold_max_bounds (map post_id (appended_posts added))
                  (last_processed_id (w_state w))) as B.
    rewrite Forall_forall in B. apply B. apply in_map. exact Hp.
  - inversion H; subst. exists []. cbn [push w_trace w_state appended_posts List.length map].
    repeat split; try lia; auto.
Qed.

Lemma last_processed_id_is_running_max_witness :
  exists w',
    scrape_all (init 2 10) (reliable (posts_upto 5)) 5 fresh = Some (tt, w') /\
    total_posts_scraped (w_state w') = 5 /\
    last_processed_id (w_state w') = 5.
Proof.
  destruct (scrape_all (init 2 10) (reliable (posts_upto 5)) 5 fresh) as [[[] w']|] eqn:E.
  - destruct (last_processed_id_is_running_max _ _ _ _ _ E) as (added & T & Ht & _).
    exists w'. split; [reflexivity|].
    vm_compute in E. inversion E. split; reflexivity.
  - exfalso. vm_compute in E. discriminate.
Defined.

(** X4. The requests of a call of [_scrape_id_range] are the pages 1, 2,
    3, ... of the window, in this order and without a gap, each with the
    page size of the scraper, up to some page that is at most 1000. *)
Theorem pages_are_requested_in_order cfg env min_id max_id w :
  exists k w' added j,
    _scrape_id_range cfg env min_id max_id w = Some (k, w') /\
    w_trace w' = (w_trace w ++ added)%list /\
    requests_of added = page_run min_id max_id (posts_per_page cfg) 1 j /\
    (1 <= j <= 1000)%nat.
Proof.
  destruct (_scrape_id_range_total cfg env min_id max_id w) as (k & w' & H).
  exists k, w'. pose proof (scan_of_range _ _ _ _ _ _ _ H) as S.
  destruct (scan_pages _ _ _ _ _ _ _ _ _ S) as (added & j & T & R & C).
  destruct (scan_fetches _ _ _ _ _ _ _ _ _ S) as (added' & T' & B & _ & L).
  assert (added' = added) by (rewrite T in T'; apply List.app_inv_head in T'; auto).
  subst added'. exists added, j. repeat split; try assumption.
  - rewrite <- C. apply L. unfold max_pages. lia.
  - rewrite <- C. unfold max_pages in B. lia.
Qed.

Section Ceiling.

Variable cfg : config.
Variable env : environment.
Variables min_id max_id : Z.

Hypothesis page_size_positive : 1 <= posts_per_page cfg.
Hypothesis every_page_full :
  forall i page,
    len (fetch_result (requests_get env i (range_request cfg min_id max_id page)))
    = posts_per_page cfg.

Lemma full_pages_to_the_ceiling fuel : forall page n w,
  Z.of_nat fuel = max_pages + 1 - page ->
  exists w' added,
    scrape_pages cfg env fuel min_id max_id page n w
      = Some (n + Z.of_nat fuel * posts_per_page cfg, w') /\
    w_trace w' = (w_trace w ++ added)%list /\
    requests_of added = page_run min_id max_id (posts_per_page cfg) page fuel.
Proof.
  induction fuel as [|fuel IH]; intros page n w Hf.
  - rewrite scrape_pages_stop by lia. exists w, [].
    rewrite List.app_nil_r. repeat split. f_equal. f_equal. lia.
  - rewrite scrape_pages_step by lia.
    pose proof (every_page_full (count is_request (w_trace w)) page) as Hfull.
    destruct (fetch_result _) as [|p ps] eqn:F.
    { change (len []) with 0 in Hfull. lia. }
    destruct (record_page_run env (p :: ps)
                (push (EvRequest (range_request cfg min_id max_id page)) w))
      as (w2 & -> & T2 & _).
    replace (len (p :: ps) <? posts_per_page cfg) with false
      by (symmetry; apply Z.ltb_ge; lia).
    destruct (IH (page + 1) (n + len (p :: ps)) (push EvSleep w2)) as (w' & added & R & T & Q);
      [lia|].
    exists w'. eexists. split.
    + rewrite R. f_equal. f_equal. lia.
    + split.
      * rewrite T. cbn [push w_trace]. rewrite T2. cbn [push w_trace].
        rewrite <- !List.app_assoc. reflexivity.
      * cbn [app requests_of page_run]. rewrite Q. reflexivity.
Qed.

End Ceiling.

(** X5. When every page of a window comes back full, [_scrape_id_range]
    stops at the ceiling: it asks for the pages 1 to 1000 and for no
    other, and returns 1000 times the page size. What the window holds
    beyond page 1000 is not fetched. *)
Theorem full_pages_stop_at_the_ceiling cfg env min_id max_id w :
  1 <= posts_per_page cfg ->
  (forall i page,
      len (fetch_result (requests_get env i (range_request cfg min_id max_id page)))
      = posts_per_page cfg) ->
  exists w' added,
    _scrape_id_range cfg env min_id max_id w = Some (1000 * posts_per_page cfg, w') /\
    w_trace w' = (w_trace w ++ added)%list /\
    requests_of added = page_run min_id max_id (posts_per_page cfg) 1 1000.
Proof.
  intros Hp Hfull.
  destruct (full_pages_to_the_ceiling cfg env min_id max_id Hp Hfull
              (Z.to_nat max_pages) 1 0 w) as (w' & added & R & T & Q).
  { unfold max_pages. lia. }
  exists w', added. unfold _scrape_id_range. rewrite R.
  repeat split; assumption.
Qed.

Lemma full_pages_stop_at_the_ceiling_witness :
  exists w' added,
    _scrape_id_range (init 1 100) endless 1 100 fresh = Some (1000 * 1, w') /\
    w_trace w' = (w_trace fresh ++ added)%list /\
    requests_of added = page_run 1 100 1 1 1000.
Proof.
  apply (full_pages_stop_at_the_ceiling (init 1 100) endless 1 100 fresh).
  - vm_compute. discriminate.
  - intros i page. reflexivity.
Defined.

(** X6. Whatever the server answers and whatever happens to the files, a
    run of [scrape_all] never takes anything away from the output file
    and never changes what is in it: what was in it is still there, at
    the front, and what was added is no longer than the lines of the
    records handed to the sink. *)
Theorem output_only_grows cfg env fuel w w' :
  scrape_all cfg env fuel w = Some (tt, w') ->
  is_prefix (w_output w) (w_output w') /\
  exists added text,
    w_trace w' = (w_trace w ++ EvRequest GetLatest :: added)%list /\
    w_output w' = w_output w ++ text /\
    (String.length text <= String.length (post_lines (appended_posts added)))%nat.
Proof.
  intros H. destruct (scrape_all_files cfg env fuel w w' H)
    as (added & text & T & _ & O & L & _).
  split; [exists text; exact O|].
  exists added, text. auto.
Qed.

Lemma output_only_grows_witness :
  exists w',
    scrape_all (init 2 10) (output_cut 40 (posts_upto 3)) 3
      {| w_state := default_state; w_output := "earlier" ++ nl;
         w_state_file := None; w_trace := [] |} = Some (tt, w') /\
    is_prefix ("earlier" ++ nl) (w_output w').
Proof.
  destruct (scrape_all (init 2 10) (output_cut 40 (posts_upto 3)) 3
              {| w_state := default_state; w_output := "earlier" ++ nl;
                 w_state_file := None; w_trace := [] |}) as [[[] w']|] eqn:E.
  - exists w'. split; [reflexivity|].
    apply (output_only_grows _ _ _ _ _ E).
  - exfalso. vm_compute in E. discriminate.
Defined.

(** X7. When the output file can always be written, a run of [scrape_all]
    adds to it exactly the records it has fetched, one line each, in the
    order of the fetches, and the number of lines added is the growth of
    [total_posts_scraped]. *)
Theorem output_matches_the_counter cfg env fuel w w' :
  (forall i, output_write env i = WriteOk) ->
  scrape_all cfg env fuel w = Some (tt, w') ->
  exists added,
    w_trace w' = (w_trace w ++ EvRequest GetLatest :: added)%list /\
    w_output w' = w_output w ++ post_lines (appended_posts added) /\
    split_lines (post_lines (appended_posts added))
      = (map post_text (appended_posts added), EmptyString) /\
    Z.of_nat (List.length (appended_posts added))
      = total_posts_scraped (w_state w') - total_posts_scraped (w_state w).
Proof.
  intros Hok H.
  destruct (scrape_all_lines cfg env fuel w w' Hok H) as (added & T & O & N).
  exists added. repeat split; try assumption. apply split_lines_post_lines.
Qed.

Lemma output_matches_the_counter_witness :
  exists w',
    scrape_all (init 2 10) (reliable (posts_upto 5)) 5 fresh = Some (tt, w') /\
    split_lines (w_output w') = (map post_text (posts_upto 5), EmptyString) /\
    total_posts_scraped (w_state w') = 5.
Proof.
  destruct (scrape_all (init 2 10) (reliable (posts_upto 5)) 5 fresh) as [[[] w']|] eqn:E.
  - destruct (output_matches_the_counter (init 2 10) (reliable (posts_upto 5)) 5 fresh w')
      as (added & _ & _ & _ & _); [reflexivity | exact E |].
    exists w'. split; [reflexivity|].
    vm_compute in E. inversion E. split; reflexivity.
  - exfalso. vm_compute in E. discriminate.
Defined.

(** X8. When the output file cannot be opened, [_append_posts_to_file]
    swallows the error and the run goes on: the output file is left as it
    was, yet [total_posts_scraped] grows by the number of records that
    were fetched. The counter then counts records that are in no file. *)
Theorem unwritable_output_is_not_noticed cfg env fuel w w' :
  (forall i, output_write env i = OpenFails) ->
  scrape_all cfg env fuel w = Some (tt, w') ->
  exists added,
    w_trace w' = (w_trace w ++ EvRequest GetLatest :: added)%list /\
    w_output w' = w_output w /\
    total_posts_scraped (w_state w')
      = total_posts_scraped (w_state w) + Z.of_nat (List.length (appended_posts added)).
Proof.
  intros Hbad H.
  destruct (scrape_all_files cfg env fuel w w' H) as (added & wr & T & _ & O & _ & _ & Hb & _).
  exists added. rewrite (Hb Hbad), append_nil_r in O.
  split; [exact T|]. split; [exact O|].
  rewrite scrape_all_eq in H.
  destruct (highest_result _) as [max_id|].
  - apply scrape_batches_drive, drive_windows in H; [|reflexivity].
    destruct H as (added2 & T2 & _ & _ & Ht & _).
    cbn [push w_trace w_state] in T2, Ht.
    rewrite T2, <- List.app_assoc in T. apply List.app_inv_head in T.
    inversion T; subst added2. rewrite appended_count_posts in Ht. exact Ht.
  - inversion H; subst. cbn [push w_trace] in T.
    apply List.app_inv_head in T. inversion T; subst added.
    cbn [appended_posts List.length push w_state]. lia.
Qed.

Lemma unwritable_output_is_not_noticed_witness :
  exists w',
    scrape_all (init 2 10) (output_locked (posts_upto 3)) 3 fresh = Some (tt, w') /\
    w_output w' = EmptyString /\
    total_posts_scraped (w_state w') = 3.
Proof.
  destruct (scrape_all (init 2 10) (output_locked (posts_upto 3)) 3 fresh)
    as [[[] w']|] eqn:E.
  - destruct (unwritable_output_is_not_noticed (init 2 10) (output_locked (posts_upto 3))
                3 fresh w') as (added & _ & O & _); [reflexivity | exact E |].
    exists w'. split; [reflexivity|]. split; [exact O|].
    vm_compute in E. inversion E. reflexivity.
  - exfalso. vm_compute in E. discriminate.
Defined.

(** X9. Whatever page size the scraper is created with, no request of a
    run asks for more than 200 posts: every range request carries the page
    size capped by [__init__]. *)
Theorem page_size_is_capped posts_per_page_arg batch_size_arg env fuel w w' :
  scrape_all (init posts_per_page_arg batch_size_arg) env fuel w = Some (tt, w') ->
  exists added,
    w_trace w' = (w_trace w ++ EvRequest GetLatest :: added)%list /\
    Forall (asks_for (Z.min posts_per_page_arg 200)) (requests_of added) /\
    Z.min posts_per_page_arg 200 <= 200.
Proof.
  intros H. destruct (scrape_all_files _ env fuel w w' H) as (added & wr & T & R & _).
  exists added. split; [exact T|]. split; [exact R | lia].
Qed.

Lemma page_size_is_capped_witness :
  exists w',
    scrape_all (init 500 10) (reliable (posts_upto 3)) 3 fresh = Some (tt, w') /\
    requests_of (w_trace w') = [GetLatest; GetRange 1 3 200 1].
Proof.
  destruct (scrape_all (init 500 10) (reliable (posts_upto 3)) 3 fresh)
    as [[[] w']|] eqn:E.
  - destruct (page_size_is_capped 500 10 (reliable (posts_upto 3)) 3 fresh w' E)
      as (added & _ & _ & _).
    exists w'. split; [reflexivity|].
    vm_compute in E. inversion E. reflexivity.
  - exfalso. vm_compute in E. discriminate.
Defined.

Lemma chain_app batch ws1 : forall start mid ws2 final,
  chain batch start ws1 mid -> chain batch mid ws2 final ->
  chain batch start (ws1 ++ ws2) final.
Proof.
  induction ws1 as [|[lo hi] ws1 IH]; intros start mid ws2 final C1 C2.
  - cbn [chain] in C1. subst mid. exact C2.
  - cbn [chain app] in C1 |- *. destruct C1 as (E & L & B & C1).
    repeat split; try assumption. eapply IH; eauto.
Qed.

Lemma windowing_chain batch max_id start ws final :
  1 <= batch ->
  windowing batch max_id start ws final -> chain batch start ws final.
Proof.
  intros Hb. induction 1 as [s Hs | s ws final Hs _ IH].
  - reflexivity.
  - cbn [chain]. repeat split; try lia. exact IH.
Qed.

Section RunChains.

Variable cfg : config.
Variable env : environment.

Lemma scrape_all_chain fuel w w' :
  1 <= batch_size cfg ->
  scrape_all cfg env fuel w = Some (tt, w') ->
  exists added,
    w_trace w' = (w_trace w ++ added)%list /\
    chain (batch_size cfg) (checkpoint (w_state w)) (windows_of added)
      (checkpoint (w_state w')).
Proof.
  intros Hb H.
  destruct (highest_result (requests_get env (count is_request (w_trace w)) GetLatest))
    as [max_id|] eqn:Hh.
  - destruct (scrape_all_rounds cfg env fuel w w' max_id Hh H) as (added & T & R).
    exists (EvRequest GetLatest :: added). split; [exact T|].
    cbn [windows_of]. eapply windowing_chain; [exact Hb|].
    apply rounds_windowing. exact R.
  - rewrite scrape_all_eq, Hh in H. inversion H; subst.
    exists [EvRequest GetLatest]. split; reflexivity.
Qed.

Lemma runs_chain fuels : forall w w',
  1 <= batch_size cfg ->
  runs cfg env fuels w = Some (tt, w') ->
  exists added,
    w_trace w' = (w_trace w ++ added)%list /\
    chain (batch_size cfg) (checkpoint (w_state w)) (windows_of added)
      (checkpoint (w_state w')).
Proof.
  induction fuels as [|fuel fuels IH]; intros w w' Hb H.
  - inversion H; subst. exists []. rewrite List.app_nil_r. split; reflexivity.
  - cbn [runs] in H. unfold bind in H at 1.
    destruct (scrape_all cfg env fuel w) as [[[] w1]|] eqn:E; [|discriminate].
    apply (scrape_all_chain _ _ _ Hb) in E. destruct E as (a1 & T1 & C1).
    apply (IH _ _ Hb) in H. destruct H as (a2 & T2 & C2).
    exists (a1 ++ a2)%list. rewrite T2, T1, <- List.app_assoc. split; [reflexivity|].
    rewrite windows_of_app. eapply chain_app; eauto.
Qed.

End RunChains.

(** X10. With batches of at least one id, the windows of any sequence of
    runs of [scrape_all] on the same progress state follow one another
    from the first checkpoint on, without a gap and without an overlap:
    each window starts right after the one before (also when a new run
    takes over), holds at least one and at most [batch_size] ids, and the
    checkpoint is left right after the last one. No id is scanned twice
    and none is passed over. *)
Theorem windows_chain_across_runs cfg env fuels w w' :
  1 <= batch_size cfg ->
  runs cfg env fuels w = Some (tt, w') ->
  exists added,
    w_trace w' = (w_trace w ++ added)%list /\
    chain (batch_size cfg) (checkpoint (w_state w)) (windows_of added)
      (checkpoint (w_state w')).
Proof. intros Hb H. eapply runs_chain; eauto. Qed.

Lemma windows_chain_across_runs_witness :
  exists w' added,
    runs (init 50 100) (growing 5 (posts_upto 120) (posts_upto 250)) [2%nat; 2%nat] fresh
      = Some (tt, w') /\
    w_trace w' = (w_trace fresh ++ added)%list /\
    windows_of added = [(1, 100); (101, 120); (121, 220); (221, 250)] /\
    chain 100 1 (windows_of added) 251.
Proof.
  destruct (runs (init 50 100) (growing 5 (posts_upto 120) (posts_upto 250))
              [2%nat; 2%nat] fresh) as [[[] w']|] eqn:E.
  - destruct (windows_chain_across_runs (init 50 100)
                (growing 5 (posts_upto 120) (posts_upto 250)) [2%nat; 2%nat] fresh w')
      as (added & T & C); [vm_compute; discriminate | exact E |].
    exists w', added. split; [reflexivity|]. split; [exact T|].
    assert (W : windows_of added = [(1, 100); (101, 120); (121, 220); (221, 250)]).
    { vm_compute in E. inversion E as [Ew]. rewrite <- Ew in T.
      cbn [w_trace fresh app] in T. rewrite <- T. reflexivity. }
    split; [exact W|].
    assert (K : checkpoint (w_state w') = 251).
    { vm_compute in E. inversion E. reflexivity. }
    rewrite K in C. exact C.
  - exfalso. vm_compute in E. discriminate.
Defined.

Section Outage.

Variable cfg : config.
Variable env : environment.

Hypothesis no_page :
  forall i min_id max_id page,
    fetch_result (requests_get env i (range_request cfg min_id max_id page)) = [].

Lemma blank_window min_id max_id w :
  _scrape_id_range cfg env min_id max_id w
  = Some (0, push (EvRequest (range_request cfg min_id max_id 1)) w).
Proof.
  unfold _scrape_id_range. rewrite max_pages_fuel.
  rewrite scrape_pages_step by (unfold max_pages; lia).
  rewrite no_page. reflexivity.
Qed.

Lemma blank_batches fuel : forall highest_id current_min_id w w',
  scrape_batches cfg env fuel highest_id current_min_id w = Some (tt, w') ->
  exists added,
    w_trace w' = (w_trace w ++ added)%list /\
    appended_posts added = [] /\
    count is_fetch added = List.length (windows_of added) /\
    w_output w' = w_output w /\
    total_posts_scraped (w_state w') = total_posts_scraped (w_state w) /\
    last_processed_id (w_state w') = last_processed_id (w_state w).
Proof.
  induction fuel as [|fuel IH]; intros h cur w w' H.
  - destruct (Z_le_gt_dec cur h) as [Hc|Hc].
    + cbn [scrape_batches] in H.
      replace (cur <=? h) with true in H by (symmetry; apply Z.leb_le; lia).
      discriminate.
    + rewrite scrape_batches_stop in H by exact Hc. inversion H; subst.
      exists []. rewrite List.app_nil_r. repeat split.
  - destruct (Z_le_gt_dec cur h) as [Hc|Hc].
    + rewrite scrape_batches_step in H by exact Hc.
      rewrite blank_window, save_state_run in H.
      apply IH in H. destruct H as (rest & T & A & C & O & Ht & Hl).
      cbn [push with_state with_state_file w_trace w_output w_state
           total_posts_scraped last_processed_id set_last_update set_current_batch_start]
        in T, O, Ht, Hl.
      eexists. split.
      { rewrite T. rewrite <- !List.app_assoc. cbn [app]. reflexivity. }
      cbn [appended_posts windows_of List.length].
      split; [exact A|]. split.
      { change (EvBatch cur (Z.min (cur + batch_size cfg - 1) h)
                  :: EvRequest (range_request cfg cur (Z.min (cur + batch_size cfg - 1) h) 1)
                  :: ?x)
          with ([EvBatch cur (Z.min (cur + batch_size cfg - 1) h);
                 EvRequest (range_request cfg cur (Z.min (cur + batch_size cfg - 1) h) 1)]
                ++ x)%list.
        rewrite count_app.
        change (count is_fetch [EvBatch _ _; EvRequest (range_request _ _ _ _)]) with 1%nat.
        match goal with |- context [EvSave ?st :: EvSleep :: rest] =>
          change (EvSave st :: EvSleep :: rest) with ([EvSave st; EvSleep] ++ rest)%list
        end.
        rewrite count_app.
        match goal with |- context [count is_fetch [EvSave ?st; EvSleep]] =>
          change (count is_fetch [EvSave st; EvSleep]) with 0%nat
        end.
        lia. }
      repeat split; assumption.
    + rewrite scrape_batches_stop in H by exact Hc. inversion H; subst.
      exists []. rewrite List.app_nil_r. repeat split.
Qed.

End Outage.

(** X11. When every range request of a run fails or comes back empty
    while the query for the highest id is answered, [scrape_all] still
    walks through all the windows, with one fetch each: nothing is
    written and the counters do not move, but the checkpoint ends above
    the highest id, so that all these ids count as done and no later run
    asks for them again. *)
Theorem outage_is_recorded_as_progress cfg env w max_id fuel :
  1 <= batch_size cfg ->
  (forall i min_id max_id page,
      fetch_result (requests_get env i (range_request cfg min_id max_id page)) = []) ->
  highest_result (requests_get env (count is_request (w_trace w)) GetLatest)
    = Some max_id ->
  max_id + 1 - checkpoint (w_state w) <= Z.of_nat fuel ->
  exists w' added,
    scrape_all cfg env fuel w = Some (tt, w') /\
    w_trace w' = (w_trace w ++ EvRequest GetLatest :: added)%list /\
    appended_posts added = [] /\
    count is_fetch added = List.length (windows_of added) /\
    w_output w' = w_output w /\
    total_posts_scraped (w_state w') = total_posts_scraped (w_state w) /\
    last_processed_id (w_state w') = last_processed_id (w_state w) /\
    checkpoint (w_state w') > max_id.
Proof.
  intros Hb Hno Hh Hf.
  destruct (scrape_all_total cfg env w max_id Hb Hh fuel Hf) as (w' & H).
  destruct (scrape_all_rounds cfg env fuel w w' max_id Hh H) as (added & T & R).
  apply rounds_final in R.
  exists w', added. split; [exact H|]. split; [exact T|].
  rewrite scrape_all_eq, Hh in H.
  destruct (blank_batches cfg env Hno _ _ _ _ _ H) as (added' & T' & A & C & O & Ht & Hl).
  cbn [push w_trace w_output w_state] in T', O, Ht, Hl.
  rewrite T', <- List.app_assoc in T. apply List.app_inv_head in T.
  inversion T; subst added'.
  repeat split; assumption.
Qed.

Lemma outage_is_recorded_as_progress_witness :
  exists w' added,
    scrape_all (init 50 100) (outage (posts_upto 250)) 250 fresh = Some (tt, w') /\
    w_trace w' = (w_trace fresh ++ EvRequest GetLatest :: added)%list /\
    windows_of added = [(1, 100); (101, 200); (201, 250)] /\
    count is_fetch added = 3%nat /\
    w_output w' = EmptyString /\
    checkpoint (w_state w') > 250.
Proof.
  destruct (outage_is_recorded_as_progress (init 50 100) (outage (posts_upto 250))
              fresh 250 250)
    as (w' & added & R & T & _ & C & O & _ & _ & K).
  - vm_compute. discriminate.
  - intros i lo hi page. reflexivity.
  - vm_compute. reflexivity.
  - vm_compute. discriminate.
  - exists w', added. split; [exact R|]. split; [exact T|].
    assert (W : windows_of added = [(1, 100); (101, 200); (201, 250)]).
    { vm_compute in R. inversion R as [Ew]. rewrite <- Ew in T.
      cbn [w_trace fresh app] in T. inversion T. reflexivity. }
    rewrite W in C. repeat split; assumption.
Defined.

(* ================================================================== *)
(** ** Resuming from the state file *)
(* ================================================================== *)

(** X12. A state that [_save_state] has written completely is the state
    that [_load_state] returns: a scraper created afterwards has the
    counters, the time stamp and the checkpoint of the one that saved. *)
Theorem saved_state_loads_back env w w' :
  state_write env (count is_save (w_trace w)) = WriteOk ->
  _save_state env w = Some (tt, w') ->
  _load_state (w_state_file w') = Some (JObj (state_members (w_state w'))) /\
  resume w' = Some w'.
Proof.
  intros Hok H. rewrite save_state_run, Hok in H. apply result_world in H.
  set (st := set_last_update (w_state w) (now_isoformat env (count is_save (w_trace w))))
    in *.
  assert (F : state_file_at (save_finished st) (w_state_file w) st
              = Some (dump_state st)).
  { unfold save_finished, state_file_at, dump_state. rewrite List.firstn_all. reflexivity. }
  rewrite F in H. subst w'.
  split.
  - cbn [push with_state_file with_state w_state_file w_state].
    unfold _load_state. rewrite loads_dump_state. reflexivity.
  - apply resume_synced. reflexivity.
Qed.

Lemma saved_state_loads_back_witness :
  exists w',
    _save_state (reliable []) (with_state (saved_at 101) fresh) = Some (tt, w') /\
    resume w' = Some w' /\ checkpoint (w_state w') = 101.
Proof.
  eexists. split; [reflexivity|]. split; [|reflexivity].
  apply (saved_state_loads_back (reliable []) (with_state (saved_at 101) fresh) _
           eq_refl eq_refl).
Defined.

(** X13. A save that is cut short before its last chunk leaves a state
    file that [json.load] refuses, and [_load_state] answers with the
    default state: the next scraper starts at id 1 with its counters at
    zero, whatever had been processed. *)
Theorem interrupted_save_resets_progress env w w' k :
  state_write env (count is_save (w_trace w)) = WriteFails k ->
  (k < List.length (dump_chunks (w_state w')))%nat ->
  _save_state env w = Some (tt, w') ->
  _load_state (w_state_file w') = Some default_dict /\
  resume w' = Some (with_state default_state w').
Proof.
  intros Hcut Hk H. rewrite save_state_run, Hcut in H. apply result_world in H.
  subst w'. cbn [push with_state_file with_state w_state] in Hk.
  assert (L : _load_state
                (w_state_file
                   (push (EvSave (set_last_update (w_state w)
                                    (now_isoformat env (count is_save (w_trace w)))))
                      (with_state_file
                         (state_file_at (Written k) (w_state_file w)
                            (set_last_update (w_state w)
                               (now_isoformat env (count is_save (w_trace w)))))
                         (with_state
                            (set_last_update (w_state w)
                               (now_isoformat env (count is_save (w_trace w)))) w))))
              = Some default_dict).
  { cbn [push with_state_file with_state w_state_file state_file_at].
    unfold _load_state. rewrite loads_torn_state by exact Hk. reflexivity. }
  split; [exact L|].
  unfold resume. rewrite L. reflexivity.
Qed.

Lemma interrupted_save_resets_progress_witness :
  exists w',
    _save_state (save_cut 17 []) (with_state (saved_at 101) fresh) = Some (tt, w') /\
    checkpoint (w_state w') = 101 /\
    resume w' = Some (with_state default_state w').
Proof.
  eexists. split; [reflexivity|]. split; [reflexivity|].
  apply (interrupted_save_resets_progress (save_cut 17 [])
           (with_state (saved_at 101) fresh) _ 17 eq_refl).
  - vm_compute. lia.
  - reflexivity.
Defined.

(** X14. When the state file can always be written, a scraper that has
    started from what the state file holds leaves, at the end of a run of
    [scrape_all], a state file that holds its state: the scraper created
    next continues from the checkpoint and the counters of this one. *)
Theorem next_scraper_continues cfg env fuel w w' :
  (forall i, state_write env i = WriteOk) ->
  resume w = Some w ->
  scrape_all cfg env fuel w = Some (tt, w') ->
  resume w' = Some w'.
Proof.
  intros Hok Hw H.
  destruct (scrape_all_files cfg env fuel w w' H)
    as (added & text & _ & _ & _ & _ & _ & _ & F).
  destruct (F Hok) as [[_ ->] | S].
  - apply resume_push, Hw.
  - apply resume_synced, S.
Qed.

Lemma next_scraper_continues_witness :
  exists w',
    scrape_all (init 2 10) (reliable (posts_upto 5)) 5 fresh = Some (tt, w') /\
    resume w' = Some w' /\ checkpoint (w_state w') = 6.
Proof.
  eexists. split; [vm_compute; reflexivity|]. split; [|reflexivity].
  apply (next_scraper_continues (init 2 10) (reliable (posts_upto 5)) 5 fresh).
  - reflexivity.
  - reflexivity.
  - vm_compute. reflexivity.
Defined.

(* ================================================================== *)
(** ** Reading the output file back *)
(* ================================================================== *)






